(** * Data Detective Platform: the anomaly and data-quality engine

    A shallow embedding of [app/anomaly_detection.py] and
    [app/sanity_checker.py]: [detect_anomalies], [explain_anomalies],
    [detect_time_series_anomalies], [detect_duplicates], [detect_outliers]
    and [check_data_consistency], with the properties their specification
    states and further properties read off the code.

    Numbers are the values numpy holds in a [float64] column, modelled by
    the IEEE 754 binary64 specification of the Standard Library
    ([SpecFloat]); the functions are written once over the interface
    [Number], so that the same code can also be read over exact rationals.
    scikit-learn is an external collaborator: its calls are events of a
    small free monad, interpreted by an arbitrary handler.  The pandas
    reductions whose summation order is internal to the library
    ([Series.mean], [Series.std], the rolling kernels), [pd.to_datetime]
    and [argsort] are fields of the interface [Pandas]; reference kernels
    over binary64 are given in the modules [Naive] and [Numpy]. *)

From Stdlib Require Import ZArith QArith Qabs Lia Lqa Ascii String.
From Stdlib Require Import Floats.SpecFloat.
From stdpp Require Import base option list strings pretty gmap sorting.

Open Scope string_scope.

(** ** Numbers *)

(** What the code needs from a numeric cell: Python's arithmetic and
    comparison operators, the undefined value pandas returns for an empty
    statistic, and numeric literals (written [m * 2^e]). *)
Class Number (A : Type) := {
  num_add : A → A → A;
  num_sub : A → A → A;
  num_mul : A → A → A;
  num_div : A → A → A;
  num_abs : A → A;
  (** [x < y]; [x > y] is [num_ltb y x].  False when an operand is NaN. *)
  num_ltb : A → A → bool;
  num_isnan : A → bool;
  num_nan : A;
  num_lit : Z → Z → A;
  (** The representative of a number among the values equal to it. *)
  num_key : A → A;
  num_eq_dec :: EqDecision A
}.

Declare Scope num_scope.
Delimit Scope num_scope with num.
Infix "+" := num_add : num_scope.
Infix "-" := num_sub : num_scope.
Infix "*" := num_mul : num_scope.
Infix "/" := num_div : num_scope.
Infix "<?" := num_ltb : num_scope.
Notation "x >? y" := (num_ltb y x) : num_scope.

(** *** binary64, the [float64] of numpy *)
Module Float64.
Definition prec : Z := 53.
Definition emax : Z := 1024.
Abbreviation float := spec_float.

Definition of_Z2 (m e : Z) : float := binary_normalize prec emax m e false.

Definition is_nan (x : float) : bool :=
  match x with S754_nan => true | _ => false end.

Definition is_zero (x : float) : bool :=
  match x with S754_zero _ => true | _ => false end.

#[export] Instance float_eq_dec : EqDecision float.
Proof. solve_decision. Defined.

(** The key under which a hash table files a number: numeric equality,
    so the sign of zero is dropped (and NaN equals NaN). *)
Definition key (x : float) : float :=
  match x with S754_zero _ => S754_zero false | _ => x end.

#[export] Instance number : Number float := {|
  num_add := SFadd prec emax;
  num_sub := SFsub prec emax;
  num_mul := SFmul prec emax;
  num_div := SFdiv prec emax;
  num_abs := SFabs;
  num_ltb := SFltb;
  num_isnan := is_nan;
  num_nan := S754_nan;
  num_lit := of_Z2;
  num_key := key
|}.
End Float64.

(** *** Exact rationals: the same operators without rounding.  There is no
    undefined value; [0] stands in for it, as it does for [Qdiv] by zero. *)
Module Exact.
Definition pow2 (e : Z) : Q := Qpower 2 e.

#[export] Instance Q_eq_dec : EqDecision Q.
Proof. solve_decision. Defined.

#[export] Instance number : Number Q := {|
  num_add := Qplus;
  num_sub := Qminus;
  num_mul := Qmult;
  num_div := Qdiv;
  num_abs := Qabs;
  num_ltb := λ x y, negb (Qle_bool y x);
  num_isnan := λ _, false;
  num_nan := 0%Q;
  num_lit := λ m e, (inject_Z m * pow2 e)%Q;
  num_key := Qred
|}.
End Exact.

(** ** Exceptions and the two result conventions of the code

    The functions of the engine report a failure they detect themselves by
    returning the pair [(None, message)]; anything else that goes wrong is
    a Python exception that leaves the function. *)
Inductive exn :=
| UnboundLocalError (variable : string)
| KeyError (key : string)
| TypeError (what : string)
| ValueError (what : string)
| LibraryError (class_name message : string).

Inductive outcome (A : Type) :=
| Returned (a : A)
| Raised (e : exn).
Arguments Returned {A} a.
Arguments Raised {A} e.

Definition obind {A B} (m : outcome A) (k : A → outcome B) : outcome B :=
  match m with Returned a => k a | Raised e => Raised e end.

(** The value of a [return result, error] statement. *)
Definition reply (R : Type) : Type := option R * option string.

(** ** Data frames *)

Inductive column (A : Type) :=
| Numeric (xs : list A)
| Text (xs : list string)
| Datetime (xs : list (option Z)).
Arguments Numeric {A} xs.
Arguments Text {A} xs.
Arguments Datetime {A} xs.

(** Column labels with their data, in column order. *)
Abbreviation DataFrame A := (list (string * column A)).

Section Frames.
Context {A : Type}.

(** [df.columns] *)
Definition columns (df : DataFrame A) : list string := df.*1.

Definition is_numeric (c : column A) : bool :=
  match c with Numeric _ => true | _ => false end.

(** [df.select_dtypes(include=[np.number]).columns] *)
Definition numeric_columns (df : DataFrame A) : list string :=
  (filter (λ p, is_numeric p.2 = true) df).*1.

(** [df[col]] on a frame whose labels are distinct: the column of that
    label.  Where a label is repeated pandas hands back the frame of the
    columns that carry it, not a column, and [detect_time_series_anomalies]
    and [explain_anomalies] raise on it; such frames are outside this
    definition, which would give the first of the columns, and the
    properties that conclude that one of the two functions returns are
    stated of frames with [NoDup (columns df)]. *)
Fixpoint get_column (df : DataFrame A) (col : string) : option (column A) :=
  match df with
  | [] => None
  | (name, c) :: rest => if decide (name = col) then Some c else get_column rest col
  end.

Definition column_length (c : column A) : nat :=
  match c with
  | Numeric xs => length xs
  | Text xs => length xs
  | Datetime xs => length xs
  end.

(** [len(df)] *)
Definition nrows (df : DataFrame A) : nat :=
  match df with [] => 0 | (_, c) :: _ => column_length c end.
End Frames.

(** ** scikit-learn as an external collaborator

    A program performs calls into the library; what a call answers (a
    value, or an exception) is decided by a handler, which may keep state
    of its own (fitted estimators). *)
Inductive prog (E : Type → Type) (R : Type) : Type :=
| Ret (r : R)
| Throw (e : exn)
| Call {T : Type} (c : E T) (k : T → prog E R).
Arguments Ret {E R} r.
Arguments Throw {E R} e.
Arguments Call {E R T} c k.

Fixpoint prog_bind {E A B} (k : A → prog E B) (m : prog E A) : prog E B :=
  match m with
  | Ret a => k a
  | Throw e => Throw e
  | Call c k' => Call c (λ t, prog_bind k (k' t))
  end.

#[export] Instance prog_mbind {E} : MBind (prog E) := @prog_bind E.
#[export] Instance prog_mret {E} : MRet (prog E) := @Ret E.

Definition call {E T} (c : E T) : prog E T := Call c Ret.

Definition handler (E : Type → Type) (S : Type) : Type :=
  ∀ T, E T → S → outcome T * S.

Fixpoint run {E S R} (h : handler E S) (p : prog E R) (s : S) : outcome R * S :=
  match p with
  | Ret r => (Returned r, s)
  | Throw e => (Raised e, s)
  | Call c k =>
      match h _ c s with
      | (Returned t, s') => run h (k t) s'
      | (Raised e, s') => (Raised e, s')
      end
  end.

(** Keyword arguments forwarded to an estimator. *)
Inductive pyvalue (A : Type) :=
| PyInt (n : Z)
| PyFloat (x : A)
| PyStr (s : string)
| PyBool (b : bool).
Arguments PyInt {A} n.
Arguments PyFloat {A} x.
Arguments PyStr {A} s.
Arguments PyBool {A} b.

Abbreviation kwargs A := (list (string * pyvalue A)).

(** A scaler or an estimator: an object that lives in the library. *)
Inductive object := Object (id : nat).

Inductive sklearn (A : Type) : Type → Type :=
| StandardScaler : sklearn A object
| fit_transform (scaler : object) (X : list (list A)) : sklearn A (list (list A))
| IsolationForest (contamination : A) (random_state : Z) (kw : kwargs A) : sklearn A object
| OneClassSVM (nu : A) (kw : kwargs A) : sklearn A object
| LocalOutlierFactor (contamination : A) (kw : kwargs A) : sklearn A object
| predict (model : object) (X : list (list A)) : sklearn A (list Z)
| decision_function (model : object) (X : list (list A)) : sklearn A (list A)
| fit_predict (model : object) (X : list (list A)) : sklearn A (list Z)
| negative_outlier_factor_ (model : object) : sklearn A (list A).
Arguments StandardScaler {A}.
Arguments fit_transform {A} scaler X.
Arguments IsolationForest {A} contamination random_state kw.
Arguments OneClassSVM {A} nu kw.
Arguments LocalOutlierFactor {A} contamination kw.
Arguments predict {A} model X.
Arguments decision_function {A} model X.
Arguments fit_predict {A} model X.
Arguments negative_outlier_factor_ {A} model.

(** The dictionary [detect_anomalies] returns. *)
Record AnomalyResult (A : Type) := {
  predictions : list Z;
  anomalies : list bool;
  scores : list A;
  model : object;
  scaler : object;
  numeric_cols : list string
}.
Arguments predictions {A} _.
Arguments anomalies {A} _.
Arguments scores {A} _.
Arguments model {A} _.
Arguments scaler {A} _.
Arguments numeric_cols {A} _.

(** The error reply of [detect_anomalies] (the [NoNumericDataError] of the
    specification). *)
Definition NoNumericDataError : string :=
  "No numeric columns found for anomaly detection".

Section MultivariateAnomalyEngine.
Context {A : Type} `{!Number A}.

(** [df[cols].values]: one row per row of the frame. *)
Definition values (df : DataFrame A) (cols : list string) : list (list A) :=
  let data := omap (λ col, match get_column df col with
                           | Some (Numeric xs) => Some xs
                           | _ => None
                           end) cols in
  (λ i, omap (λ xs : list A, xs !! i) data) <$> seq 0 (nrows df).

(** The three branches assign [model], [predictions] and [scores]; when
    none is taken the three local variables stay unbound. *)
Definition fit_model (algorithm : string) (contamination : A) (kw : kwargs A)
    (X_scaled : list (list A)) : prog (sklearn A) (option (list Z * list A * object)) :=
  if decide (algorithm = "Isolation Forest") then
    model ← call (IsolationForest contamination 42 kw);
    predictions ← call (predict model X_scaled);
    scores ← call (decision_function model X_scaled);
    mret (Some (predictions, scores, model))
  else if decide (algorithm = "One-Class SVM") then
    model ← call (OneClassSVM contamination kw);
    predictions ← call (predict model X_scaled);
    scores ← call (decision_function model X_scaled);
    mret (Some (predictions, scores, model))
  else if decide (algorithm = "Local Outlier Factor") then
    model ← call (LocalOutlierFactor contamination kw);
    predictions ← call (fit_predict model X_scaled);
    scores ← call (negative_outlier_factor_ model);
    mret (Some (predictions, scores, model))
  else mret None.

(** [detect_anomalies(df, algorithm, contamination, **kwargs)].  The two
    models of the first branches are asked to predict as they were
    created, and the third one to fit and predict; what the library
    answers is the handler's part. *)
Definition detect_anomalies (df : DataFrame A) (algorithm : string)
    (contamination : A) (kw : kwargs A) : prog (sklearn A) (reply (AnomalyResult A)) :=
  let numeric_cols := numeric_columns df in
  if decide (length numeric_cols = 0%nat) then
    mret (None, Some NoNumericDataError)
  else
    let X := values df numeric_cols in
    scaler ← call StandardScaler;
    X_scaled ← call (fit_transform scaler X);
    locals ← fit_model algorithm contamination kw X_scaled;
    match locals with
    | None => Throw (UnboundLocalError "predictions")
    | Some (predictions, scores, model) =>
        let anomalies := (λ p, bool_decide (p = (-1)%Z)) <$> predictions in
        mret (Some {| predictions := predictions; anomalies := anomalies;
                      scores := scores; model := model; scaler := scaler;
                      numeric_cols := numeric_cols |}, None)
    end.

End MultivariateAnomalyEngine.

(** ** pandas

    The reductions whose rounding depends on the summation order chosen
    inside pandas and numpy are kernels of this interface; so are the
    parsing of timestamps, the formatting of a number and the sorting
    permutation.  What pandas documents around them (missing values are
    skipped, an empty statistic is NaN, a rolling window needs
    [min_periods] observations, missing timestamps sort last) is written
    out in the definitions that use the kernels.

    [argsort] is [numpy.argsort] with the kind [sort_values] uses by
    default, ['quicksort'], which pandas documents as not stable: the
    permutation sorts the keys, and nothing more is promised. *)

(** Timestamps in nanoseconds; [None] is [NaT], which sorts last. *)
Definition key_le (a b : option Z) : Prop :=
  match a, b with
  | _, None => True
  | None, Some _ => False
  | Some x, Some y => (x ≤ y)%Z
  end.

Definition key_leb (a b : option Z) : bool :=
  match a, b with
  | _, None => true
  | None, Some _ => false
  | Some x, Some y => (x <=? y)%Z
  end.

(** [xs.take(idx)] *)
Definition take_rows {T} (idx : list nat) (xs : list T) : list T :=
  omap (λ i, xs !! i) idx.

Class Pandas (A : Type) := {
  (** [Series.mean] and [Series.std] on one or more, resp. two or more,
      values that are not missing *)
  mean_kernel : list A → A;
  std_kernel : list A → A;
  (** the same over one full rolling window *)
  rolling_mean_kernel : list A → A;
  rolling_std_kernel : list A → A;
  (** [pd.to_datetime] on one text cell and on one number *)
  parse_datetime : string → outcome (option Z);
  timestamp_of_number : A → outcome (option Z);
  (** [format(x, ".2f")] *)
  format_2f : A → string;
  argsort : list (option Z) → list nat
}.

(** What [numpy.argsort] promises for every kind of sort: a permutation of
    the positions that puts the keys in ascending order. *)
Class ArgsortContract {A : Type} (P : Pandas A) : Prop := {
  argsort_perm : ∀ keys, argsort keys ≡ₚ seq 0 (length keys);
  argsort_sorted : ∀ keys, Sorted key_le (take_rows (argsort keys) keys)
}.

Section Series.
Context {A : Type} `{!Number A} `{!Pandas A}.
Local Open Scope num_scope.

Definition dropna (xs : list A) : list A :=
  filter (λ x, num_isnan x = false) xs.

(** [Series.mean()]: NaN when no value is left. *)
Definition series_mean (xs : list A) : A :=
  match dropna xs with
  | [] => num_nan
  | ys => mean_kernel ys
  end.

(** [Series.std()], with [ddof=1]: NaN on fewer than two values. *)
Definition series_std (xs : list A) : A :=
  match dropna xs with
  | [] | [_] => num_nan
  | ys => std_kernel ys
  end.

(** Ascending order of the values left of a column. *)
Fixpoint insert_sorted (x : A) (l : list A) : list A :=
  match l with
  | [] => [x]
  | y :: l' => if y <? x then y :: insert_sorted x l' else x :: l
  end.

Definition sort_values (xs : list A) : list A := foldr insert_sorted [] xs.

(** [Series.quantile(k/4)] with the default linear interpolation: the
    position [k/4 * (n - 1)] lies between the order statistics [i] and [j]
    of the sorted values [s], a fraction [t] of the way.  numpy's [_lerp]
    computes [i + (j - i) * t], and [j - (j - i) * (1 - t)] from [t = 1/2]
    on. *)
Definition interpolate (k : nat) (s : list A) : A :=
  let pos := (k * (length s - 1))%nat in
  let lo := (pos / 4)%nat in
  let hi := (lo + 1) `min` (length s - 1) in
  let r := (pos mod 4)%nat in
  let i := default num_nan (s !! lo) in
  let j := default num_nan (s !! hi) in
  if decide (2 ≤ r)%nat then j - (j - i) * num_lit (Z.of_nat (4 - r)) (-2)
  else i + (j - i) * num_lit (Z.of_nat r) (-2).

Definition quantile (k : nat) (xs : list A) : A :=
  match sort_values (dropna xs) with
  | [] => num_nan
  | s => interpolate k s
  end.

(** [(mask).sum()] *)
Definition count_true {T} (p : T → bool) (xs : list T) : nat :=
  length (filter (λ x, p x = true) xs).

(** [Series.rolling(window).agg()], [min_periods] left at its default, the
    window: the statistic of the [window] rows ending at each row, NaN
    where fewer than [window] observations are at hand. *)
Definition rolling_window (window i : nat) (xs : list A) : list A :=
  drop (S i - window) (take (S i) xs).

Definition rolling (window : nat) (kernel : list A → A) (xs : list A) : list A :=
  imap (λ i _,
    let obs := dropna (rolling_window window i xs) in
    if decide (length obs < window ∨ obs = []) then num_nan else kernel obs) xs.

(** [rolling(window).std()], [ddof=1]: NaN on a single observation. *)
Definition rolling_std (window : nat) (xs : list A) : list A :=
  rolling window (λ obs, match obs with [_] => num_nan | _ => rolling_std_kernel obs end) xs.

Definition rolling_mean (window : nat) (xs : list A) : list A :=
  rolling window rolling_mean_kernel xs.

End Series.

Fixpoint mapM_outcome {T U} (f : T → outcome U) (l : list T) : outcome (list U) :=
  match l with
  | [] => Returned []
  | x :: l' => obind (f x) (λ y, obind (mapM_outcome f l') (λ ys, Returned (y :: ys)))
  end.

(** ** [detect_time_series_anomalies] *)

(** A pandas [Series]: the values with the index labels of their rows (the
    positions the rows had in the input frame). *)
Abbreviation Series T := (list (nat * T)).

Record TimeSeriesResult (A : Type) := {
  ts_anomalies : Series bool;
  ts_z_scores : Series A;
  ts_rolling_mean : Series A;
  ts_rolling_std : Series A
}.
Arguments ts_anomalies {A} _.
Arguments ts_z_scores {A} _.
Arguments ts_rolling_mean {A} _.
Arguments ts_rolling_std {A} _.

(** The error reply of [detect_time_series_anomalies] (the
    [ColumnNotFoundError] of the specification). *)
Definition ColumnNotFoundError : string := "Time or value column not found".

Section TimeSeriesAnomalyEngine.
Context {A : Type} `{!Number A} `{!Pandas A}.
Local Open Scope num_scope.

(** [pd.to_datetime(series)] *)
Definition to_datetime (c : column A) : outcome (list (option Z)) :=
  match c with
  | Datetime ts => Returned ts
  | Text xs => mapM_outcome parse_datetime xs
  | Numeric xs => mapM_outcome timestamp_of_number xs
  end.

(** [df[col] = c]: the column of that label is replaced; a new label is
    added as the last column. *)
Definition set_column (df : DataFrame A) (col : string) (c : column A) : DataFrame A :=
  (λ p, if decide (p.1 = col) then (p.1, c) else p) <$> df.

Definition assign (df : DataFrame A) (col : string) (c : column A) : DataFrame A :=
  if decide (col ∈ columns df) then set_column df col c else (df ++ [(col, c)])%list.

Definition reindex (order : list nat) (c : column A) : column A :=
  match c with
  | Numeric xs => Numeric (take_rows order xs)
  | Text xs => Text (take_rows order xs)
  | Datetime xs => Datetime (take_rows order xs)
  end.

(** [df.sort_values(col)] on a datetime column: the rows in the order
    [argsort] gives, with the permutation as the new index. *)
Definition sort_rows (df : DataFrame A) (keys : list (option Z)) : list nat * DataFrame A :=
  let order := argsort keys in
  (order, (λ p, (p.1, reindex order p.2)) <$> df).

(** [df[col]] handed to a rolling window or to arithmetic. *)
Definition numeric_values (df : DataFrame A) (col : string) : outcome (list A) :=
  match get_column df col with
  | Some (Numeric xs) => Returned xs
  | Some _ => Raised (LibraryError "DataError" "No numeric types to aggregate")
  | None => Raised (KeyError col)
  end.

(** The rolling mean and the rolling standard deviation are stored as
    columns of the working frame before the value column is read again. *)
Definition detect_time_series_anomalies (df : DataFrame A) (time_col value_col : string)
    (window : Z) (threshold : A) : outcome (reply (TimeSeriesResult A)) :=
  match get_column df time_col, get_column df value_col with
  | Some times, Some _ =>
      obind (to_datetime times) (λ ts,
        let df_ts := assign df time_col (Datetime ts) in
        let '(index, df_ts) := sort_rows df_ts ts in
        if decide (window < 0)%Z then
          Raised (ValueError "window must be an integer 0 or greater")
        else
          let w := Z.to_nat window in
          obind (numeric_values df_ts value_col) (λ vs,
            let rolling_mean := rolling_mean w vs in
            let df_ts := assign df_ts "rolling_mean" (Numeric rolling_mean) in
            obind (numeric_values df_ts value_col) (λ vs,
              let rolling_std := rolling_std w vs in
              let df_ts := assign df_ts "rolling_std" (Numeric rolling_std) in
              obind (numeric_values df_ts value_col) (λ vs,
                let z_score := zip_with (λ v ms, (v - ms.1) / ms.2) vs
                                 (zip rolling_mean rolling_std) in
                let anomalies := (λ z, num_abs z >? threshold) <$> z_score in
                Returned (Some {| ts_anomalies := zip index anomalies;
                                  ts_z_scores := zip index z_score;
                                  ts_rolling_mean := zip index rolling_mean;
                                  ts_rolling_std := zip index rolling_std |}, None)))))
  | _, _ => Returned (None, Some ColumnNotFoundError)
  end.

(** What the three readings of the value column yield over the sorted
    values [vs]: the column the standard deviation is taken of, and the
    column the z-scores are taken of.  A value column labelled
    ["rolling_mean"] or ["rolling_std"] has been overwritten by then. *)
Definition second_reading (value_col : string) (w : nat) (vs : list A) : list A :=
  if decide (value_col = "rolling_mean") then rolling_mean w vs else vs.

Definition third_reading (value_col : string) (w : nat) (vs : list A) : list A :=
  if decide (value_col = "rolling_std") then rolling_std w (second_reading value_col w vs)
  else second_reading value_col w vs.

(** What the function returns once the columns are found and the window is
    not negative: the four series over the rows in sorted order. *)
Definition rolling_result (index : list nat) (value_col : string) (vs : list A) (w : nat)
    (threshold : A) : TimeSeriesResult A :=
  let rolling_mean := rolling_mean w vs in
  let rolling_std := rolling_std w (second_reading value_col w vs) in
  let z_score := zip_with (λ v ms, (v - ms.1) / ms.2) (third_reading value_col w vs)
                   (zip rolling_mean rolling_std) in
  {| ts_anomalies := zip index ((λ z, num_abs z >? threshold) <$> z_score);
     ts_z_scores := zip index z_score;
     ts_rolling_mean := zip index rolling_mean;
     ts_rolling_std := zip index rolling_std |}.

End TimeSeriesAnomalyEngine.

(** ** [explain_anomalies] *)
Section AnomalyExplainer.
Context {A : Type} `{!Number A} `{!Pandas A}.
Local Open Scope num_scope.

(** [series[mask]] *)
Definition boolean_mask {T} (mask : list bool) (xs : list T) : list T :=
  (filter (λ p, p.1 = true) (zip mask xs)).*2.

(** One turn of the loop: the explanation appended for [col], if any. *)
Definition explain_column (df : DataFrame A) (mask : list bool) (col : string)
    : outcome (option string) :=
  match get_column df col with
  | None => Raised (KeyError col)
  | Some (Numeric xs) =>
      let anomalies_col := boolean_mask mask xs in
      let normal_col := boolean_mask (negb <$> mask) xs in
      let anomaly_mean := series_mean anomalies_col in
      let normal_mean := series_mean normal_col in
      let diff := num_abs (anomaly_mean - normal_mean) in
      if diff >? series_std normal_col then
        let direction := if anomaly_mean >? normal_mean then "higher" else "lower" in
        Returned (Some (col ++ ": Anomalies have " ++ direction
                          ++ " values (diff: " ++ format_2f diff ++ ")"))
      else Returned None
  | Some _ => Raised (TypeError col)
  end.

(** [explain_anomalies(df, result)]: the mask selects the rows, and the
    loop runs over the columns the result names. *)
Definition explain_anomalies (df : DataFrame A) (result : AnomalyResult A)
    : outcome (list string) :=
  if decide (length (anomalies result) = nrows df) then
    obind (mapM_outcome (explain_column df (anomalies result)) (numeric_cols result))
      (λ explanations, Returned (omap id explanations))
  else Raised (ValueError "Item wrong length").

End AnomalyExplainer.

(** ** [detect_duplicates] and [detect_outliers] *)

Inductive cell (A : Type) :=
| CNum (x : A)
| CStr (s : string)
| CTime (t : option Z).
Arguments CNum {A} x.
Arguments CStr {A} s.
Arguments CTime {A} t.

#[export] Instance cell_eq_dec {A} `{EqDecision A} : EqDecision (cell A).
Proof. solve_decision. Defined.

Record DuplicateReport := {
  duplicate_rows : nat;
  duplicate_columns : nat
}.

(** [duplicated()], [keep='first']: a value is marked when it was seen
    before; the table [seen] holds each value once. *)
Fixpoint duplicated_from {K} `{EqDecision K} (seen : list K) (l : list K) : list bool :=
  match l with
  | [] => []
  | x :: l' =>
      if decide (x ∈ seen) then true :: duplicated_from seen l'
      else false :: duplicated_from (x :: seen) l'
  end.

Definition duplicated {K} `{EqDecision K} (l : list K) : list bool :=
  duplicated_from [] l.

(** The flags as the specification words them: a row is a duplicate when it
    is value-identical to one of the rows before it. *)
Definition repeats_earlier {K} `{EqDecision K} (l : list K) : list bool :=
  imap (λ i x, bool_decide (x ∈ take i l)) l.

Section SanityChecker.
Context {A : Type} `{!Number A} `{!Pandas A}.
Local Open Scope num_scope.

(** The value of row [i] in a column, as the hash table of [duplicated]
    files it. *)
Definition cell_at (c : column A) (i : nat) : option (cell A) :=
  match c with
  | Numeric xs => CNum ∘ num_key <$> xs !! i
  | Text xs => CStr <$> xs !! i
  | Datetime xs => CTime <$> xs !! i
  end.

Definition row (df : DataFrame A) (i : nat) : list (cell A) :=
  omap (λ p, cell_at p.2 i) df.

Definition rows (df : DataFrame A) : list (list (cell A)) :=
  row df <$> seq 0 (nrows df).

(** [detect_duplicates(df)]: [df.duplicated().sum()] and
    [df.columns.duplicated().sum()]. *)
Definition detect_duplicates (df : DataFrame A) : DuplicateReport :=
  {| duplicate_rows := count_true id (duplicated (rows df));
     duplicate_columns := count_true id (duplicated (columns df)) |}.

(** The two methods of [detect_outliers] on one column; [1.5] is
    [3 * 2^-1]. *)
Definition iqr_outliers (xs : list A) : nat :=
  let Q1 := quantile 1 xs in
  let Q3 := quantile 3 xs in
  let IQR := Q3 - Q1 in
  let lower_bound := Q1 - num_lit 3 (-1) * IQR in
  let upper_bound := Q3 + num_lit 3 (-1) * IQR in
  count_true (λ x, (x <? lower_bound) || (x >? upper_bound)) xs.

Definition zscore_outliers (xs : list A) : nat :=
  let mean := series_mean xs in
  let std := series_std xs in
  let z_scores := (λ x, num_abs ((x - mean) / std)) <$> xs in
  count_true (λ z, z >? num_lit 3 0) z_scores.

(** The body of the loop over the numeric columns. *)
Definition outliers_step (df : DataFrame A) (method : string)
    (outliers : gmap string nat) (col : string) : gmap string nat :=
  match get_column df col with
  | Some (Numeric xs) =>
      if decide (method = "iqr") then <[col := iqr_outliers xs]> outliers
      else if decide (method = "zscore") then <[col := zscore_outliers xs]> outliers
      else outliers
  | _ => outliers
  end.

(** [detect_outliers(df, method)]: the dictionary of the counts. *)
Definition detect_outliers (df : DataFrame A) (method : string) : gmap string nat :=
  foldl (outliers_step df method) ∅ (numeric_columns df).

(** What the loop stores under a label, if anything. *)
Definition outliers_entry (df : DataFrame A) (method col : string) : option nat :=
  match get_column df col with
  | Some (Numeric xs) =>
      if decide (method = "iqr") then Some (iqr_outliers xs)
      else if decide (method = "zscore") then Some (zscore_outliers xs)
      else None
  | _ => None
  end.

End SanityChecker.

(** [df[col] = df[col] + c] *)
Definition shift (A : Type) `{!Number A} (c : A) (data : column A) : column A :=
  match data with
  | Numeric xs => Numeric ((λ x, x + c)%num <$> xs)
  | other => other
  end.
Arguments shift {A _} c data.

Definition shift_column {A : Type} `{!Number A} (col : string) (c : A)
    (df : DataFrame A) : DataFrame A :=
  (λ p, (p.1, if decide (p.1 = col) then shift c p.2 else p.2)) <$> df.

(** ** [check_data_consistency] *)

(** [str.lower()] on a label of ASCII characters: [A] to [Z] become [a] to
    [z], every other character stays. *)
Definition lower_char (c : ascii) : ascii :=
  let n := nat_of_ascii c in
  if decide (65 ≤ n ≤ 90)%nat then ascii_of_nat (n + 32) else c.

Fixpoint lower (s : string) : string :=
  match s with
  | EmptyString => EmptyString
  | String c s' => String (lower_char c) (lower s')
  end.

(** [s.startswith(word)], and [word in s]: the word starts at some position
    of [s]. *)
Fixpoint startswith (s word : string) : bool :=
  match word, s with
  | EmptyString, _ => true
  | String a word', String b s' => bool_decide (a = b) && startswith s' word'
  | String _ _, EmptyString => false
  end.

Fixpoint contains (word s : string) : bool :=
  startswith s word
  || match s with
     | EmptyString => false
     | String _ s' => contains word s'
     end.

Definition is_datetime {A} (c : column A) : bool :=
  match c with Datetime _ => true | _ => false end.

(** [df.select_dtypes(include=['datetime']).columns] *)
Definition datetime_columns {A} (df : DataFrame A) : list string :=
  (filter (λ p, is_datetime p.2 = true) df).*1.

(** The labels the first rule looks at. *)
Definition checked_name (col : string) : bool :=
  contains "age" (lower col) || contains "count" (lower col) || contains "price" (lower col).

Definition negative_message (col : string) (negatives : nat) : string :=
  "Negative values in " ++ col ++ ": " ++ pretty negatives ++ " rows".

Definition future_message (col : string) (future_dates : nat) : string :=
  "Future dates in " ++ col ++ ": " ++ pretty future_dates ++ " rows".

(** [t > now]; a missing timestamp is after nothing. *)
Definition is_future (now : Z) (t : option Z) : bool :=
  match t with
  | Some t => (now <? t)%Z
  | None => false
  end.

Section ConsistencyRules.
Context {A : Type} `{!Number A}.
Local Open Scope num_scope.

(** [(df[col] < 0).sum()] *)
Definition negatives (xs : list A) : nat := count_true (λ x, x <? num_lit 0 0) xs.

(** The body of the loop over the numeric columns. *)
Definition negatives_step (df : DataFrame A) (issues : list string) (col : string)
    : list string :=
  if checked_name col then
    match get_column df col with
    | Some (Numeric xs) =>
        if decide (0 < negatives xs)%nat
        then (issues ++ [negative_message col (negatives xs)])%list
        else issues
    | _ => issues
    end
  else issues.

(** The body of the loop over the datetime columns.  Each turn reads the
    clock anew: the loop carries the number of readings made so far, and
    [now k] is reading [k] of [pd.Timestamp.now()], in nanoseconds. *)
Definition future_step (df : DataFrame A) (now : nat → Z) (state : list string * nat)
    (col : string) : list string * nat :=
  let '(issues, reads) := state in
  match get_column df col with
  | Some (Datetime ts) =>
      let future_dates := count_true (is_future (now reads)) ts in
      (if decide (0 < future_dates)%nat
       then (issues ++ [future_message col future_dates])%list
       else issues, S reads)
  | _ => (issues, S reads)
  end.

(** [check_data_consistency(df)] *)
Definition check_data_consistency (df : DataFrame A) (now : nat → Z) : list string :=
  let issues := foldl (negatives_step df) [] (numeric_columns df) in
  (foldl (future_step df now) (issues, 0%nat) (datetime_columns df)).1.

(** What one turn of either loop appends, if anything. *)
Definition negatives_issue (df : DataFrame A) (col : string) : option string :=
  if checked_name col then
    match get_column df col with
    | Some (Numeric xs) =>
        if decide (0 < negatives xs)%nat then Some (negative_message col (negatives xs))
        else None
    | _ => None
    end
  else None.

Definition future_issue (df : DataFrame A) (now : Z) (col : string) : option string :=
  match get_column df col with
  | Some (Datetime ts) =>
      if decide (0 < count_true (is_future now) ts)%nat
      then Some (future_message col (count_true (is_future now) ts))
      else None
  | _ => None
  end.

End ConsistencyRules.

(** ** The calls of the pages

    [run_sanity_checker] offers the methods ["IQR"] and ["Z-Score"] and
    calls [detect_outliers(df, outlier_method.lower())];
    [run_anomaly_detection] reads the contamination from a slider of whole
    percents, [st.slider(..., 1, 20, 10) / 100]. *)
Definition outlier_methods : list string := ["IQR"; "Z-Score"].

Definition outlier_check {A : Type} `{!Number A} `{!Pandas A} (df : DataFrame A)
    (outlier_method : string) : gmap string nat :=
  detect_outliers df (lower outlier_method).

Definition contamination_of_percent {A : Type} `{!Number A} (percent : Z) : A :=
  (num_lit percent 0 / num_lit 100 0)%num.

(** ** Reference kernels *)

(** Two sorting permutations that meet the contract of [argsort], both by
    insertion from the last row to the first: a key placed [before] the
    keys equal to it keeps ties in input order; placed after them, it
    reverses ties. *)
Fixpoint insert_key (before : option Z → option Z → bool) (p : nat * option Z)
    (l : list (nat * option Z)) : list (nat * option Z) :=
  match l with
  | [] => [p]
  | q :: l' => if before p.2 q.2 then p :: l else q :: insert_key before p l'
  end.

Definition sort_keys (before : option Z → option Z → bool) (l : list (nat * option Z))
    : list (nat * option Z) :=
  foldr (insert_key before) [] l.

Definition argsort_by (before : option Z → option Z → bool) (keys : list (option Z)) : list nat :=
  (sort_keys before (imap pair keys)).*1.

Definition key_ltb (a b : option Z) : bool := negb (key_leb b a).

(** The kernels over binary64, as [pandas.core.nanops] computes them: the
    sum divided by the count, and the two-pass variance (squared deviations
    from that mean, over [count - 1]) under a square root; summation runs
    left to right. *)
Module Naive.
Import Float64.

Definition of_nat (n : nat) : float := of_Z2 (Z.of_nat n) 0.

Definition sum (xs : list float) : float :=
  foldl (SFadd prec emax) (S754_zero false) xs.

Definition mean (xs : list float) : float :=
  SFdiv prec emax (sum xs) (of_nat (length xs)).

Definition var (xs : list float) : float :=
  let avg := mean xs in
  let sqr := (λ x, let d := SFsub prec emax avg x in SFmul prec emax d d) <$> xs in
  SFdiv prec emax (sum sqr) (of_nat (length xs - 1)).

Definition std (xs : list float) : float := SFsqrt prec emax (var xs).

(** A number as a count of nanoseconds: the integer part, within the range
    of [datetime64[ns]]. *)
Definition timestamp (x : float) : outcome (option Z) :=
  match x with
  | S754_nan => Returned None
  | S754_zero _ => Returned (Some 0%Z)
  | S754_infinity _ => Raised (LibraryError "OutOfBoundsDatetime" "cannot convert input")
  | S754_finite s m e =>
      let n := Z.shiftl (Z.pos m) e in
      if decide (n < 2 ^ 63)%Z then Returned (Some (if s then (- n)%Z else n))
      else Raised (LibraryError "OutOfBoundsDatetime" "cannot convert input")
  end.

(** Days from 1970-01-01 to a date of the proleptic Gregorian calendar. *)
Definition days_from_civil (y m d : Z) : Z :=
  let y := if (m <=? 2)%Z then (y - 1)%Z else y in
  let era := (y `div` 400)%Z in
  let yoe := (y - era * 400)%Z in
  let mp := ((m + 9) `mod` 12)%Z in
  let doy := ((153 * mp + 2) `div` 5 + d - 1)%Z in
  let doe := (yoe * 365 + yoe `div` 4 - yoe `div` 100 + doy)%Z in
  (era * 146097 + doe - 719468)%Z.

Definition digit (a : ascii) : option Z :=
  let n := Z.of_nat (nat_of_ascii a) in
  if decide (48 ≤ n ≤ 57)%Z then Some (n - 48)%Z else None.

Definition number_of (ds : list ascii) : option Z :=
  foldl (λ acc a, n ← acc; d ← digit a; Some (10 * n + d)%Z) (Some 0%Z) ds.

(** Dates written [YYYY-MM-DD]; any other text is refused. *)
Definition parse (s : string) : outcome (option Z) :=
  let refused := Raised (LibraryError "DateParseError" s) in
  match String.list_ascii_of_string s with
  | [y1; y2; y3; y4; "-"%char; m1; m2; "-"%char; d1; d2] =>
      match number_of [y1; y2; y3; y4], number_of [m1; m2], number_of [d1; d2] with
      | Some y, Some m, Some d =>
          if decide (1 ≤ m ≤ 12 ∧ 1 ≤ d ≤ 31)%Z
          then Returned (Some (days_from_civil y m d * 86400000000000)%Z)
          else refused
      | _, _, _ => refused
      end
  | _ => refused
  end.

(** [format(x, ".2f")]: the nearest multiple of 1/100, ties to even. *)
Definition hundredths (m : positive) (e : Z) : Z :=
  let num := (Z.pos m * 100)%Z in
  match e with
  | Z.neg p =>
      let den := (2 ^ Z.pos p)%Z in
      let q := (num `div` den)%Z in
      let r := (num `mod` den)%Z in
      if decide (den < 2 * r ∨ (den = 2 * r ∧ Z.odd q = true))%Z then (q + 1)%Z else q
  | _ => (num * 2 ^ e)%Z
  end.

Definition two_digits (n : Z) : string :=
  if decide (n < 10)%Z then "0" ++ pretty n else pretty n.

Definition fixed2 (x : float) : string :=
  match x with
  | S754_nan => "nan"
  | S754_infinity s => if s then "-inf" else "inf"
  | S754_zero s => if s then "-0.00" else "0.00"
  | S754_finite s m e =>
      let n := hundredths m e in
      (if s then "-" else "") ++ pretty (n `div` 100)%Z ++ "." ++ two_digits (n `mod` 100)%Z
  end.

(** Ties in input order. *)
Definition pandas : Pandas float := {|
  mean_kernel := mean;
  std_kernel := std;
  rolling_mean_kernel := mean;
  rolling_std_kernel := std;
  parse_datetime := parse;
  timestamp_of_number := timestamp;
  format_2f := fixed2;
  argsort := argsort_by key_leb
|}.

(** Ties in reverse input order: as good a [quicksort] by its contract. *)
Definition pandas_reversing_ties : Pandas float := {|
  mean_kernel := mean;
  std_kernel := std;
  rolling_mean_kernel := mean;
  rolling_std_kernel := std;
  parse_datetime := parse;
  timestamp_of_number := timestamp;
  format_2f := fixed2;
  argsort := argsort_by key_ltb
|}.

End Naive.

(** [numpy.argsort(kind='quicksort')] on timestamps, after
    [npysort/quicksort.cpp]: ranges of more than 16 positions are
    partitioned around the median of three, shorter ones are sorted by
    insertion.  Past the depth limit numpy finishes a range by heapsort;
    here insertion sort finishes it.  [nargsort] is the wrapper of pandas:
    missing timestamps are set aside and put last. *)
Module Numpy.
Local Open Scope nat_scope.

Definition SMALL_QUICKSORT : nat := 16.

(** [npy::datetime_tag::less]: NaT is above every timestamp. *)
Definition less (a b : option Z) : bool :=
  match a, b with
  | None, _ => false
  | Some _, None => true
  | Some x, Some y => (x <? y)%Z
  end.

Section Aquicksort.
Variable v : list (option Z).

(** [v[tosort[p]]] *)
Definition at_ (tosort : list nat) (p : nat) : option Z :=
  i ← tosort !! p; mjoin (v !! i).

(** [INTP_SWAP(tosort[p], tosort[q])] *)
Definition swap (tosort : list nat) (p q : nat) : list nat :=
  match tosort !! p, tosort !! q with
  | Some a, Some b => <[p := b]> (<[q := a]> tosort)
  | _, _ => tosort
  end.

(** [do ++pi; while (less(v[*pi], vp))], entered with [pi] already stepped *)
Fixpoint scan_up (fuel : nat) (tosort : list nat) (vp : option Z) (pi : nat) : nat :=
  match fuel with
  | 0 => pi
  | S fuel => if less (at_ tosort pi) vp then scan_up fuel tosort vp (S pi) else pi
  end.

(** [do --pj; while (less(vp, v[*pj]))], entered with [pj] already stepped *)
Fixpoint scan_down (fuel : nat) (tosort : list nat) (vp : option Z) (pj : nat) : nat :=
  match fuel with
  | 0 => pj
  | S fuel => if less vp (at_ tosort pj) then scan_down fuel tosort vp (pred pj) else pj
  end.

Fixpoint partition (fuel : nat) (tosort : list nat) (vp : option Z) (pi pj : nat)
    : list nat * nat :=
  match fuel with
  | 0 => (tosort, pi)
  | S fuel =>
      let pi := scan_up (length tosort) tosort vp (S pi) in
      let pj := scan_down (length tosort) tosort vp (pred pj) in
      if decide (pj ≤ pi) then (tosort, pi)
      else partition fuel (swap tosort pi pj) vp pi pj
  end.

(** The inner loop of the insertion sort: [while (pj > pl && less(vp, v[*pk]))
    *pj-- = *pk--;] and then [*pj = vi]. *)
Fixpoint shift_down (fuel : nat) (tosort : list nat) (pl pj vi : nat) (vp : option Z)
    : list nat :=
  match fuel with
  | 0 => <[pj := vi]> tosort
  | S fuel =>
      if decide (pl < pj) then
        if less vp (at_ tosort (pred pj)) then
          match tosort !! pred pj with
          | Some k => shift_down fuel (<[pj := k]> tosort) pl (pred pj) vi vp
          | None => <[pj := vi]> tosort
          end
        else <[pj := vi]> tosort
      else <[pj := vi]> tosort
  end.

Definition insertion_sort (tosort : list nat) (pl pr : nat) : list nat :=
  foldl (λ t pi,
           match t !! pi with
           | Some vi => shift_down (length t) t pl pi vi (mjoin (v !! vi))
           | None => t
           end)
    tosort (seq (S pl) (pr - pl)).

Fixpoint sort_range (depth : nat) (tosort : list nat) (pl pr : nat) : list nat :=
  match depth with
  | 0 => insertion_sort tosort pl pr
  | S depth =>
      if decide (SMALL_QUICKSORT < pr - pl) then
        let pm := pl + (pr - pl) / 2 in
        let t := tosort in
        let t := if less (at_ t pm) (at_ t pl) then swap t pm pl else t in
        let t := if less (at_ t pr) (at_ t pm) then swap t pr pm else t in
        let t := if less (at_ t pm) (at_ t pl) then swap t pm pl else t in
        let vp := at_ t pm in
        let t := swap t pm (pr - 1) in
        let '(t, pi) := partition (length t) t vp pl (pr - 1) in
        let t := swap t pi (pr - 1) in
        let t := sort_range depth t pl (pi - 1) in
        sort_range depth t (pi + 1) pr
      else insertion_sort tosort pl pr
  end.

End Aquicksort.

Definition aquicksort (v : list (option Z)) : list nat :=
  let n := length v in
  sort_range v (2 * Nat.log2 n + 1) (seq 0 n) 0 (n - 1).

Definition nargsort (keys : list (option Z)) : list nat :=
  let positions := seq 0 (length keys) in
  let non_nan_idx := filter (λ i, is_Some (mjoin (keys !! i))) positions in
  let nan_idx := filter (λ i, ¬ is_Some (mjoin (keys !! i))) positions in
  let non_nans := omap (λ i, keys !! i) non_nan_idx in
  (omap (λ p, non_nan_idx !! p) (aquicksort non_nans) ++ nan_idx)%list.

Definition pandas : Pandas spec_float := {|
  mean_kernel := Naive.mean;
  std_kernel := Naive.std;
  rolling_mean_kernel := Naive.mean;
  rolling_std_kernel := Naive.std;
  parse_datetime := Naive.parse;
  timestamp_of_number := Naive.timestamp;
  format_2f := Naive.fixed2;
  argsort := nargsort
|}.

End Numpy.

(** ** What the quicksort establishes

    The notions in which [Numpy.nargsort] is shown to meet the contract of
    [argsort]: the key of a row; the insertion that the inner loop of the
    insertion sort performs, on the sorted part read from the right; the
    positions that a sort of the range from [pl] to [pr] may change; and
    the order it leaves in the range. *)
Section SortedRanges.
Variable v : list (option Z).

Definition key_of (k : nat) : option Z := mjoin (v !! k).

Fixpoint insert_back (vi : nat) (vp : option Z) (l : list nat) : list nat :=
  match l with
  | [] => [vi]
  | k :: l' => if Numpy.less vp (mjoin (v !! k)) then k :: insert_back vi vp l' else vi :: l
  end.

Definition insert_all (M W : list nat) : list nat :=
  foldl (λ acc x, insert_back x (key_of x) acc) M W.

(** Descending in the keys. *)
Definition key_ge (a b : nat) : Prop := key_le (key_of b) (key_of a).

Definition within (pl pr : nat) (t t' : list nat) : Prop :=
  t' ≡ₚ t ∧ ∀ p, (p < pl ∨ pr < p)%nat → t' !! p = t !! p.

Definition sorted_range (t : list nat) (pl pr : nat) : Prop :=
  ∀ p, (pl ≤ p)%nat → (p < pr)%nat → Numpy.less (Numpy.at_ v t (S p)) (Numpy.at_ v t p) = false.

End SortedRanges.

Definition key_at (keys : list (option Z)) (i : nat) : option Z := default None (keys !! i).

(** A stand-in for scikit-learn that accepts every call: it hands out
    fresh objects, returns the data as it came, labels every row normal
    with score zero, and keeps the names of the calls it served. *)
Module Double.

Definition state : Type := nat * list string.

Definition fresh (name : string) (s : state) : outcome object * state :=
  (Returned (Object s.1), (S s.1, (s.2 ++ [name])%list)).

Definition served {T} (name : string) (t : T) (s : state) : outcome T * state :=
  (Returned t, (s.1, (s.2 ++ [name])%list)).

Definition library {A} `{!Number A} : handler (sklearn A) state :=
  λ T c,
    match c in sklearn _ T return state → outcome T * state with
    | StandardScaler => fresh "StandardScaler"
    | fit_transform _ X => served "fit_transform" X
    | IsolationForest _ _ _ => fresh "IsolationForest"
    | OneClassSVM _ _ => fresh "OneClassSVM"
    | LocalOutlierFactor _ _ => fresh "LocalOutlierFactor"
    | predict _ X => served "predict" ((λ _, 1%Z) <$> X)
    | decision_function _ X => served "decision_function" ((λ _, num_lit 0 0) <$> X)
    | fit_predict _ X => served "fit_predict" ((λ _, 1%Z) <$> X)
    | negative_outlier_factor_ _ => served "negative_outlier_factor_" []
    end.

Definition start : state := (0, []).

End Double.

(** A stand-in for scikit-learn that keeps, for every object it has handed
    out, the number of rows it was fitted on, if it was fitted: as the
    library does, it refuses to predict with an estimator that was never
    fitted. *)
Module Strict.

Abbreviation state := (list (option nat)).

Definition NotFittedError : exn :=
  LibraryError "NotFittedError" "This instance is not fitted yet".

Definition create (s : state) : outcome object * state :=
  (Returned (Object (length s)), (s ++ [None])%list).

Definition fit {T} (o : object) (n : nat) (t : T) (s : state) : outcome T * state :=
  match o with Object i => (Returned t, <[i := Some n]> s) end.

Definition fitted {T} (o : object) (t : nat → T) (s : state) : outcome T * state :=
  match o with
  | Object i =>
      match s !! i with
      | Some (Some n) => (Returned (t n), s)
      | _ => (Raised NotFittedError, s)
      end
  end.

Definition library {A} `{!Number A} : handler (sklearn A) state :=
  λ T c,
    match c in sklearn _ T return state → outcome T * state with
    | StandardScaler => create
    | fit_transform scaler X => fit scaler (length X) X
    | IsolationForest _ _ _ => create
    | OneClassSVM _ _ => create
    | LocalOutlierFactor _ _ => create
    | predict model X => fitted model (λ _, (λ _, 1%Z) <$> X)
    | decision_function model X => fitted model (λ _, (λ _, num_lit 0 0) <$> X)
    | fit_predict model X => fit model (length X) ((λ _, 1%Z) <$> X)
    | negative_outlier_factor_ model => fitted model (λ n, replicate n (num_lit (-1) 0))
    end.

Definition start : state := [].

End Strict.

(** A library refuses to predict with an estimator as its constructor
    returned it. *)
Definition refuses_unfitted {A S} (h : handler (sklearn A) S) : Prop :=
  ∀ (s : S) (model : object) (s' : S) (X : list (list A)),
    (∃ contamination random_state kw,
       h _ (IsolationForest contamination random_state kw) s = (Returned model, s'))
    ∨ (∃ nu kw, h _ (OneClassSVM nu kw) s = (Returned model, s')) →
    ∃ e s'', h _ (predict model X) s' = (Raised e, s'').

(** ** The exact statistics

    The mean and the sample variance ([ddof=1]) of a column over the
    rationals, and kernels over them: the standard deviation is the root of
    the variance where the variance has a rational root, and otherwise the
    root from below to six decimal places over the denominator of the
    variance in lowest terms. *)
Definition Qsum (xs : list Q) : Q := foldr Qplus 0%Q xs.

Definition Qsq (xs : list Q) : Q := Qsum ((λ x, x * x)%Q <$> xs).

Definition Qmean (xs : list Q) : Q :=
  (Qsum xs / inject_Z (Z.of_nat (length xs)))%Q.

Definition Qvar (xs : list Q) : Q :=
  (Qsq ((λ x, x - Qmean xs) <$> xs) / inject_Z (Z.of_nat (length xs) - 1))%Q.

Definition Qroot (q : Q) : Q :=
  let r := Qred q in
  (inject_Z (Z.sqrt (Qnum r * Z.pos (Qden r) * 10 ^ 12))
   / inject_Z (Z.pos (Qden r) * 10 ^ 6))%Q.

(** [format(x, ".2f")]: the nearest multiple of 1/100, ties to even. *)
Definition Qfixed2 (x : Q) : string :=
  let num := (Z.abs (Qnum x) * 100)%Z in
  let den := Z.pos (Qden x) in
  let q := (num `div` den)%Z in
  let r := (num `mod` den)%Z in
  let n := if decide (den < 2 * r ∨ (den = 2 * r ∧ Z.odd q = true))%Z then (q + 1)%Z else q in
  (if decide (Qnum x < 0)%Z then "-" else EmptyString)
  ++ pretty (n `div` 100)%Z ++ "." ++ Naive.two_digits (n `mod` 100)%Z.

Definition exact_pandas : Pandas Q := {|
  mean_kernel := Qmean;
  std_kernel := λ xs, Qroot (Qvar xs);
  rolling_mean_kernel := Qmean;
  rolling_std_kernel := λ xs, Qroot (Qvar xs);
  parse_datetime := Naive.parse;
  timestamp_of_number := λ x, Returned (Some (Qnum x `div` Z.pos (Qden x))%Z);
  format_2f := Qfixed2;
  argsort := argsort_by key_leb
|}.

(** ** A probe for the comparisons on undefined values

    Binary64 with a comparison that answers true, not false, where an
    operand is NaN.  No code runs on it; a function whose result differs
    between this comparison and that of binary64 has compared a NaN. *)
Definition nan_above : Number Float64.float := {|
  num_add := SFadd Float64.prec Float64.emax;
  num_sub := SFsub Float64.prec Float64.emax;
  num_mul := SFmul Float64.prec Float64.emax;
  num_div := SFdiv Float64.prec Float64.emax;
  num_abs := SFabs;
  num_ltb := λ x y, Float64.is_nan x || Float64.is_nan y || SFltb x y;
  num_isnan := Float64.is_nan;
  num_nan := S754_nan;
  num_lit := Float64.of_Z2;
  num_key := Float64.key;
  num_eq_dec := Float64.float_eq_dec
|}.

(** ** Example frames *)

Import Float64.
Definition f64 (n : Z) : float := of_Z2 n 0.

Definition three_days : DataFrame float :=
  [("date", Datetime [Some 0%Z; Some 86400000000000%Z; Some 172800000000000%Z]);
   ("value", Numeric [f64 1; f64 2; f64 3])].


(** Three daily readings entered latest first but for the last. *)
Definition late_entries : DataFrame float :=
  [("date", Datetime [Some 172800000000000%Z; Some 0%Z; Some 86400000000000%Z]);
   ("value", Numeric [f64 3; f64 1; f64 2])].


Definition same_instant : DataFrame float :=
  [("date", Datetime [Some 0%Z; Some 0%Z]);
   ("value", Numeric [f64 1; f64 2])].

(** A column of three equal values, small enough for the square of one unit
    in the last place to underflow. *)
Definition tiny : float := of_Z2 (2 ^ 53 - 2) (-652).

Definition tiny_constant : DataFrame float := [("x", Numeric [tiny; tiny; tiny])].

(** The example of the specification, and of the test of the repository. *)
Definition people : DataFrame float :=
  [("name", Text ["Alice"; "Bob"; "Alice"; "Charlie"]);
   ("age", Numeric [f64 25; f64 30; f64 25; f64 35])].

Definition text_only : DataFrame float := [("text", Text ["a"; "b"; "c"])].

Definition one_to_hundred : DataFrame float :=
  [("value", Numeric [f64 1; f64 2; f64 3; f64 4; f64 5; f64 100])].

Definition evens : DataFrame float :=
  [("value", Numeric [f64 0; f64 2; f64 4; f64 14])].


Definition one_half : float := of_Z2 1 (-1).

Definition all_normal : AnomalyResult float :=
  {| predictions := [1; 1; 1; 1; 1; 1]%Z;
     anomalies := [false; false; false; false; false; false];
     scores := [f64 0; f64 0; f64 0; f64 0; f64 0; f64 0];
     model := Object 1;
     scaler := Object 0;
     numeric_cols := ["value"] |}.

(** The frame of the repository's test of the consistency rules. *)
Definition patients : DataFrame float :=
  [("age", Numeric [f64 25; f64 (-5); f64 30; f64 35]);
   ("price", Numeric [f64 100; f64 200; f64 (-50); f64 150])].

(** A label that holds the word [age] without naming an age, and a column
    of timestamps, one missing and one after the clock's reading of 10. *)
Definition survey : DataFrame float :=
  [("answered", Datetime [Some 5%Z; None; Some 20%Z]);
   ("Percentage", Numeric [f64 10; f64 (-3)]);
   ("balance", Numeric [f64 (-1); f64 (-2)])].

(** Readings with two gaps. *)
Definition gaps : DataFrame float :=
  [("value", Numeric [f64 1; S754_nan; f64 2; f64 3; f64 4; f64 5; S754_nan; f64 100])].

(** A value column that carries the label the function uses for its own
    rolling mean. *)
Definition relabelled : DataFrame float :=
  [("date", Datetime [Some 0%Z; Some 86400000000000%Z; Some 172800000000000%Z]);
   ("rolling_mean", Numeric [f64 1; f64 2; f64 30])].

(** Five rows labelled anomalous and one labelled normal. *)
Definition one_normal : AnomalyResult float :=
  {| predictions := [-1; -1; -1; -1; -1; 1]%Z;
     anomalies := [true; true; true; true; true; false];
     scores := [f64 0; f64 0; f64 0; f64 0; f64 0; f64 0];
     model := Object 1;
     scaler := Object 0;
     numeric_cols := ["value"] |}.

(** The last row labelled anomalous. *)
Definition hundred_flagged : AnomalyResult float :=
  {| predictions := [1; 1; 1; 1; 1; -1]%Z;
     anomalies := [false; false; false; false; false; true];
     scores := [f64 0; f64 0; f64 0; f64 0; f64 0; f64 0];
     model := Object 1;
     scaler := Object 0;
     numeric_cols := ["value"] |}.

(** Daily readings, the second one missing. *)
Definition four_days : DataFrame float :=
  [("date", Datetime [Some 0%Z; Some 86400000000000%Z; Some 172800000000000%Z;
                      Some 259200000000000%Z]);
   ("value", Numeric [f64 1; S754_nan; f64 300; f64 4])].

Definition lonely : DataFrame float := [("x", Numeric [S754_nan; f64 1000; S754_nan])].

(** The column of the repository's test of the z-score method, over the
    rationals: the mean is 65/6, the variance 2221/6, which has no rational
    root. *)
Definition one_to_fifty : DataFrame Q := [("value", Numeric [1; 2; 3; 4; 5; 50]%Q)].

(** What the comparisons of the code cannot tell from [v]: [v] itself, a
    zero of either sign beside a zero, and NaN, which is below nothing and
    above nothing. *)
Definition indistinct (v q : float) : Prop :=
  q = S754_nan ∨ q = v ∨ (is_zero q = true ∧ is_zero v = true).

Definition zero_or_nan (z : float) : Prop := z = S754_nan ∨ is_zero z = true.

(** * Properties *)

(** ** The reference sorts meet the contract of [argsort] *)
Section Argsort.
Variable before : option Z → option Z → bool.
Hypothesis before_le : ∀ a b, before a b = true → key_le a b.
Hypothesis not_before_le : ∀ a b, before a b = false → key_le b a.

Lemma insert_key_perm p l : insert_key before p l ≡ₚ p :: l.
Proof.
  induction l as [|q l IH]; simpl; [done|].
  destruct (before p.2 q.2); [done|].
  rewrite IH. apply Permutation_swap.
Qed.

Lemma sort_keys_perm l : sort_keys before l ≡ₚ l.
Proof.
  induction l as [|p l IH]; simpl; [done|].
  by rewrite insert_key_perm, IH.
Qed.

Lemma insert_key_sorted p l :
  Sorted (λ x y, key_le x.2 y.2) l → Sorted (λ x y, key_le x.2 y.2) (insert_key before p l).
Proof.
  induction l as [|q l IH]; simpl; intros Hs.
  - by repeat constructor.
  - destruct (before p.2 q.2) eqn:Hb.
    + constructor; [done|]. constructor. by apply before_le.
    + apply Sorted_inv in Hs as [Hs Hq]. constructor; [by apply IH|].
      destruct l as [|r l]; simpl.
      * constructor. by apply not_before_le.
      * destruct (before p.2 r.2); constructor.
        -- by apply not_before_le.
        -- by apply HdRel_inv in Hq.
Qed.

Lemma sort_keys_sorted l : Sorted (λ x y, key_le x.2 y.2) (sort_keys before l).
Proof.
  induction l as [|p l IH]; simpl; [constructor|]. by apply insert_key_sorted.
Qed.

Lemma imap_pair_fst {T} (l : list T) (n : nat) :
  (imap (λ i x, (n + i, x)) l).*1 = seq n (length l).
Proof.
  revert n. induction l as [|x l IH]; intros n; simpl; [done|].
  f_equal; [lia|]. rewrite <- (IH (S n)). f_equal.
  apply imap_ext. intros i y _. simpl. f_equal. lia.
Qed.

Lemma argsort_by_perm keys : argsort_by before keys ≡ₚ seq 0 (length keys).
Proof.
  unfold argsort_by. rewrite sort_keys_perm.
  by rewrite <- (imap_pair_fst keys 0).
Qed.

Lemma take_rows_indexed {T} (keys : list T) (l : list (nat * T)) :
  Forall (λ p, keys !! p.1 = Some p.2) l → take_rows l.*1 keys = l.*2.
Proof.
  induction 1 as [|p l Hp _ IH]; simpl; [done|].
  unfold take_rows in *. simpl. rewrite Hp. simpl. by f_equal.
Qed.

Lemma imap_pair_lookup {T} (keys : list T) :
  Forall (λ p, keys !! p.1 = Some p.2) (imap pair keys).
Proof.
  apply Forall_forall. intros [i x] Hin.
  apply list_elem_of_lookup in Hin as [j Hj].
  rewrite list_lookup_imap in Hj.
  destruct (keys !! j) eqn:E; simpl in Hj; [|done].
  by inversion Hj; subst.
Qed.

Lemma argsort_by_rows keys :
  take_rows (argsort_by before keys) keys = (sort_keys before (imap pair keys)).*2.
Proof.
  apply take_rows_indexed. rewrite sort_keys_perm. apply imap_pair_lookup.
Qed.

Lemma argsort_by_sorted keys : Sorted key_le (take_rows (argsort_by before keys) keys).
Proof.
  rewrite argsort_by_rows.
  apply (Sorted_fmap snd (λ x y, key_le x.2 y.2) key_le); [done|].
  apply sort_keys_sorted.
Qed.

End Argsort.

Lemma key_leb_le a b : key_leb a b = true → key_le a b.
Proof. destruct a, b; simpl; try done. lia. Qed.

Lemma key_leb_total a b : key_leb a b = false → key_le b a.
Proof. destruct a, b; simpl; try done. lia. Qed.

Lemma key_ltb_le a b : key_ltb a b = true → key_le a b.
Proof. unfold key_ltb. destruct a, b; simpl; try done. lia. Qed.

Lemma key_ltb_total a b : key_ltb a b = false → key_le b a.
Proof. unfold key_ltb. destruct a, b; simpl; try done. lia. Qed.

Lemma pandas_contract : ArgsortContract Naive.pandas.
Proof.
  split.
  - apply argsort_by_perm.
  - apply argsort_by_sorted; [apply key_leb_le|apply key_leb_total].
Qed.

Lemma pandas_reversing_ties_contract : ArgsortContract Naive.pandas_reversing_ties.
Proof.
  split.
  - apply argsort_by_perm.
  - apply argsort_by_sorted; [apply key_ltb_le|apply key_ltb_total].
Qed.

(** ** The quicksort of numpy meets the contract

    [Numpy.nargsort] returns a permutation of the positions that puts the
    timestamps in ascending order, missing ones last.  The insertion sort
    is read as an insertion into a list; the partition loop keeps the keys
    up to [pi] not above the pivot and those from [pj] on not below it,
    with the first and the last position of the range as sentinels of the
    two scans; a range is sorted by induction on the depth. *)
Section NumpySort.
Import Numpy.
Local Open Scope nat_scope.
Local Open Scope list_scope.
Variable v : list (option Z).

(** [less] is the strict order of [key_le]. *)
Lemma less_key_le (a b : option Z) : less b a = false ↔ key_le a b.
Proof.
  destruct a as [x|], b as [y|]; simpl; try done.
  by rewrite Z.ltb_ge.
Qed.

Lemma less_asym (a b : option Z) : less a b = true → less b a = false.
Proof. destruct a as [x|], b as [y|]; simpl; try done. rewrite Z.ltb_lt, Z.ltb_ge. lia. Qed.

Lemma less_irrefl (a : option Z) : less a a = false.
Proof. destruct a as [x|]; simpl; [apply Z.ltb_irrefl|done]. Qed.

Lemma at_lookup (t : list nat) (p k : nat) : t !! p = Some k → at_ v t p = mjoin (v !! k).
Proof. unfold at_. by intros ->. Qed.

(** The inner loop of the insertion sort, entered at the position after
    the sorted part [M], with the rows it has moved so far in [U], inserts
    [vi] into [M]. *)
Lemma shift_down_insert (M : list nat) :
  ∀ (fuel : nat) (L U R : list nat) (g vi : nat) (vp : option Z),
  length M ≤ fuel →
  shift_down v fuel (L ++ M ++ g :: U ++ R) (length L) (length L + length M) vi vp
  = L ++ reverse (insert_back v vi vp (reverse M)) ++ U ++ R.
Proof.
  induction M as [|k M IH] using rev_ind; intros fuel L U R g vi vp Hfuel.
  - simpl. rewrite Nat.add_0_r.
    assert (<[length L := vi]> (L ++ g :: U ++ R) = L ++ vi :: U ++ R) as Hins.
    { rewrite insert_app_r_alt by lia. by rewrite Nat.sub_diag. }
    destruct fuel as [|fuel]; simpl; [done|].
    rewrite decide_False by lia. done.
  - rewrite length_app in *. simpl in *. rewrite reverse_snoc. simpl.
    destruct fuel as [|fuel]; [lia|]. simpl.
    rewrite decide_True by lia.
    replace (pred (length L + (length M + 1))) with (length L + length M) by lia.
    assert ((L ++ (M ++ [k]) ++ g :: U ++ R) !! (length L + length M) = Some k) as Hk.
    { rewrite lookup_app_r by lia. rewrite <- app_assoc. rewrite lookup_app_r by lia.
      replace (length L + length M - length L - length M) with 0 by lia. done. }
    rewrite (at_lookup _ _ _ Hk), Hk.
    destruct (less vp (mjoin (v !! k))) eqn:Hless.
    + assert (<[length L + (length M + 1) := k]> (L ++ (M ++ [k]) ++ g :: U ++ R)
              = L ++ M ++ k :: (k :: U) ++ R) as ->.
      { rewrite insert_app_r_alt by lia. f_equal. rewrite <- app_assoc.
        rewrite insert_app_r_alt by lia. f_equal. simpl.
        replace (length L + (length M + 1) - length L - length M) with 1 by lia. done. }
      rewrite IH by lia. rewrite reverse_cons. by rewrite <- !app_assoc.
    + rewrite insert_app_r_alt by lia. f_equal.
      rewrite !reverse_cons, reverse_involutive. rewrite <- !app_assoc.
      rewrite insert_app_r_alt by lia. f_equal. simpl.
      replace (length L + (length M + 1) - length L - length M) with 1 by lia. done.
Qed.

Lemma length_insert_back (vi : nat) (vp : option Z) (l : list nat) :
  length (insert_back v vi vp l) = S (length l).
Proof. induction l as [|k l IH]; simpl; [done|]. destruct (less _ _); simpl; by rewrite ?IH. Qed.

Lemma insert_back_perm (vi : nat) (vp : option Z) (l : list nat) :
  insert_back v vi vp l ≡ₚ vi :: l.
Proof.
  induction l as [|k l IH]; simpl; [done|]. destruct (less _ _); [|done].
  rewrite IH. apply Permutation_swap.
Qed.

Lemma insert_all_perm (M W : list nat) : insert_all v M W ≡ₚ M ++ W.
Proof.
  unfold insert_all. revert M. induction W as [|x W IH]; intros M; simpl.
  - by rewrite app_nil_r.
  - rewrite IH, insert_back_perm. simpl. apply Permutation_middle.
Qed.

Lemma insert_back_sorted (vi : nat) (l : list nat) :
  Sorted (key_ge v) l → Sorted (key_ge v) (insert_back v vi (key_of v vi) l).
Proof.
  induction 1 as [|k l Hl IH Hhd]; simpl; [by repeat constructor|].
  destruct (less (key_of v vi) (mjoin (v !! k))) eqn:Hless.
  - constructor; [done|].
    destruct Hhd as [|k' l' Hk']; simpl.
    + constructor. apply less_key_le, less_asym, Hless.
    + destruct (less (key_of v vi) (mjoin (v !! k'))); constructor; [done|].
      apply less_key_le, less_asym, Hless.
  - constructor; [by constructor|]. constructor. by apply less_key_le.
Qed.

Lemma insert_all_sorted (M W : list nat) :
  Sorted (key_ge v) M → Sorted (key_ge v) (insert_all v M W).
Proof.
  unfold insert_all. revert M. induction W as [|x W IH]; intros M HM; simpl; [done|].
  apply IH, insert_back_sorted, HM.
Qed.

(** The outer loop inserts the rows of [W] one by one. *)
Lemma insertion_sort_steps (W : list nat) : ∀ (M L R : list nat),
  foldl (λ t pi,
           match t !! pi with
           | Some vi => shift_down v (length t) t (length L) pi vi (mjoin (v !! vi))
           | None => t
           end)
    (L ++ M ++ W ++ R) (seq (length L + length M) (length W))
  = L ++ reverse (insert_all v (reverse M) W) ++ R.
Proof.
  induction W as [|x W IH]; intros M L R; simpl.
  - by rewrite reverse_involutive.
  - assert ((L ++ M ++ x :: W ++ R) !! (length L + length M) = Some x) as ->.
    { rewrite lookup_app_r by lia. rewrite lookup_app_r by lia.
      replace (length L + length M - length L - length M) with 0 by lia. done. }
    rewrite (shift_down_insert M _ L W R x x) by (rewrite !length_app; lia).
    specialize (IH (reverse (insert_back v x (mjoin (v !! x)) (reverse M))) L R).
    rewrite length_reverse, length_insert_back, length_reverse in IH.
    replace (length L + S (length M)) with (S (length L + length M)) in IH by lia.
    rewrite IH. by rewrite reverse_involutive.
Qed.


Lemma Sorted_lookup {T} (R : relation T) (l : list T) (i : nat) (a b : T) :
  Sorted R l → l !! i = Some a → l !! S i = Some b → R a b.
Proof.
  intros Hl. revert i. induction Hl as [|x l Hl IH Hhd]; intros i; [done|].
  destruct i as [|i]; simpl.
  - intros [= ->] Hb. destruct Hhd as [|y l' Hy]; simpl in *; [done|]. by injection Hb as ->.
  - apply IH.
Qed.

Lemma range_split (t : list nat) (pl pr : nat) :
  pl ≤ pr → pr < length t →
  ∃ a, t = take pl t ++ [a] ++ take (pr - pl) (drop (S pl) t) ++ drop (S pr) t.
Proof.
  intros Hle Hlt. destruct (lookup_lt_is_Some_2 t pl ltac:(lia)) as [a Ha].
  exists a. rewrite <- (take_drop_middle t pl a Ha) at 1. f_equal. simpl. f_equal.
  rewrite <- (take_drop (pr - pl) (drop (S pl) t)) at 1. f_equal.
  rewrite drop_drop. f_equal. lia.
Qed.

(** The insertion sort sorts its range and touches nothing outside it. *)
Lemma insertion_sort_spec (t : list nat) (pl pr : nat) :
  pl ≤ pr → pr < length t →
  within pl pr t (insertion_sort v t pl pr) ∧ sorted_range v (insertion_sort v t pl pr) pl pr.
Proof.
  intros Hle Hlt. destruct (range_split t pl pr Hle Hlt) as [a Ht].
  set (L := take pl t) in *. set (W := take (pr - pl) (drop (S pl) t)) in *.
  set (R := drop (S pr) t) in *.
  assert (length L = pl) as HL by (unfold L; rewrite length_take; lia).
  assert (length W = pr - pl) as HW by (unfold W; rewrite length_take, length_drop; lia).
  unfold insertion_sort. rewrite Ht.
  pose proof (insertion_sort_steps W [a] L R) as Hsteps.
  rewrite HL, HW in Hsteps. simpl in Hsteps.
  replace (pl + 1) with (S pl) in Hsteps by lia. simpl. rewrite Hsteps.
  set (N := reverse (insert_all v (reverse [a]) W)).
  assert (N ≡ₚ a :: W) as HN by (unfold N; by rewrite reverse_Permutation, insert_all_perm).
  assert (length N = S (pr - pl)) as HlenN by (by rewrite HN; simpl; rewrite HW).
  assert (Sorted (flip (key_ge v)) N) as Hsorted.
  { apply Sorted_reverse, insert_all_sorted. by repeat constructor. }
  split; [split|].
  - by rewrite HN.
  - intros p [Hp|Hp].
    + by rewrite !lookup_app_l by lia.
    + rewrite (lookup_app_r L), (lookup_app_r N) by lia.
      rewrite (lookup_app_r L) by lia.
      change (a :: W ++ R) with ((a :: W) ++ R).
      rewrite (lookup_app_r (a :: W)) by (simpl; lia).
      f_equal. simpl. lia.
  - intros p Hp1 Hp2.
    assert (∀ q, pl ≤ q → q ≤ pr → (L ++ N ++ R) !! q = N !! (q - pl)) as Hmid.
    { intros q Hq1 Hq2. rewrite lookup_app_r by lia. rewrite lookup_app_l by lia.
      by rewrite HL. }
    destruct (lookup_lt_is_Some_2 N (p - pl) ltac:(lia)) as [x Hx].
    destruct (lookup_lt_is_Some_2 N (S p - pl) ltac:(lia)) as [y Hy].
    unfold at_. rewrite !Hmid by lia. rewrite Hx, Hy. simpl.
    apply less_key_le. replace (S p - pl) with (S (p - pl)) in Hy by lia.
    apply (Sorted_lookup _ _ _ _ _ Hsorted Hx Hy).
Qed.


Lemma within_refl (pl pr : nat) (t : list nat) : within pl pr t t.
Proof. by split. Qed.

Lemma within_trans (pl pr : nat) (t t' t'' : list nat) :
  within pl pr t t' → within pl pr t' t'' → within pl pr t t''.
Proof.
  intros [Hp1 Ho1] [Hp2 Ho2]. split; [by rewrite Hp2|].
  intros p Hp. by rewrite Ho2, Ho1.
Qed.

Lemma within_mono (pl pr pl' pr' : nat) (t t' : list nat) :
  pl' ≤ pl → pr ≤ pr' → within pl pr t t' → within pl' pr' t t'.
Proof. intros Hl Hr [Hp Ho]. split; [done|]. intros p Hp'. apply Ho. lia. Qed.

Lemma within_length (pl pr : nat) (t t' : list nat) :
  within pl pr t t' → length t' = length t.
Proof. intros [Hp _]. by rewrite Hp. Qed.

Lemma within_at (pl pr : nat) (t t' : list nat) (p : nat) :
  within pl pr t t' → p < pl ∨ pr < p → at_ v t' p = at_ v t p.
Proof. intros [_ Ho] Hp. unfold at_. by rewrite Ho. Qed.

(** What holds of every position of the range still does after a sort of
    the range. *)
Lemma within_Forall (pl pr : nat) (t t' : list nat) (Q : nat → Prop) :
  within pl pr t t' →
  (∀ p x, pl ≤ p → p ≤ pr → t !! p = Some x → Q x) →
  ∀ p x, pl ≤ p → p ≤ pr → t' !! p = Some x → Q x.
Proof.
  intros [Hperm Hout] HQ p x Hp1 Hp2 Hx.
  assert (length t' = length t) as Hlen by (by rewrite Hperm).
  assert (take pl t' = take pl t) as Htake.
  { apply list_eq. intros i. destruct (decide (i < pl)).
    - rewrite !lookup_take_lt by done. apply Hout. lia.
    - rewrite !lookup_take_ge by lia. done. }
  assert (drop (S pr) t' = drop (S pr) t) as Hdrop.
  { apply list_eq. intros i. rewrite !lookup_drop. apply Hout. lia. }
  assert (take (S pr - pl) (drop pl t') ≡ₚ take (S pr - pl) (drop pl t)) as Hseg.
  { apply (Permutation_app_inv_l (take pl t)).
    apply (Permutation_app_inv_r (drop (S pr) t)).
    rewrite <- Htake at 1. rewrite <- Hdrop at 1.
    assert (∀ l : list nat, (take pl l ++ take (S pr - pl) (drop pl l)) ++ drop (S pr) l = l) as Hsplit.
    { intros l. rewrite <- (take_drop pl l) at 4. rewrite <- app_assoc. f_equal.
      rewrite <- (take_drop (S pr - pl) (drop pl l)) at 2. f_equal.
      rewrite drop_drop. f_equal. lia. }
    by rewrite !Hsplit. }
  assert (x ∈ take (S pr - pl) (drop pl t')) as Hin.
  { apply list_elem_of_lookup. exists (p - pl).
    rewrite lookup_take_lt by lia. rewrite lookup_drop.
    by replace (pl + (p - pl)) with p by lia. }
  rewrite Hseg in Hin. apply list_elem_of_lookup in Hin as [i Hi].
  apply lookup_take_Some in Hi as [Hi Hlt]. rewrite lookup_drop in Hi.
  apply (HQ (pl + i)); [lia|lia|done].
Qed.

Lemma within_Forall_at (pl pr : nat) (t t' : list nat) (Q : option Z → Prop) :
  within pl pr t t' → pr < length t →
  (∀ p, pl ≤ p → p ≤ pr → Q (at_ v t p)) →
  ∀ p, pl ≤ p → p ≤ pr → Q (at_ v t' p).
Proof.
  intros Hw Hlen HQ p Hp1 Hp2.
  pose proof (within_length _ _ _ _ Hw) as Hlen'.
  destruct (lookup_lt_is_Some_2 t' p ltac:(lia)) as [x Hx].
  unfold at_. rewrite Hx. simpl.
  apply (within_Forall pl pr t t' (λ x, Q (mjoin (v !! x))) Hw) with p; try done.
  intros q y Hq1 Hq2 Hy. specialize (HQ q Hq1 Hq2). unfold at_ in HQ. by rewrite Hy in HQ.
Qed.

(** Exchanges *)
Lemma insert_perm (t : list nat) : ∀ (q b x : nat),
  t !! q = Some b → b :: <[q := x]> t ≡ₚ x :: t.
Proof.
  induction t as [|y t IH]; intros [|q] b x Hq; simpl in *; try done.
  - injection Hq as ->. apply Permutation_swap.
  - rewrite (Permutation_swap y b), (IH _ _ _ Hq). apply Permutation_swap.
Qed.

Lemma swap_perm (t : list nat) : ∀ (p q : nat), swap t p q ≡ₚ t.
Proof.
  unfold swap. induction t as [|y t IH]; intros p q; [by destruct p, q|].
  destruct p as [|p], q as [|q]; simpl.
  - done.
  - destruct (t !! q) as [b|] eqn:Hq; simpl; [|done]. by apply insert_perm.
  - destruct (t !! p) as [a|] eqn:Hp; simpl; [|done]. by apply insert_perm.
  - specialize (IH p q). destruct (t !! p), (t !! q); simpl; try done. by rewrite IH.
Qed.

Lemma swap_lookup (t : list nat) (p q r : nat) :
  p < length t → q < length t →
  swap t p q !! r = if decide (r = p) then t !! q else if decide (r = q) then t !! p else t !! r.
Proof.
  intros Hp Hq. unfold swap.
  destruct (lookup_lt_is_Some_2 t p Hp) as [a Ha].
  destruct (lookup_lt_is_Some_2 t q Hq) as [b Hb]. rewrite Ha, Hb.
  destruct (decide (r = p)) as [->|Hrp].
  - rewrite list_lookup_insert_eq by (by rewrite length_insert). done.
  - rewrite list_lookup_insert_ne by done.
    destruct (decide (r = q)) as [->|Hrq].
    + by rewrite list_lookup_insert_eq.
    + by rewrite list_lookup_insert_ne.
Qed.

Lemma swap_at (t : list nat) (p q r : nat) :
  p < length t → q < length t →
  at_ v (swap t p q) r
  = if decide (r = p) then at_ v t q else if decide (r = q) then at_ v t p else at_ v t r.
Proof.
  intros Hp Hq. unfold at_. rewrite swap_lookup by done. by repeat case_decide.
Qed.

Lemma swap_within (pl pr : nat) (t : list nat) (p q : nat) :
  p < length t → q < length t → pl ≤ p → p ≤ pr → pl ≤ q → q ≤ pr →
  within pl pr t (swap t p q).
Proof.
  intros Hp Hq Hp1 Hp2 Hq1 Hq2. split; [apply swap_perm|].
  intros r Hr. rewrite swap_lookup by done. repeat case_decide; try done; lia.
Qed.

(** The two scans stop at a sentinel. *)
Lemma scan_up_spec (t : list nat) (vp : option Z) (stop : nat) : ∀ (fuel pi : nat),
  pi ≤ stop → less (at_ v t stop) vp = false → stop - pi < fuel →
  pi ≤ scan_up v fuel t vp pi ∧ scan_up v fuel t vp pi ≤ stop
  ∧ less (at_ v t (scan_up v fuel t vp pi)) vp = false
  ∧ ∀ p, pi ≤ p → p < scan_up v fuel t vp pi → less (at_ v t p) vp = true.
Proof.
  induction fuel as [|fuel IH]; intros pi Hle Hstop Hfuel; [lia|]. simpl.
  destruct (less (at_ v t pi) vp) eqn:Hless.
  - assert (pi ≠ stop) by (intros ->; congruence).
    destruct (IH (S pi)) as (H1 & H2 & H3 & H4); [lia|done|lia|].
    repeat split; [lia|done|done|].
    intros p Hp1 Hp2. destruct (decide (p = pi)) as [->|]; [done|]. apply H4; lia.
  - repeat split; [lia|done|done|]. intros p Hp1 Hp2. lia.
Qed.

Lemma scan_down_spec (t : list nat) (vp : option Z) (stop : nat) : ∀ (fuel pj : nat),
  stop ≤ pj → less vp (at_ v t stop) = false → pj - stop < fuel →
  stop ≤ scan_down v fuel t vp pj ∧ scan_down v fuel t vp pj ≤ pj
  ∧ less vp (at_ v t (scan_down v fuel t vp pj)) = false
  ∧ ∀ p, scan_down v fuel t vp pj < p → p ≤ pj → less vp (at_ v t p) = true.
Proof.
  induction fuel as [|fuel IH]; intros pj Hle Hstop Hfuel; [lia|]. simpl.
  destruct (less vp (at_ v t pj)) eqn:Hless.
  - assert (pj ≠ stop) by (intros ->; congruence).
    destruct (IH (pred pj)) as (H1 & H2 & H3 & H4); [lia|done|lia|].
    repeat split; [done|lia|done|].
    intros p Hp1 Hp2. destruct (decide (p = pj)) as [->|]; [done|]. apply H4; lia.
  - repeat split; [lia|done|done|]. intros p Hp1 Hp2. lia.
Qed.


Lemma length_swap (t : list nat) (p q : nat) : length (swap t p q) = length t.
Proof. by rewrite (swap_perm t p q). Qed.

(** The partition loop: the positions up to [pi] hold keys not above the
    pivot, those from [pj] on keys not below it. *)
Lemma partition_spec (vp : option Z) (pl hi : nat) : ∀ (fuel : nat) (t : list nat) (pi pj : nat),
  pl ≤ pi → pi < pj → pj ≤ hi → hi < length t → pj - pi ≤ fuel →
  (∀ p, pl ≤ p → p ≤ pi → less vp (at_ v t p) = false) →
  (∀ p, pj ≤ p → p ≤ hi → less (at_ v t p) vp = false) →
  ∃ t' r, partition v fuel t vp pi pj = (t', r)
        ∧ within (S pi) (pred pj) t t'
        ∧ pi < r ∧ r ≤ pj
        ∧ (∀ p, pl ≤ p → p < r → less vp (at_ v t' p) = false)
        ∧ (∀ p, r ≤ p → p ≤ hi → less (at_ v t' p) vp = false).
Proof.
  induction fuel as [|fuel IH]; intros t pi pj Hpl Hlt Hhi Hlen Hfuel Hlo Hup; [lia|].
  simpl.
  destruct (scan_up_spec t vp pj (length t) (S pi)) as (Hi1 & Hi2 & Hi3 & Hi4);
    [lia|apply Hup; lia|lia|].
  destruct (scan_down_spec t vp pi (length t) (pred pj)) as (Hj1 & Hj2 & Hj3 & Hj4);
    [lia|apply Hlo; lia|lia|].
  set (pi' := scan_up v (length t) t vp (S pi)) in *.
  set (pj' := scan_down v (length t) t vp (pred pj)) in *.
  assert (∀ p, pl ≤ p → p < pi' → less vp (at_ v t p) = false) as Hlo'.
  { intros p Hp1 Hp2. destruct (decide (p ≤ pi)); [by apply Hlo|].
    apply less_asym, Hi4; lia. }
  assert (∀ p, pj' < p → p ≤ hi → less (at_ v t p) vp = false) as Hup'.
  { intros p Hp1 Hp2. destruct (decide (pj ≤ p)); [by apply Hup|].
    apply less_asym, Hj4; lia. }
  case_decide as Hcross.
  - exists t, pi'. repeat split; try done; try lia; try apply within_refl.
    intros p Hp1 Hp2. destruct (decide (p = pi')) as [->|]; [done|]. apply Hup'; lia.
  - destruct (IH (swap t pi' pj') pi' pj') as (t' & r & Heq & Hw & Hr1 & Hr2 & Hlo'' & Hup'');
      [lia|lia|lia|by rewrite length_swap|lia| | |].
    + intros p Hp1 Hp2. rewrite swap_at by lia. repeat case_decide; try lia; [done|].
      apply Hlo'; lia.
    + intros p Hp1 Hp2. rewrite swap_at by lia. repeat case_decide; try lia; [done|].
      apply Hup'; lia.
    + exists t', r. repeat split; try done; try lia.
      * refine (proj1 (within_trans (S pi) (pred pj) t (swap t pi' pj') t' _ _)).
        -- apply swap_within; lia.
        -- eapply within_mono; [| |exact Hw]; lia.
      * refine (proj2 (within_trans (S pi) (pred pj) t (swap t pi' pj') t' _ _)).
        -- apply swap_within; lia.
        -- eapply within_mono; [| |exact Hw]; lia.
Qed.


(** The three exchanges before the partition put the keys of the first,
    the middle and the last position of the range in order. *)
Lemma cond_swap_spec (t : list nat) (p q : nat) :
  p < length t → q < length t → p ≠ q →
  let t' := if less (at_ v t p) (at_ v t q) then swap t p q else t in
  length t' = length t
  ∧ t' ≡ₚ t
  ∧ (∀ r, r ≠ p → r ≠ q → t' !! r = t !! r)
  ∧ at_ v t' p = (if less (at_ v t p) (at_ v t q) then at_ v t q else at_ v t p)
  ∧ at_ v t' q = (if less (at_ v t p) (at_ v t q) then at_ v t p else at_ v t q).
Proof.
  intros Hp Hq Hne. simpl. destruct (less _ _); [|done].
  rewrite length_swap, !swap_at by done.
  split; [done|]. split; [apply swap_perm|]. split.
  - intros r Hr1 Hr2. rewrite swap_lookup by done. by rewrite !decide_False.
  - split; repeat case_decide; done || congruence.
Qed.

Lemma less_cases (a b c : option Z) :
  let a1 := if less b a then b else a in
  let b1 := if less b a then a else b in
  let b2 := if less c b1 then c else b1 in
  let c2 := if less c b1 then b1 else c in
  let a3 := if less b2 a1 then b2 else a1 in
  let b3 := if less b2 a1 then a1 else b2 in
  less b3 a3 = false ∧ less c2 b3 = false.
Proof.
  destruct a as [x|], b as [y|], c as [z|]; simpl;
    repeat match goal with
           | |- context [(?x <? ?y)%Z] => destruct (Z.ltb_spec x y); simpl
           end; split; try done; try (apply Z.ltb_ge; lia); lia.
Qed.

Lemma median_of_three (t : list nat) (pl pm pr : nat) :
  pl < pm → pm < pr → pr < length t →
  let t1 := if less (at_ v t pm) (at_ v t pl) then swap t pm pl else t in
  let t2 := if less (at_ v t1 pr) (at_ v t1 pm) then swap t1 pr pm else t1 in
  let t3 := if less (at_ v t2 pm) (at_ v t2 pl) then swap t2 pm pl else t2 in
  within pl pr t t3
  ∧ less (at_ v t3 pm) (at_ v t3 pl) = false
  ∧ less (at_ v t3 pr) (at_ v t3 pm) = false.
Proof.
  intros Hlm Hmr Hlen t1 t2 t3.
  destruct (cond_swap_spec t pm pl) as (Hl1 & Hp1 & Ho1 & Ha1 & Hb1); [lia|lia|lia|].
  fold t1 in Hl1, Hp1, Ho1, Ha1, Hb1.
  destruct (cond_swap_spec t1 pr pm) as (Hl2 & Hp2 & Ho2 & Ha2 & Hb2); [lia|lia|lia|].
  fold t2 in Hl2, Hp2, Ho2, Ha2, Hb2.
  destruct (cond_swap_spec t2 pm pl) as (Hl3 & Hp3 & Ho3 & Ha3 & Hb3); [lia|lia|lia|].
  fold t3 in Hl3, Hp3, Ho3, Ha3, Hb3.
  split; [split|].
  - by rewrite Hp3, Hp2, Hp1.
  - intros p Hp. rewrite Ho3, Ho2, Ho1 by lia. done.
  - assert (at_ v t1 pr = at_ v t pr) as Hc1 by (unfold at_; rewrite Ho1 by lia; done).
    assert (at_ v t2 pl = at_ v t1 pl) as Hc2 by (unfold at_; rewrite Ho2 by lia; done).
    assert (at_ v t3 pr = at_ v t2 pr) as Hc3 by (unfold at_; rewrite Ho3 by lia; done).
    rewrite Ha3, Hb3, Hc3, Ha2, Hb2, Hc2, Hc1, Ha1, Hb1.
    apply (less_cases (at_ v t pl) (at_ v t pm) (at_ v t pr)).
Qed.

(** One level of the quicksort, with its intermediate arrays named. *)
Lemma sort_range_step (depth : nat) (t : list nat) (pl pr : nat) (Q : list nat → Prop) :
  SMALL_QUICKSORT < pr - pl →
  (∀ pm t1 t2 t3 vp t4 t5 pi t6 t7,
     pm = pl + (pr - pl) / 2 →
     t1 = (if less (at_ v t pm) (at_ v t pl) then swap t pm pl else t) →
     t2 = (if less (at_ v t1 pr) (at_ v t1 pm) then swap t1 pr pm else t1) →
     t3 = (if less (at_ v t2 pm) (at_ v t2 pl) then swap t2 pm pl else t2) →
     vp = at_ v t3 pm →
     t4 = swap t3 pm (pr - 1) →
     partition v (length t4) t4 vp pl (pr - 1) = (t5, pi) →
     t6 = swap t5 pi (pr - 1) →
     t7 = sort_range v depth t6 pl (pi - 1) →
     Q (sort_range v depth t7 (pi + 1) pr)) →
  Q (sort_range v (S depth) t pl pr).
Proof.
  intros Hbig HQ. simpl. rewrite decide_True by done.
  destruct (partition _ _ _ _ _ _) as [t5 pi] eqn:Hpart.
  by eapply HQ.
Qed.

(** The quicksort sorts its range and touches nothing outside it, at every
    depth. *)
Lemma sort_range_spec : ∀ (depth : nat) (t : list nat) (pl pr : nat),
  pl ≤ pr → pr < length t →
  within pl pr t (sort_range v depth t pl pr)
  ∧ sorted_range v (sort_range v depth t pl pr) pl pr.
Proof.
  induction depth as [|depth IH]; intros t pl pr Hle Hlen.
  { by apply insertion_sort_spec. }
  destruct (decide (SMALL_QUICKSORT < pr - pl)) as [Hbig|Hsmall];
    [|simpl; rewrite decide_False by done; by apply insertion_sort_spec].
  apply (sort_range_step depth t pl pr
           (λ res, within pl pr t res ∧ sorted_range v res pl pr) Hbig).
  unfold SMALL_QUICKSORT in Hbig.
  intros pm t1 t2 t3 vp t4 t5 r t6 t7 Hpm Ht1 Ht2 Ht3 Hvp Ht4 Heq Ht6 Ht7.
  assert (pl < pm ∧ pm < pr - 1) as [Hlm Hmr].
  { rewrite Hpm. pose proof (Nat.div_mod_eq (pr - pl) 2) as Hdiv.
    pose proof (Nat.mod_upper_bound (pr - pl) 2 ltac:(lia)). lia. }
  clear Hpm.
  destruct (median_of_three t pl pm pr) as (Hw3 & Hm1 & Hm2); [lia|lia|lia|].
  rewrite <- Ht1, <- Ht2, <- Ht3 in Hw3, Hm1, Hm2. clear Ht1 Ht2 Ht3 t1 t2.
  pose proof (within_length _ _ _ _ Hw3) as Hl3.
  assert (length t4 = length t) as Hl4 by (rewrite Ht4; by rewrite length_swap).
  assert (at_ v t4 (pr - 1) = vp) as Hpivot.
  { rewrite Ht4, swap_at by lia. rewrite decide_False, decide_True by lia. done. }
  assert (at_ v t4 pl = at_ v t3 pl) as Hfirst.
  { rewrite Ht4, swap_at by lia. by rewrite !decide_False by lia. }
  assert (at_ v t4 pr = at_ v t3 pr) as Hlast.
  { rewrite Ht4, swap_at by lia. by rewrite !decide_False by lia. }
  assert (within pl pr t t4) as Hw4.
  { eapply within_trans; [exact Hw3|]. rewrite Ht4. apply swap_within; lia. }
  destruct (partition_spec vp pl pr (length t4) t4 pl (pr - 1))
    as (t5' & r' & Heq' & Hw5 & Hr1 & Hr2 & Hlo & Hup); [lia|lia|lia|lia|lia| | |].
  { intros p Hp1 Hp2. replace p with pl by lia. by rewrite Hfirst, Hvp. }
  { intros p Hp1 Hp2. destruct (decide (p = pr)) as [->|].
    - by rewrite Hlast, Hvp.
    - replace p with (pr - 1) by lia. rewrite Hpivot. apply less_irrefl. }
  rewrite Heq in Heq'. injection Heq' as <- <-. clear Heq Ht4 Hvp.
  pose proof (within_length _ _ _ _ Hw5) as Hl5.
  assert (length t6 = length t) as Hl6 by (rewrite Ht6, length_swap; lia).
  assert (at_ v t5 (pr - 1) = vp) as Hpivot5.
  { rewrite (within_at _ _ _ _ _ Hw5) by lia. done. }
  assert (at_ v t6 r = vp) as Hmid.
  { rewrite Ht6, swap_at by lia. by rewrite decide_True. }
  assert (∀ p, pl ≤ p → p < r → less vp (at_ v t6 p) = false) as Hlo6.
  { intros p Hp1 Hp2. rewrite Ht6, swap_at by lia.
    rewrite !decide_False by lia. by apply Hlo. }
  assert (∀ p, r < p → p ≤ pr → less (at_ v t6 p) vp = false) as Hup6.
  { intros p Hp1 Hp2. rewrite Ht6, swap_at by lia.
    rewrite decide_False by lia. case_decide; apply Hup; lia. }
  assert (within pl pr t t6) as Hw6.
  { eapply within_trans; [exact Hw4|]. eapply within_trans.
    - eapply within_mono; [| |exact Hw5]; lia.
    - rewrite Ht6. apply swap_within; lia. }
  clear Hlo Hup Hw5 Hpivot5 Hl5 Ht6.
  destruct (IH t6 pl (r - 1)) as [Hw7 Hs7]; [lia|lia|].
  rewrite <- Ht7 in Hw7, Hs7. clear Ht7.
  pose proof (within_length _ _ _ _ Hw7) as Hl7.
  destruct (IH t7 (r + 1) pr) as [Hw8 Hs8]; [lia|lia|].
  set (t8 := sort_range v depth t7 (r + 1) pr) in *. clearbody t8.
  split.
  - eapply within_trans; [exact Hw6|]. eapply within_trans.
    + eapply within_mono; [| |exact Hw7]; lia.
    + eapply within_mono; [| |exact Hw8]; lia.
  - assert (∀ p, pl ≤ p → p < r → less vp (at_ v t7 p) = false) as Hlo7.
    { intros p Hp1 Hp2.
      apply (within_Forall_at pl (r - 1) t6 t7 (λ k, less vp k = false) Hw7); try lia.
      intros q Hq1 Hq2. apply Hlo6; lia. }
    assert (∀ p, r < p → p ≤ pr → less (at_ v t8 p) vp = false) as Hup8.
    { intros p Hp1 Hp2.
      apply (within_Forall_at (r + 1) pr t7 t8 (λ k, less k vp = false) Hw8); try lia.
      intros q Hq1 Hq2. rewrite (within_at _ _ _ _ _ Hw7) by lia. apply Hup6; lia. }
    assert (∀ p, p ≤ r → at_ v t8 p = at_ v t7 p) as Hsame
      by (intros p Hp; apply (within_at _ _ _ _ _ Hw8); lia).
    assert (at_ v t7 r = vp) as Hmid7
      by (rewrite (within_at _ _ _ _ _ Hw7) by lia; done).
    intros p Hp1 Hp2.
    destruct (decide (S p < r)); [|destruct (decide (S p = r)); [|destruct (decide (p = r))]].
    + rewrite !Hsame by lia. apply Hs7; lia.
    + rewrite !Hsame by lia. replace (S p) with r by lia. rewrite Hmid7. apply Hlo7; lia.
    + subst p. rewrite (Hsame r) by lia. rewrite Hmid7. apply Hup8; lia.
    + apply Hs8; lia.
Qed.

End NumpySort.

Section Nargsort.
Import Numpy.
Local Open Scope nat_scope.
Local Open Scope list_scope.

Lemma aquicksort_spec (v : list (option Z)) :
  aquicksort v ≡ₚ seq 0 (length v)
  ∧ sorted_range v (aquicksort v) 0 (length v - 1).
Proof.
  unfold aquicksort. destruct v as [|k v].
  - split; [done|]. intros p ? ?. simpl in *. lia.
  - set (n := length (k :: v)).
    destruct (sort_range_spec (k :: v) (2 * Nat.log2 n + 1) (seq 0 n) 0 (n - 1))
      as [[Hperm _] Hsorted]; [lia|rewrite length_seq; unfold n; simpl; lia|].
    done.
Qed.

Lemma Sorted_from_lookup {T} (R : relation T) (l : list T) :
  (∀ i a b, l !! i = Some a → l !! S i = Some b → R a b) → Sorted R l.
Proof.
  induction l as [|x l IH]; intros Hl; [constructor|].
  constructor.
  - apply IH. intros i a b. apply (Hl (S i)).
  - destruct l as [|y l]; constructor. by apply (Hl 0).
Qed.

Lemma omap_lookup_total {T} (xs : list T) (l : list nat) (d : T) :
  Forall (λ i, i < length xs) l → omap (λ i, xs !! i) l = (λ i, default d (xs !! i)) <$> l.
Proof.
  induction 1 as [|i l Hi _ IH]; [done|]. cbn [omap list_omap fmap list_fmap].
  destruct (lookup_lt_is_Some_2 xs i Hi) as [x ->]. simpl. by f_equal.
Qed.

Lemma Sorted_app_last (l1 l2 : list (option Z)) :
  Sorted key_le l1 → Forall (λ k, k = None) l2 → Sorted key_le (l1 ++ l2).
Proof.
  intros Hl1 Hl2. induction Hl1 as [|x l1 Hl1 IH Hhd]; simpl.
  - induction Hl2 as [|y l2 -> Hl2 IH]; constructor; [done|].
    destruct Hl2 as [|z l2 -> _]; by constructor.
  - constructor; [done|]. destruct Hhd as [|y l1' Hy]; simpl; [|by constructor].
    destruct Hl2 as [|z l2 -> _]; constructor. by destruct x.
Qed.

(** The wrapper of pandas: the sorted rows that have a timestamp, then the
    rows that have none. *)
Lemma nargsort_perm (keys : list (option Z)) : nargsort keys ≡ₚ seq 0 (length keys).
Proof.
  unfold nargsort.
  set (positions := seq 0 (length keys)).
  set (idx := filter (λ i, is_Some (mjoin (keys !! i))) positions).
  set (non_nans := omap (λ i, keys !! i) idx).
  assert (Forall (λ i, i < length keys) idx) as Hidx.
  { apply Forall_forall. intros i Hi. apply list_elem_of_filter in Hi as [_ Hi].
    apply elem_of_seq in Hi. lia. }
  assert (length non_nans = length idx) as Hlen.
  { unfold non_nans. by rewrite (omap_lookup_total keys idx None Hidx), length_fmap. }
  destruct (aquicksort_spec non_nans) as [Hperm _]. rewrite Hlen in Hperm.
  rewrite Hperm.
  assert (omap (λ p, idx !! p) (seq 0 (length idx)) = idx) as ->.
  { rewrite (omap_lookup_total idx _ 0) by (apply Forall_forall; intros i Hi; apply elem_of_seq in Hi; lia).
    apply list_eq. intros i. rewrite list_lookup_fmap.
    destruct (decide (i < length idx)) as [Hi|Hi].
    - rewrite lookup_seq_lt by done. simpl.
      destruct (lookup_lt_is_Some_2 idx i Hi) as [x ->]. done.
    - rewrite lookup_seq_ge by lia. rewrite lookup_ge_None_2 by lia. done. }
  apply filter_app_complement.
Qed.

Lemma nargsort_sorted (keys : list (option Z)) :
  Sorted key_le (take_rows (nargsort keys) keys).
Proof.
  unfold nargsort, take_rows.
  set (positions := seq 0 (length keys)).
  set (idx := filter (λ i, is_Some (mjoin (keys !! i))) positions).
  set (nan_idx := filter (λ i, ¬ is_Some (mjoin (keys !! i))) positions).
  set (non_nans := omap (λ i, keys !! i) idx).
  assert (Forall (λ i, i < length keys) idx) as Hidx.
  { apply Forall_forall. intros i Hi. apply list_elem_of_filter in Hi as [_ Hi].
    apply elem_of_seq in Hi. lia. }
  assert (non_nans = key_at keys <$> idx) as Hnon
    by apply (omap_lookup_total keys idx None Hidx).
  assert (length non_nans = length idx) as Hlen by (by rewrite Hnon, length_fmap).
  destruct (aquicksort_spec non_nans) as [Hperm Hsorted]. rewrite Hlen in Hperm, Hsorted.
  set (aq := aquicksort non_nans) in *.
  assert (Forall (λ p, p < length idx) aq) as Haq.
  { apply Forall_forall. intros p Hp. rewrite Hperm in Hp. apply elem_of_seq in Hp. lia. }
  assert (length aq = length idx) as Hlaq by (by rewrite Hperm, length_seq).
  rewrite omap_app. apply Sorted_app_last.
  - rewrite (omap_lookup_total idx aq 0 Haq).
    rewrite (omap_lookup_total keys _ None).
    2:{ apply Forall_fmap, Forall_forall. intros p Hp. simpl.
        rewrite Forall_forall in Haq. specialize (Haq p Hp).
        destruct (lookup_lt_is_Some_2 idx p Haq) as [i Hi]. rewrite Hi. simpl.
        rewrite Forall_forall in Hidx. apply Hidx. by eapply list_elem_of_lookup_2. }
    apply Sorted_from_lookup. intros p a b Ha Hb.
    rewrite !list_lookup_fmap in Ha, Hb.
    destruct (aq !! p) as [i|] eqn:Hi; simpl in Ha; [|done].
    destruct (aq !! S p) as [j|] eqn:Hj; simpl in Hb; [|done].
    injection Ha as <-. injection Hb as <-.
    pose proof (lookup_lt_Some _ _ _ Hj) as Hp.
    specialize (Hsorted p ltac:(lia) ltac:(lia)).
    unfold at_ in Hsorted. rewrite Hi, Hj in Hsorted. simpl in Hsorted.
    rewrite Hnon, !list_lookup_fmap in Hsorted.
    rewrite Forall_forall in Haq.
    destruct (lookup_lt_is_Some_2 idx i (Haq i (list_elem_of_lookup_2 _ _ _ Hi))) as [x Hx].
    destruct (lookup_lt_is_Some_2 idx j (Haq j (list_elem_of_lookup_2 _ _ _ Hj))) as [y Hy].
    rewrite Hx, Hy in Hsorted |- *. simpl in *.
    by apply less_key_le.
  - apply Forall_forall. intros k Hk.
    apply list_elem_of_omap in Hk as (i & Hi & Hk).
    apply list_elem_of_filter in Hi as [Hnan _].
    rewrite Hk in Hnan. simpl in Hnan. destruct k; [|done].
    exfalso. apply Hnan. by eexists.
Qed.

(** The contract of [argsort] holds of the quicksort. *)
Lemma numpy_contract : ArgsortContract Numpy.pandas.
Proof. split; [apply nargsort_perm|apply nargsort_sorted]. Qed.

End Nargsort.

(** ** The multivariate engine *)
Section MultivariateProperties.
Context {A : Type} `{!Number A}.

Lemma run_bind {E S T U} (h : handler E S) (p : prog E T) (k : T → prog E U) (s : S) :
  run h (p ≫= k) s =
  match run h p s with
  | (Returned t, s') => run h (k t) s'
  | (Raised e, s') => (Raised e, s')
  end.
Proof.
  revert s. induction p as [r|e|T' c k' IH]; intros s; simpl; try done.
  destruct (h T' c s) as [[t|e] s']; [apply IH|done].
Qed.

Lemma run_call {E S T} (h : handler E S) (c : E T) (s : S) :
  run h (call c) s = h T c s.
Proof. simpl. by destruct (h T c s) as [[t|e] s']. Qed.

(** Under a name the code does not know, no branch is taken and no model
    is created. *)
Lemma fit_model_unknown (algorithm : string) (contamination : A) (kw : kwargs A)
    (X_scaled : list (list A)) :
  algorithm ≠ "Isolation Forest" → algorithm ≠ "One-Class SVM" →
  algorithm ≠ "Local Outlier Factor" →
  fit_model algorithm contamination kw X_scaled = Ret None.
Proof. intros. unfold fit_model. by repeat case_decide. Qed.

Lemma numeric_columns_nonempty (df : DataFrame A) :
  numeric_columns df ≠ [] → length (numeric_columns df) ≠ 0%nat.
Proof. by destruct (numeric_columns df). Qed.

(** C1.  With no numeric column, [detect_anomalies] produces no result: it
    returns the error reply "No numeric columns found for anomaly
    detection", for every algorithm, contamination and keyword arguments,
    without calling the library. *)
Theorem detect_anomalies_no_numeric_columns (df : DataFrame A) (algorithm : string)
    (contamination : A) (kw : kwargs A) :
  numeric_columns df = [] →
  detect_anomalies df algorithm contamination kw = Ret (None, Some NoNumericDataError)
  ∧ ∀ S (h : handler (sklearn A) S) (s : S),
      run h (detect_anomalies df algorithm contamination kw) s
      = (Returned (None, Some NoNumericDataError), s).
Proof.
  intros Hnone. unfold detect_anomalies. rewrite Hnone. simpl. done.
Qed.

(** C10.  With a numeric column and an algorithm name that is none of the
    three the code knows, [detect_anomalies] never returns: an exception
    leaves it.  Once the scaler has answered, that exception is the
    [UnboundLocalError] of the variable [predictions], which no branch
    assigned. *)
Theorem detect_anomalies_unknown_algorithm {S} (h : handler (sklearn A) S) (s : S)
    (df : DataFrame A) (algorithm : string) (contamination : A) (kw : kwargs A) :
  numeric_columns df ≠ [] →
  algorithm ≠ "Isolation Forest" →
  algorithm ≠ "One-Class SVM" →
  algorithm ≠ "Local Outlier Factor" →
  (∃ e, (run h (detect_anomalies df algorithm contamination kw) s).1 = Raised e)
  ∧ ∀ scaler s1 X_scaled s2,
      h _ StandardScaler s = (Returned scaler, s1) →
      h _ (fit_transform scaler (values df (numeric_columns df))) s1 = (Returned X_scaled, s2) →
      run h (detect_anomalies df algorithm contamination kw) s
      = (Raised (UnboundLocalError "predictions"), s2).
Proof.
  intros Hnum H1 H2 H3. apply numeric_columns_nonempty in Hnum.
  unfold detect_anomalies. case_decide; [done|].
  rewrite run_bind, run_call. split.
  - destruct (h _ StandardScaler s) as [[sc|e] s1]; [|by eexists].
    rewrite run_bind, run_call.
    destruct (h _ (fit_transform sc _) s1) as [[X|e] s2]; [|by eexists].
    rewrite run_bind, fit_model_unknown by done. simpl. by eexists.
  - intros sc s1 X s2 Hsc Hfit. rewrite Hsc, run_bind, run_call, Hfit.
    by rewrite run_bind, fit_model_unknown.
Qed.



End MultivariateProperties.

(** ** Frames and rolling windows *)
Section FrameFacts.
Context {A : Type}.

Lemma get_column_fmap (f : column A → column A) (df : DataFrame A) (col : string) :
  get_column ((λ p, (p.1, f p.2)) <$> df) col = f <$> get_column df col.
Proof.
  induction df as [|[name c] df IH]; simpl; [done|].
  case_decide; [done|apply IH].
Qed.

Lemma get_column_set_column_ne (df : DataFrame A) (col col' : string) (c : column A) :
  col' ≠ col → get_column (set_column df col c) col' = get_column df col'.
Proof.
  intros Hne. induction df as [|[name c0] df IH]; simpl; [done|].
  destruct (decide (name = col)) as [->|]; simpl;
    destruct (decide (_ = col')); try done; congruence.
Qed.

Lemma get_column_set_column_eq (df : DataFrame A) (col : string) (c : column A) :
  col ∈ columns df → get_column (set_column df col c) col = Some c.
Proof.
  unfold columns. induction df as [|[name c0] df IH]; intros Hin.
  - by apply elem_of_nil in Hin.
  - rewrite fmap_cons in Hin. simpl.
    destruct (decide (name = col)) as [->|Hne]; simpl.
    + by rewrite decide_True.
    + rewrite decide_False by done. apply IH.
      apply elem_of_cons in Hin as [Heq|Hin]; [|done]. simpl in Heq. congruence.
Qed.

Lemma get_column_None (df : DataFrame A) (col : string) :
  col ∉ columns df → get_column df col = None.
Proof.
  unfold columns. induction df as [|[name c0] df IH]; intros Hin; [done|].
  rewrite fmap_cons, not_elem_of_cons in Hin. destruct Hin as [Hne Hin].
  simpl in *. rewrite decide_False by congruence. by apply IH.
Qed.

Lemma get_column_app (df df' : DataFrame A) (col : string) :
  get_column (df ++ df')%list col
  = match get_column df col with Some c => Some c | None => get_column df' col end.
Proof.
  induction df as [|[name c0] df IH]; [done|].
  simpl. by case_decide.
Qed.

Lemma get_column_assign (df : DataFrame A) (col col' : string) (c : column A) :
  get_column (assign df col c) col'
  = if decide (col' = col) then Some c else get_column df col'.
Proof.
  unfold assign. destruct (decide (col ∈ columns df)) as [Hin|Hin].
  - case_decide as Heq.
    + subst. by apply get_column_set_column_eq.
    + by apply get_column_set_column_ne.
  - rewrite get_column_app. case_decide as Heq.
    + subst. rewrite get_column_None by done. simpl. by rewrite decide_True.
    + destruct (get_column df col'); [done|]. simpl. by rewrite decide_False by congruence.
Qed.

Lemma take_rows_length {T} (idx : list nat) (xs : list T) :
  Forall (λ i, (i < length xs)%nat) idx → length (take_rows idx xs) = length idx.
Proof.
  unfold take_rows. induction 1 as [|i idx Hi _ IH]; simpl; [done|].
  destruct (lookup_lt_is_Some_2 xs i Hi) as [x ->]. simpl. f_equal. exact IH.
Qed.

Lemma permutation_of_seq_bounded (idx : list nat) (n : nat) :
  idx ≡ₚ seq 0 n → Forall (λ i, (i < n)%nat) idx.
Proof.
  intros Hp. rewrite Hp. apply Forall_forall. intros i Hi.
  apply elem_of_seq in Hi. lia.
Qed.

End FrameFacts.

Section RollingFacts.
Context {A : Type} `{!Number A}.

Lemma length_dropna_le (xs : list A) : (length (dropna xs) ≤ length xs)%nat.
Proof. apply length_filter. Qed.

Lemma length_rolling_window (window i : nat) (xs : list A) :
  (length (rolling_window window i xs) ≤ S i)%nat
  ∧ (length (rolling_window window i xs) ≤ window)%nat.
Proof. unfold rolling_window. rewrite length_drop, length_take. lia. Qed.

Lemma length_rolling (window : nat) (kernel : list A → A) (xs : list A) :
  length (rolling window kernel xs) = length xs.
Proof. apply length_imap. Qed.

(** A row with fewer than [window] rows up to it has no statistic. *)
Lemma rolling_insufficient (window : nat) (kernel : list A → A) (xs : list A) (i : nat) (y : A) :
  (S i < window)%nat ∨ window = 0%nat →
  rolling window kernel xs !! i = Some y → y = num_nan.
Proof.
  intros Hw. unfold rolling. rewrite list_lookup_imap.
  destruct (xs !! i) as [x|]; simpl; [|done]. intros [= <-].
  pose proof (length_rolling_window window i xs) as [H1 H2].
  pose proof (length_dropna_le (rolling_window window i xs)) as H3.
  case_decide as Hd; [done|]. exfalso. apply Hd.
  destruct Hw as [Hw| ->]; [left; lia|right].
  destruct (dropna _); [done|simpl in *; lia].
Qed.

(** A window of one row has no standard deviation. *)
Lemma rolling_std_one `{!Pandas A} (xs : list A) (i : nat) (y : A) :
  rolling_std 1 xs !! i = Some y → y = num_nan.
Proof.
  unfold rolling_std, rolling. rewrite list_lookup_imap.
  destruct (xs !! i) as [x|]; simpl; [|done]. intros [= <-].
  pose proof (length_rolling_window 1 i xs) as [H1 H2].
  pose proof (length_dropna_le (rolling_window 1 i xs)) as H3.
  case_decide as Hd; [done|].
  destruct (dropna _) as [|a [|b l]]; simpl in *; [|done|lia].
  exfalso. apply Hd. by right.
Qed.

End RollingFacts.

(** ** The time-series engine *)
Section TimeSeriesFacts.
Context {A : Type} `{!Number A} `{!Pandas A}.
Local Open Scope num_scope.

Lemma numeric_values_eq (df : DataFrame A) (col : string) (xs : list A) :
  get_column df col = Some (Numeric xs) → numeric_values df col = Returned xs.
Proof. unfold numeric_values. by intros ->. Qed.

Lemma detect_time_series_anomalies_eq (df : DataFrame A) (time_col value_col : string)
    (window : Z) (threshold : A) (times : column A) (ts : list (option Z)) (xs : list A) :
  get_column df time_col = Some times →
  get_column df value_col = Some (Numeric xs) →
  time_col ≠ value_col →
  to_datetime times = Returned ts →
  detect_time_series_anomalies df time_col value_col window threshold =
    if decide (window < 0)%Z then Raised (ValueError "window must be an integer 0 or greater")
    else Returned (Some (rolling_result (argsort ts) value_col (take_rows (argsort ts) xs)
                           (Z.to_nat window) threshold), None).
Proof.
  intros Ht Hv Hne Hts. unfold detect_time_series_anomalies.
  rewrite Ht, Hv, Hts. simpl. unfold sort_rows.
  case_decide; [done|].
  set (vs := take_rows (argsort ts) xs). set (w := Z.to_nat window).
  rewrite (numeric_values_eq _ _ vs); simpl.
  2:{ rewrite get_column_fmap, get_column_assign, decide_False, Hv by done. done. }
  rewrite (numeric_values_eq _ _ (second_reading value_col w vs)); simpl.
  2:{ rewrite get_column_assign. unfold second_reading. case_decide; [done|].
      rewrite get_column_fmap, get_column_assign, decide_False, Hv by done. done. }
  rewrite (numeric_values_eq _ _ (third_reading value_col w vs)); simpl.
  2:{ rewrite !get_column_assign. unfold third_reading, second_reading.
      repeat case_decide; try done; try congruence.
      rewrite get_column_fmap, get_column_assign, decide_False, Hv by done. done. }
  done.
Qed.

Lemma length_second_reading (value_col : string) (w : nat) (vs : list A) :
  length (second_reading value_col w vs) = length vs.
Proof.
  unfold second_reading, rolling_mean. case_decide; [|done]. apply length_rolling.
Qed.

Lemma length_third_reading (value_col : string) (w : nat) (vs : list A) :
  length (third_reading value_col w vs) = length vs.
Proof.
  unfold third_reading, rolling_std.
  case_decide; rewrite ?length_rolling; apply length_second_reading.
Qed.

Lemma length_rolling_result (index : list nat) (value_col : string) (vs : list A)
    (w : nat) (threshold : A) :
  length index = length vs →
  length (ts_anomalies (rolling_result index value_col vs w threshold)) = length vs.
Proof.
  intros Hlen. simpl.
  rewrite length_zip, length_fmap, length_zip_with, length_zip, length_third_reading.
  unfold rolling_mean, rolling_std.
  rewrite !length_rolling, length_second_reading. lia.
Qed.

Lemma length_sorted_values `{!ArgsortContract Pandas0} (ts : list (option Z)) (xs : list A) :
  length ts = length xs → length (take_rows (argsort ts) xs) = length xs.
Proof.
  intros Hlen. pose proof (argsort_perm ts) as Hp.
  rewrite take_rows_length.
  - by rewrite Hp, length_seq.
  - rewrite <- Hlen. by apply permutation_of_seq_bounded.
Qed.

Lemma length_to_datetime (times : column A) (ts : list (option Z)) :
  to_datetime times = Returned ts → length ts = column_length times.
Proof.
  assert (∀ T (f : T → outcome (option Z)) l ts,
            mapM_outcome f l = Returned ts → length ts = length l) as Hmap.
  { intros T f l. induction l as [|x l IH]; simpl; intros ts'.
    - by intros [= <-].
    - destruct (f x); simpl; [|done].
      destruct (mapM_outcome f l); simpl; [|done].
      intros [= <-]. simpl. f_equal. by apply IH. }
  destruct times; simpl; eauto. by intros [= <-].
Qed.

(** The flag of row [i] comes from a value and the two statistics of the
    row. *)
Lemma rolling_result_flag (index : list nat) (value_col : string) (vs : list A) (w : nat)
    (threshold : A) (i label : nat) (b : bool) :
  ts_anomalies (rolling_result index value_col vs w threshold) !! i = Some (label, b) →
  ∃ v m sd, third_reading value_col w vs !! i = Some v
          ∧ rolling_mean w vs !! i = Some m
          ∧ rolling_std w (second_reading value_col w vs) !! i = Some sd
          ∧ b = (num_abs ((v - m) / sd) >? threshold).
Proof.
  simpl. intros Hz. apply lookup_zip_with_Some in Hz as (l & b' & [= <- <-] & _ & Hb).
  rewrite list_lookup_fmap in Hb.
  destruct (zip_with _ _ _ !! i) as [z|] eqn:Hz; simpl in Hb; [|done].
  injection Hb as <-.
  apply lookup_zip_with_Some in Hz as (v & [m sd] & -> & Hv & Hms).
  apply lookup_zip_with_Some in Hms as (m' & sd' & [= <- <-] & Hm & Hsd).
  by exists v, m, sd.
Qed.

(** So does its z-score. *)
Lemma rolling_result_z_score (index : list nat) (value_col : string) (vs : list A) (w : nat)
    (threshold : A) (i label : nat) (z : A) :
  ts_z_scores (rolling_result index value_col vs w threshold) !! i = Some (label, z) →
  ∃ v m sd, third_reading value_col w vs !! i = Some v
          ∧ rolling_mean w vs !! i = Some m
          ∧ rolling_std w (second_reading value_col w vs) !! i = Some sd
          ∧ z = (v - m) / sd.
Proof.
  simpl. intros Hz. apply lookup_zip_with_Some in Hz as (l & z' & [= <- <-] & _ & Hz).
  apply lookup_zip_with_Some in Hz as (v & [m sd] & -> & Hv & Hms).
  apply lookup_zip_with_Some in Hms as (m' & sd' & [= <- <-] & Hm & Hsd).
  by exists v, m, sd.
Qed.

(** The flags and the z-scores are labelled by the index, row for row. *)
Lemma rolling_result_index (index : list nat) (value_col : string) (vs : list A) (w : nat)
    (threshold : A) :
  length index = length vs →
  (ts_anomalies (rolling_result index value_col vs w threshold)).*1 = index
  ∧ (ts_z_scores (rolling_result index value_col vs w threshold)).*1 = index.
Proof.
  intros Hlen. simpl.
  assert (length (zip_with (λ v ms, (v - ms.1) / ms.2) (third_reading value_col w vs)
                    (zip (rolling_mean w vs)
                       (rolling_std w (second_reading value_col w vs)))) = length vs) as Hz.
  { rewrite length_zip_with, length_zip, length_third_reading.
    unfold rolling_mean, rolling_std. rewrite !length_rolling, length_second_reading. lia. }
  split; apply fst_zip; rewrite ?length_fmap, Hz; lia.
Qed.

End TimeSeriesFacts.

Section TimeSeriesProperties.
Context (P : Pandas float) `{!ArgsortContract P}.
Local Open Scope num_scope.

(** A comparison against an undefined statistic is false. *)
Lemma z_score_undefined (v m sd threshold : float) :
  m = S754_nan ∨ sd = S754_nan →
  (num_abs ((v - m) / sd) >? threshold) = false.
Proof.
  intros [-> | ->]; simpl.
  - destruct v; simpl; by destruct threshold.
  - destruct (SFsub prec emax v m); simpl; by destruct threshold.
Qed.

(** And its z-score is undefined. *)
Lemma z_score_nan (v m sd : float) :
  m = S754_nan ∨ sd = S754_nan → (v - m) / sd = S754_nan.
Proof.
  intros [-> | ->]; simpl.
  - by destruct v.
  - by destruct (SFsub prec emax v m).
Qed.

(** C2.  On a frame with distinct labels, when the columns are found and
    dated, the function returns one flag per row; the flags carry the labels
    of the rows, each row once, in ascending order of the timestamps
    (missing ones last); and each of the first [window - 1] of them, the
    flags of the rows that have fewer than [window] rows up to them in time
    order, is false, whatever the values and the threshold. *)
Theorem first_rows_not_anomalous (df : DataFrame float) (time_col value_col : string)
    (window : Z) (threshold : float) (times : column float) (ts : list (option Z))
    (xs : list float) :
  NoDup (columns df) →
  get_column df time_col = Some times →
  get_column df value_col = Some (Numeric xs) →
  time_col ≠ value_col →
  to_datetime times = Returned ts →
  column_length times = length xs →
  (2 ≤ window)%Z →
  ∃ r, detect_time_series_anomalies df time_col value_col window threshold
       = Returned (Some r, None)
     ∧ length (ts_anomalies r) = length xs
     ∧ (ts_anomalies r).*1 = argsort ts
     ∧ (ts_anomalies r).*1 ≡ₚ seq 0 (length xs)
     ∧ Sorted key_le (take_rows (ts_anomalies r).*1 ts)
     ∧ ∀ i label b, (Z.of_nat i < window - 1)%Z →
         ts_anomalies r !! i = Some (label, b) →
         argsort ts !! i = Some label ∧ b = false.
Proof.
  intros _ Ht Hv Hne Hts Hlen Hw.
  rewrite (detect_time_series_anomalies_eq _ _ _ _ _ _ _ _ Ht Hv Hne Hts).
  case_decide; [lia|]. eexists. split; [done|].
  apply length_to_datetime in Hts. rewrite Hlen in Hts.
  pose proof (length_sorted_values ts xs Hts) as Hvs.
  assert (length (argsort ts) = length (take_rows (argsort ts) xs)) as Hidx
    by (by rewrite Hvs, (argsort_perm ts), length_seq).
  pose proof (rolling_result_index (argsort ts) value_col _ (Z.to_nat window) threshold Hidx)
    as [Hlabels _].
  split; [by rewrite length_rolling_result|].
  split; [done|]. split; [rewrite Hlabels, <- Hts; apply argsort_perm|].
  split; [rewrite Hlabels; apply argsort_sorted|].
  intros i label b Hi Hflag. split.
  - by rewrite <- Hlabels, list_lookup_fmap, Hflag.
  - apply rolling_result_flag in Hflag as (v & m & sd & _ & Hm & _ & ->).
    apply z_score_undefined. left.
    assert (S i < Z.to_nat window)%nat as Hshort by lia.
    apply (rolling_insufficient _ _ _ _ _ (or_introl Hshort) Hm).
Qed.

(** C4, as the code has it.  The window is not checked against 2 or the
    number of rows.  On a frame with distinct labels, a negative window
    makes pandas raise [ValueError]; any other window below 2 or above the
    number of rows yields a result with one flag and one z-score per row, in
    which no row is flagged and every z-score is NaN, a rolling statistic
    of every row being undefined. *)
Theorem window_unchecked (df : DataFrame float) (time_col value_col : string)
    (window : Z) (threshold : float) (times : column float) (ts : list (option Z))
    (xs : list float) :
  NoDup (columns df) →
  get_column df time_col = Some times →
  get_column df value_col = Some (Numeric xs) →
  time_col ≠ value_col →
  to_datetime times = Returned ts →
  column_length times = length xs →
  (window < 2 ∨ Z.of_nat (length xs) < window)%Z →
  ((window < 0)%Z →
     detect_time_series_anomalies df time_col value_col window threshold
     = Raised (ValueError "window must be an integer 0 or greater"))
  ∧ ((0 ≤ window)%Z →
     ∃ r, detect_time_series_anomalies df time_col value_col window threshold
          = Returned (Some r, None)
        ∧ length (ts_anomalies r) = length xs
        ∧ (∀ i label b, ts_anomalies r !! i = Some (label, b) → b = false)
        ∧ length (ts_z_scores r) = length xs
        ∧ ∀ i label z, ts_z_scores r !! i = Some (label, z) → z = S754_nan).
Proof.
  intros _ Ht Hv Hne Hts Hlen Hw.
  rewrite (detect_time_series_anomalies_eq _ _ _ _ _ _ _ _ Ht Hv Hne Hts).
  split; intros Hsign; case_decide; try lia; [done|].
  eexists. split; [done|].
  apply length_to_datetime in Hts. rewrite Hlen in Hts.
  pose proof (length_sorted_values ts xs Hts) as Hvs.
  assert (length (argsort ts) = length (take_rows (argsort ts) xs)) as Hidx
    by (by rewrite Hvs, (argsort_perm ts), length_seq).
  pose proof (rolling_result_index (argsort ts) value_col _ (Z.to_nat window) threshold Hidx)
    as [_ Hlabels].
  set (r := rolling_result _ _ _ _ _) in *.
  assert (length (ts_anomalies r) = length xs) as Hn
    by (unfold r; by rewrite length_rolling_result).
  assert (length (ts_z_scores r) = length xs) as Hnz
    by (by rewrite <- (length_fmap fst), Hlabels, Hidx).
  assert (∀ i m sd, (i < length xs)%nat →
            rolling_mean (Z.to_nat window) (take_rows (argsort ts) xs) !! i = Some m →
            rolling_std (Z.to_nat window)
              (second_reading value_col (Z.to_nat window) (take_rows (argsort ts) xs)) !! i
            = Some sd →
            m = S754_nan ∨ sd = S754_nan) as Hundefined.
  { intros i m sd Hi Hm Hsd. destruct (decide (window = 1%Z)) as [->|Hone].
    - right. apply (rolling_std_one _ _ _ Hsd).
    - left. refine (rolling_insufficient _ _ _ _ _ _ Hm). lia. }
  repeat split; [done| |done|].
  - intros i label b Hflag.
    pose proof (lookup_lt_Some _ _ _ Hflag) as Hi. rewrite Hn in Hi.
    apply rolling_result_flag in Hflag as (v & m & sd & _ & Hm & Hsd & ->).
    apply z_score_undefined; eauto.
  - intros i label z Hz.
    pose proof (lookup_lt_Some _ _ _ Hz) as Hi. rewrite Hnz in Hi.
    apply rolling_result_z_score in Hz as (v & m & sd & _ & Hm & Hsd & ->).
    apply z_score_nan; eauto.
Qed.


End TimeSeriesProperties.

(** ** The explainer *)
Section UndefinedMean.
Context {A : Type} `{!Number A} `{!Pandas A}.
Local Open Scope num_scope.

Lemma boolean_mask_all_false {T} (mask : list bool) (xs : list T) :
  Forall (λ b, b = false) mask → boolean_mask mask xs = [].
Proof.
  unfold boolean_mask. intros Hmask. revert xs.
  induction Hmask as [|b mask -> _ IH]; intros [|x xs]; simpl; try done.
  rewrite filter_cons_False by (simpl; done). apply IH.
Qed.

(** The code has no guard for an empty selection: with no anomalous row the
    mean of the anomalies is the undefined value, and what the turn of the
    loop yields for a column is decided by the comparison of the difference
    taken from it with the standard deviation of the normal rows, whatever
    the arithmetic. *)
Lemma explain_column_compares_undefined (df : DataFrame A) (mask : list bool)
    (col : string) (xs : list A) :
  Forall (λ b, b = false) mask →
  get_column df col = Some (Numeric xs) →
  let normal_col := boolean_mask (negb <$> mask) xs in
  let diff := num_abs (num_nan - series_mean normal_col) in
  series_mean (boolean_mask mask xs) = num_nan
  ∧ explain_column df mask col
    = Returned (if diff >? series_std normal_col then
                  Some (col ++ ": Anomalies have "
                          ++ (if num_nan >? series_mean normal_col then "higher" else "lower")
                          ++ " values (diff: " ++ format_2f diff ++ ")")
                else None).
Proof.
  intros Hmask Hcol. unfold explain_column. rewrite Hcol.
  rewrite (boolean_mask_all_false mask xs Hmask).
  unfold series_mean at 1 2 3 5. simpl. split; [done|].
  by destruct (_ >? _).
Qed.

End UndefinedMean.

Section ExplainerProperties.
Context (P : Pandas float).
Local Open Scope num_scope.

(** In binary64 the difference taken from an undefined mean is undefined,
    and its comparison with the standard deviation is false. *)
Lemma difference_undefined (m sd : float) :
  num_abs (S754_nan - m) = S754_nan ∧ (num_abs (S754_nan - m) >? sd) = false.
Proof. split; simpl; destruct m; simpl; try done; by destruct sd. Qed.

Lemma explain_column_no_anomalies (df : DataFrame float) (mask : list bool)
    (col : string) (xs : list float) :
  Forall (λ b, b = false) mask →
  get_column df col = Some (Numeric xs) →
  explain_column df mask col = Returned None.
Proof.
  intros Hmask Hcol.
  destruct (explain_column_compares_undefined df mask col xs Hmask Hcol) as [_ ->].
  by rewrite (proj2 (difference_undefined _ _)).
Qed.

(** C8, as the code has it.  For a frame with distinct labels and a result
    of it in which no row is labelled anomalous, [explain_anomalies] returns
    the empty list and raises nothing; it does so without a guard for the
    empty selection: for every column the result names, the mean of the
    anomalous rows is NaN, so is the difference of the two means, the
    comparison of that difference with the standard deviation of the normal
    rows is made and is false, and the turn of the loop yields no
    explanation. *)
Theorem explain_anomalies_no_anomalies (df : DataFrame float) (result : AnomalyResult float) :
  NoDup (columns df) →
  Forall (λ b, b = false) (anomalies result) →
  length (anomalies result) = nrows df →
  Forall (λ col, ∃ xs, get_column df col = Some (Numeric xs)) (numeric_cols result) →
  explain_anomalies df result = Returned []
  ∧ Forall (λ col, ∃ xs,
      get_column df col = Some (Numeric xs)
      ∧ let anomaly_mean := series_mean (boolean_mask (anomalies result) xs) in
        let normal_col := boolean_mask (negb <$> anomalies result) xs in
        let diff := num_abs (anomaly_mean - series_mean normal_col) in
        anomaly_mean = S754_nan
        ∧ diff = S754_nan
        ∧ (diff >? series_std normal_col) = false
        ∧ explain_column df (anomalies result) col = Returned None)
      (numeric_cols result).
Proof.
  intros _ Hmask Hlen Hcols. split.
  - unfold explain_anomalies. case_decide; [|done].
    assert (mapM_outcome (explain_column df (anomalies result)) (numeric_cols result)
            = Returned (replicate (length (numeric_cols result)) None)) as ->.
    { induction Hcols as [|col cols [xs Hcol] _ IH]; simpl; [done|].
      by rewrite (explain_column_no_anomalies _ _ _ _ Hmask Hcol), IH. }
    simpl. f_equal.
    induction (length (numeric_cols result)) as [|n IH]; simpl; [done|exact IH].
  - eapply Forall_impl; [exact Hcols|]. intros col [xs Hcol]. exists xs.
    destruct (explain_column_compares_undefined df (anomalies result) col xs Hmask Hcol)
      as [Hmean _].
    cbn zeta. rewrite Hmean.
    pose proof (difference_undefined
                  (series_mean (boolean_mask (negb <$> anomalies result) xs))
                  (series_std (boolean_mask (negb <$> anomalies result) xs))) as [Hd Hc].
    repeat split; try done. by apply explain_column_no_anomalies with xs.
Qed.

End ExplainerProperties.

(** ** The sanity checker *)
Section OutlierFacts.
Context {A : Type} `{!Number A} `{!Pandas A}.

Lemma outliers_step_entry (df : DataFrame A) (method col : string) (m : gmap string nat) :
  outliers_step df method m col
  = match outliers_entry df method col with Some n => <[col := n]> m | None => m end.
Proof.
  unfold outliers_step, outliers_entry.
  destruct (get_column df col) as [[xs|xs|xs]|]; try done.
  by repeat case_decide.
Qed.

Lemma foldl_outliers_lookup (df : DataFrame A) (method col : string)
    (cols : list string) (m : gmap string nat) :
  foldl (outliers_step df method) m cols !! col
  = if decide (col ∈ cols) then
      match outliers_entry df method col with Some n => Some n | None => m !! col end
    else m !! col.
Proof.
  revert m. induction cols as [|c cols IH]; intros m.
  - rewrite decide_False by apply not_elem_of_nil. done.
  - cbn [foldl]. rewrite IH, outliers_step_entry.
    destruct (decide (c = col)) as [->|Hne].
    + rewrite (decide_True (P := col ∈ col :: cols)) by left.
      destruct (outliers_entry df method col) as [n|] eqn:He.
      * case_decide; [done|]. apply lookup_insert_eq.
      * by case_decide.
    + assert (col ∈ c :: cols ↔ col ∈ cols) as Hiff.
      { rewrite elem_of_cons. intuition congruence. }
      destruct (outliers_entry df method c) as [n|];
        rewrite ?lookup_insert_ne by done;
        destruct (decide (col ∈ c :: cols)), (decide (col ∈ cols));
        solve [reflexivity | exfalso; tauto].
Qed.

Lemma get_column_numeric_columns (df : DataFrame A) (col : string) (xs : list A) :
  get_column df col = Some (Numeric xs) → col ∈ numeric_columns df.
Proof.
  intros Hcol. unfold numeric_columns.
  apply list_elem_of_fmap. exists (col, Numeric xs). split; [done|].
  apply list_elem_of_filter. split; [done|].
  induction df as [|[name c] df IH]; [done|]. cbn [get_column] in Hcol.
  case_decide as Hname.
  - injection Hcol as ->. subst. left.
  - right. by apply IH.
Qed.

Lemma detect_outliers_lookup (df : DataFrame A) (method col : string) (xs : list A) :
  get_column df col = Some (Numeric xs) →
  detect_outliers df method !! col = outliers_entry df method col.
Proof.
  intros Hcol. unfold detect_outliers. rewrite foldl_outliers_lookup.
  rewrite decide_True by (by eapply get_column_numeric_columns).
  by destruct (outliers_entry df method col).
Qed.

End OutlierFacts.

Section ZScoreProperties.
Context (P : Pandas float).
Local Open Scope num_scope.

Lemma sub_self (v : float) :
  v - v = S754_nan ∨ ∃ s, v - v = S754_zero s.
Proof.
  destruct v as [s|s| |s m e]; simpl.
  - right. destruct s; by eexists.
  - left. by destruct s.
  - by left.
  - right. rewrite Z.sub_diag. by eexists.
Qed.




End ZScoreProperties.


Section ShiftFacts.
Context {A : Type} `{!Number A} `{!Pandas A}.

Lemma get_column_relabel (g : string → column A → column A) (df : DataFrame A)
    (col : string) :
  get_column ((λ p, (p.1, g p.1 p.2)) <$> df) col = g col <$> get_column df col.
Proof.
  induction df as [|[name data] df IH]; [done|].
  rewrite fmap_cons. cbn [get_column fst snd].
  case_decide; [by subst|apply IH].
Qed.

Lemma numeric_columns_shift (col : string) (c : A) (df : DataFrame A) :
  numeric_columns (shift_column col c df) = numeric_columns df.
Proof.
  unfold numeric_columns, shift_column.
  induction df as [|[name data] df IH]; [done|].
  rewrite fmap_cons.
  assert (is_numeric (if decide (name = col) then shift c data else data)
          = is_numeric data) as Hkind.
  { case_decide; [|done]. by destruct data. }
  destruct (is_numeric data) eqn:Hnum.
  - rewrite !filter_cons_True by (cbn [fst snd]; congruence).
    rewrite !fmap_cons. cbn [fst]. by rewrite IH.
  - rewrite !filter_cons_False by (cbn [fst snd]; congruence). exact IH.
Qed.

(** The loop stores the same counts in two frames whose entries agree. *)
Lemma detect_outliers_ext (df df' : DataFrame A) (method : string) :
  numeric_columns df' = numeric_columns df →
  (∀ col, outliers_entry df' method col = outliers_entry df method col) →
  detect_outliers df' method = detect_outliers df method.
Proof.
  intros Hcols Hentry. unfold detect_outliers. rewrite Hcols.
  assert (∀ cols (m : gmap string nat),
            foldl (outliers_step df' method) m cols
            = foldl (outliers_step df method) m cols) as Hfold; [|apply Hfold].
  induction cols as [|col cols IH]; intros m; [done|].
  cbn [foldl]. rewrite !outliers_step_entry, Hentry. apply IH.
Qed.

End ShiftFacts.

(** ** Exact arithmetic: the IQR count does not see a shift *)
Section ExactShift.
Context (P : Pandas Q).
Variable c : Q.
Local Existing Instance Exact.number.
Local Open Scope Q_scope.

Ltac exact_ops :=
  cbn [num_add num_sub num_mul num_ltb num_isnan num_nan num_lit Exact.number] in *.

Lemma Qle_bool_shift (a b a' b' : Q) :
  a' == a + c → b' == b + c → Qle_bool a' b' = Qle_bool a b.
Proof.
  intros Ha Hb. apply eq_true_iff_eq. rewrite !Qle_bool_iff, Ha, Hb.
  split; intros; lra.
Qed.

Lemma ltb_shift (a b a' b' : Q) :
  a' == a + c → b' == b + c → num_ltb a' b' = num_ltb a b.
Proof. intros Ha Hb. exact_ops. f_equal. by apply Qle_bool_shift. Qed.

Lemma dropna_exact (xs : list Q) : dropna xs = xs.
Proof.
  unfold dropna. induction xs as [|x xs IH]; [done|].
  rewrite filter_cons_True by done. by rewrite IH.
Qed.

Lemma insert_sorted_shift (x : Q) (l : list Q) :
  insert_sorted (x + c) ((λ y, y + c) <$> l) = (λ y, y + c) <$> insert_sorted x l.
Proof.
  induction l as [|y l IH]; [done|].
  rewrite fmap_cons. cbn [insert_sorted].
  rewrite (ltb_shift y x (y + c) (x + c)) by reflexivity.
  destruct (num_ltb y x); [|done].
  rewrite fmap_cons. by rewrite IH.
Qed.

Lemma sort_values_shift (xs : list Q) :
  sort_values ((λ y, y + c) <$> xs) = (λ y, y + c) <$> sort_values xs.
Proof.
  unfold sort_values. induction xs as [|x xs IH]; [done|].
  rewrite fmap_cons. cbn [foldr]. by rewrite IH, insert_sorted_shift.
Qed.

Lemma length_insert_sorted (x : Q) (l : list Q) :
  length (insert_sorted x l) = S (length l).
Proof.
  induction l as [|y l IH]; [done|]. cbn [insert_sorted].
  destruct (num_ltb y x); simpl; [by rewrite IH|done].
Qed.

Lemma length_sort_values (xs : list Q) : length (sort_values xs) = length xs.
Proof.
  unfold sort_values. induction xs as [|x xs IH]; [done|].
  cbn [foldr]. by rewrite length_insert_sorted, IH.
Qed.

(** A quartile of the shifted values is the quartile shifted. *)
Lemma interpolate_shift (k : nat) (srt : list Q) :
  (k ≤ 4)%nat → (0 < length srt)%nat →
  interpolate k ((λ y, y + c) <$> srt) == interpolate k srt + c.
Proof.
  intros Hk Hpos. unfold interpolate. rewrite length_fmap.
  set (pos := (k * (length srt - 1))%nat).
  assert (pos `div` 4 < length srt)%nat as Hlo.
  { apply (Nat.le_lt_trans _ (length srt - 1)); [|lia].
    apply Nat.Div0.div_le_upper_bound. unfold pos. nia. }
  assert ((pos `div` 4 + 1) `min` (length srt - 1) < length srt)%nat as Hhi by lia.
  rewrite !list_lookup_fmap.
  destruct (lookup_lt_is_Some_2 srt _ Hlo) as [i ->].
  destruct (lookup_lt_is_Some_2 srt _ Hhi) as [j ->].
  case_decide; simpl; ring.
Qed.

Lemma quantile_shift (k : nat) (xs : list Q) :
  (k ≤ 4)%nat → xs ≠ [] →
  quantile k ((λ y, y + c) <$> xs) == quantile k xs + c.
Proof.
  intros Hk Hxs. unfold quantile.
  rewrite !dropna_exact, sort_values_shift.
  pose proof (length_sort_values xs) as Hlen.
  destruct (sort_values xs) as [|s0 s] eqn:Hs.
  { destruct xs; [done|]. simpl in Hlen. lia. }
  rewrite fmap_cons, <- (fmap_cons (λ y, y + c)).
  apply interpolate_shift; [done|simpl; lia].
Qed.

Lemma count_true_fmap {T} (p p' : T → bool) (g : T → T) (xs : list T) :
  (∀ x, p' (g x) = p x) → count_true p' (g <$> xs) = count_true p xs.
Proof.
  intros Hp. unfold count_true. induction xs as [|x xs IH]; [done|].
  rewrite fmap_cons. destruct (p x) eqn:Hx.
  - rewrite !filter_cons_True by (by rewrite ?Hp). simpl. by rewrite IH.
  - rewrite !filter_cons_False by (rewrite ?Hp; congruence). exact IH.
Qed.

Lemma iqr_outliers_shift (xs : list Q) :
  iqr_outliers ((λ y, y + c) <$> xs) = iqr_outliers xs.
Proof.
  destruct (decide (xs = [])) as [->|Hxs]; [done|].
  unfold iqr_outliers.
  pose proof (quantile_shift 1 xs ltac:(lia) Hxs) as H1.
  pose proof (quantile_shift 3 xs ltac:(lia) Hxs) as H3.
  apply count_true_fmap. intros x.
  f_equal; apply ltb_shift; try reflexivity; exact_ops; rewrite H1, H3; ring.
Qed.

(** C7, over exact arithmetic.  Where adding [c] and computing the
    quartiles and the bounds round nothing, [detect_outliers] with the IQR
    method returns the same counts for a frame and for the frame with [c]
    added to every value of one column. *)
Theorem iqr_shift_invariant_exact (df : DataFrame Q) (col : string) :
  detect_outliers (shift_column col c df) "iqr" = detect_outliers df "iqr".
Proof.
  apply detect_outliers_ext; [apply numeric_columns_shift|].
  intros name. unfold outliers_entry, shift_column.
  pose proof (get_column_relabel
                (λ n d, if decide (n = col) then shift c d else d) df name) as Hget.
  cbv beta in Hget. rewrite Hget. clear Hget.
  destruct (get_column df name) as [data|]; [|done].
  cbn [fmap option_fmap option_map].
  case_decide; [|done].
  destruct data as [xs|xs|xs]; try done. cbn [shift].
  rewrite decide_True by done. f_equal. apply iqr_outliers_shift.
Qed.

End ExactShift.

(** ** Duplicates *)

Section DuplicateProperties.
Context {K : Type} `{EqDecision K}.
Local Open Scope list_scope.

(** The table of values seen so far holds what the rows read so far hold. *)
Lemma duplicated_from_prefix (seen prefix l : list K) :
  (∀ y, y ∈ seen ↔ y ∈ prefix) →
  duplicated_from seen l = imap (λ i x, bool_decide (x ∈ prefix ++ take i l)) l.
Proof.
  revert seen prefix. induction l as [|x l IH]; intros seen prefix Hseen; [done|].
  cbn [duplicated_from imap].
  assert (imap ((λ i y, bool_decide (y ∈ prefix ++ take i (x :: l))) ∘ S) l
          = imap (λ i y, bool_decide (y ∈ (prefix ++ [x]) ++ take i l)) l) as ->.
  { apply imap_ext. intros i y _. simpl. by rewrite <- app_assoc. }
  rewrite take_0, app_nil_r.
  case_decide as Hx.
  - rewrite bool_decide_eq_true_2 by (by apply Hseen). f_equal.
    apply IH. intros y. rewrite elem_of_app, list_elem_of_singleton, <- Hseen.
    split; [by left|]. intros [?| ->]; done.
  - rewrite bool_decide_eq_false_2 by (by rewrite <- Hseen). f_equal.
    apply IH. intros y. rewrite elem_of_cons, elem_of_app, list_elem_of_singleton, Hseen.
    tauto.
Qed.

Lemma duplicated_repeats_earlier (l : list K) : duplicated l = repeats_earlier l.
Proof. unfold duplicated. by rewrite (duplicated_from_prefix [] [] l). Qed.

End DuplicateProperties.

(** C9.  The number of duplicate rows that [detect_duplicates] reports is
    the number of rows value-identical to an earlier row, a first
    occurrence never being counted; for the four people of the example it
    is 1. *)
Theorem duplicate_rows_count :
  (∀ (A : Type) (N : Number A) (df : DataFrame A),
     duplicate_rows (detect_duplicates df) = count_true id (repeats_earlier (rows df)))
  ∧ (∀ (A : Type) (N : Number A) (df : DataFrame A) (i : nat) (r : list (cell A)),
       rows df !! i = Some r →
       (duplicated (rows df) !! i = Some true ↔ ∃ j, (j < i)%nat ∧ rows df !! j = Some r))
  ∧ duplicate_rows (detect_duplicates people) = 1%nat.
Proof.
  split; [|split].
  - intros A N df. unfold detect_duplicates. simpl.
    by rewrite duplicated_repeats_earlier.
  - intros A N df i r Hr. rewrite duplicated_repeats_earlier.
    unfold repeats_earlier. rewrite list_lookup_imap, Hr. simpl. split.
    + intros [= Hdec]. apply bool_decide_eq_true in Hdec.
      apply elem_of_take in Hdec as (j & Hj & Hlt). eauto.
    + intros (j & Hlt & Hj). f_equal. apply bool_decide_eq_true.
      apply elem_of_take. eauto.
  - by vm_compute.
Qed.

(** ** The properties at concrete frames *)

(** C1 at the frame of the repository's test: one column of text. *)
Lemma detect_anomalies_no_numeric_columns_witness :
  detect_anomalies text_only "Isolation Forest" one_half []
  = Ret (None, Some NoNumericDataError)
  ∧ ∀ S (h : handler (sklearn float) S) (s : S),
      run h (detect_anomalies text_only "Isolation Forest" one_half []) s
      = (Returned (None, Some NoNumericDataError), s).
Proof.
  apply (detect_anomalies_no_numeric_columns text_only "Isolation Forest" one_half []).
  reflexivity.
Defined.

(** C10 at the algorithm name ["KMeans"]. *)
Lemma detect_anomalies_unknown_algorithm_witness :
  (∃ e, (run Double.library (detect_anomalies one_to_hundred "KMeans" one_half [])
           Double.start).1 = Raised e)
  ∧ ∀ scaler s1 X_scaled s2,
      Double.library _ StandardScaler Double.start = (Returned scaler, s1) →
      Double.library _ (fit_transform scaler
                          (values one_to_hundred (numeric_columns one_to_hundred))) s1
      = (Returned X_scaled, s2) →
      run Double.library (detect_anomalies one_to_hundred "KMeans" one_half [])
        Double.start
      = (Raised (UnboundLocalError "predictions"), s2).
Proof.
  apply (detect_anomalies_unknown_algorithm Double.library Double.start
           one_to_hundred "KMeans" one_half []); discriminate.
Defined.



(** C2 at three daily readings out of order and a window of three, sorted
    as numpy sorts them. *)
Lemma first_rows_not_anomalous_witness :
  ∃ r, @detect_time_series_anomalies _ _ Numpy.pandas late_entries "date" "value" 3 (f64 2)
       = Returned (Some r, None)
     ∧ length (ts_anomalies r) = 3%nat
     ∧ (ts_anomalies r).*1 = [1; 2; 0]%nat
     ∧ (ts_anomalies r).*1 ≡ₚ seq 0 3
     ∧ Sorted key_le (take_rows (ts_anomalies r).*1
                        [Some 172800000000000%Z; Some 0%Z; Some 86400000000000%Z])
     ∧ ∀ i label b, (Z.of_nat i < 3 - 1)%Z →
         ts_anomalies r !! i = Some (label, b) →
         [1; 2; 0]%nat !! i = Some label ∧ b = false.
Proof.
  apply (@first_rows_not_anomalous Numpy.pandas numpy_contract late_entries "date" "value"
           3 (f64 2)
           (Datetime [Some 172800000000000%Z; Some 0%Z; Some 86400000000000%Z])
           [Some 172800000000000%Z; Some 0%Z; Some 86400000000000%Z]
           [f64 3; f64 1; f64 2]);
    [apply (bool_decide_unpack _); by vm_compute
    |reflexivity|reflexivity|discriminate|reflexivity|reflexivity|lia].
Defined.

(** C4, refuted as stated: a window of 5 on three rows, and a
    window of 1, are answered with a result and no error. *)
Lemma window_out_of_range_accepted :
  nrows three_days = 3%nat
  ∧ (∃ r, @detect_time_series_anomalies _ _ Naive.pandas three_days "date" "value" 5 (f64 2)
          = Returned (Some r, None)
        ∧ (ts_anomalies r).*2 = [false; false; false])
  ∧ (∃ r, @detect_time_series_anomalies _ _ Naive.pandas three_days "date" "value" 1 (f64 2)
          = Returned (Some r, None)
        ∧ (ts_anomalies r).*2 = [false; false; false]).
Proof.
  split; [reflexivity|]. split; eexists; (split; [vm_compute; reflexivity|reflexivity]).
Qed.

(** C4, as the code has it, at the window of 5. *)
Lemma window_unchecked_witness :
  ((5 < 0)%Z →
     @detect_time_series_anomalies _ _ Naive.pandas three_days "date" "value" 5 (f64 2)
     = Raised (ValueError "window must be an integer 0 or greater"))
  ∧ ((0 ≤ 5)%Z →
     ∃ r, @detect_time_series_anomalies _ _ Naive.pandas three_days "date" "value" 5 (f64 2)
          = Returned (Some r, None)
        ∧ length (ts_anomalies r) = 3%nat
        ∧ (∀ i label b, ts_anomalies r !! i = Some (label, b) → b = false)
        ∧ length (ts_z_scores r) = 3%nat
        ∧ ∀ i label z, ts_z_scores r !! i = Some (label, z) → z = S754_nan).
Proof.
  apply (@window_unchecked Naive.pandas pandas_contract three_days "date" "value" 5 (f64 2)
           (Datetime [Some 0%Z; Some 86400000000000%Z; Some 172800000000000%Z])
           [Some 0%Z; Some 86400000000000%Z; Some 172800000000000%Z]
           [f64 1; f64 2; f64 3]);
    [apply (bool_decide_unpack _); by vm_compute
    |reflexivity|reflexivity|discriminate|reflexivity|reflexivity|simpl; lia].
Defined.


(** Nor does the contract of [argsort] keep ties in order: a sort that
    meets it may put the second of two rows with one timestamp first. *)
Lemma contract_allows_reversed_ties :
  ArgsortContract Naive.pandas_reversing_ties
  ∧ get_column same_instant "date" = Some (Datetime [Some 0%Z; Some 0%Z])
  ∧ ∃ r, @detect_time_series_anomalies _ _ Naive.pandas_reversing_ties
           same_instant "date" "value" 2 (f64 2)
         = Returned (Some r, None)
       ∧ (ts_rolling_mean r).*1 = [1; 0]%nat
       ∧ ts_rolling_mean r = [(1%nat, S754_nan); (0%nat, of_Z2 3 (-1))].
Proof.
  split; [apply pandas_reversing_ties_contract|]. split; [reflexivity|].
  eexists. split; [vm_compute; reflexivity|]. split; reflexivity.
Qed.



(** C7, refuted as stated.  The values 0, 2, 4 and 14 have no
    outlier (14 lies on the upper bound).  Adding [2^53] to each is exact,
    but the quartiles of the sums are rounded to [2^53 + 2] and [2^53 + 6],
    the upper bound drops to [2^53 + 12], and the last row is counted.
    And added to 1, 2, 3, 4, 5 and 100, the constant [10^20] absorbs them:
    the one outlier of that column is no longer counted. *)
Lemma iqr_shift_changes_count :
  get_column (shift_column "value" (f64 (2 ^ 53)) evens) "value"
  = Some (Numeric [f64 (2 ^ 53); f64 (2 ^ 53 + 2); f64 (2 ^ 53 + 4); f64 (2 ^ 53 + 14)])
  ∧ @detect_outliers _ _ Naive.pandas evens "iqr" !! "value" = Some 0%nat
  ∧ @detect_outliers _ _ Naive.pandas
      (shift_column "value" (f64 (2 ^ 53)) evens) "iqr" !! "value" = Some 1%nat
  ∧ @detect_outliers _ _ Naive.pandas one_to_hundred "iqr" !! "value" = Some 1%nat
  ∧ @detect_outliers _ _ Naive.pandas
      (shift_column "value" (f64 (10 ^ 20)) one_to_hundred) "iqr" !! "value" = Some 0%nat.
Proof. repeat split; by vm_compute. Qed.

(** C8, refuted as stated: the comparison with the undefined mean is made.
    The result names the column of six values and labels every row normal.
    In binary64 the mean of the empty selection is NaN, the difference of
    the means is NaN, its comparison with the standard deviation of the six
    values is false, and the list of explanations is empty; where a
    comparison with NaN answers true instead, the same code returns an
    explanation, which it could not had the comparison been skipped. *)
Lemma undefined_mean_compared :
  Forall (λ b, b = false) (anomalies all_normal)
  ∧ get_column one_to_hundred "value"
    = Some (Numeric [f64 1; f64 2; f64 3; f64 4; f64 5; f64 100])
  ∧ (let xs := [f64 1; f64 2; f64 3; f64 4; f64 5; f64 100] in
     let anomaly_mean :=
       @series_mean _ _ Naive.pandas (boolean_mask (anomalies all_normal) xs) in
     let normal_col := boolean_mask (negb <$> anomalies all_normal) xs in
     let diff := num_abs (anomaly_mean - @series_mean _ _ Naive.pandas normal_col)%num in
     anomaly_mean = S754_nan
     ∧ normal_col = xs
     ∧ diff = S754_nan
     ∧ (diff >? @series_std _ _ Naive.pandas normal_col)%num = false)
  ∧ @explain_anomalies _ Float64.number Naive.pandas one_to_hundred all_normal = Returned []
  ∧ @explain_anomalies _ nan_above Naive.pandas one_to_hundred all_normal
    = Returned ["value: Anomalies have higher values (diff: nan)"].
Proof. split; [repeat constructor|]. repeat split; by vm_compute. Qed.

(** C8, as the code has it, at that result. *)
Lemma explain_anomalies_no_anomalies_witness :
  @explain_anomalies _ _ Naive.pandas one_to_hundred all_normal = Returned []
  ∧ Forall (λ col, ∃ xs,
      get_column one_to_hundred col = Some (Numeric xs)
      ∧ let anomaly_mean :=
          @series_mean _ _ Naive.pandas (boolean_mask (anomalies all_normal) xs) in
        let normal_col := boolean_mask (negb <$> anomalies all_normal) xs in
        let diff := num_abs (anomaly_mean - @series_mean _ _ Naive.pandas normal_col)%num in
        anomaly_mean = S754_nan
        ∧ diff = S754_nan
        ∧ (diff >? @series_std _ _ Naive.pandas normal_col)%num = false
        ∧ @explain_column _ _ Naive.pandas one_to_hundred (anomalies all_normal) col
          = Returned None)
      ["value"].
Proof.
  apply (explain_anomalies_no_anomalies Naive.pandas one_to_hundred all_normal).
  - apply (bool_decide_unpack _). by vm_compute.
  - repeat constructor.
  - reflexivity.
  - repeat constructor. by eexists.
Defined.

(** The run behind C10: the scaler is created and fitted, then the unbound
    variable is read. *)
Example unknown_algorithm_run :
  run Double.library (detect_anomalies one_to_hundred "KMeans" one_half []) Double.start
  = (Raised (UnboundLocalError "predictions"), (1%nat, ["StandardScaler"; "fit_transform"])).
Proof. reflexivity. Qed.

(** The IQR example of the specification, in both arithmetics: of 1, 2, 3,
    4, 5 and 100 only 100 lies outside the bounds. *)
Example iqr_one_to_hundred :
  @detect_outliers _ _ Naive.pandas one_to_hundred "iqr" !! "value" = Some 1%nat
  ∧ @iqr_outliers _ Exact.number [1; 2; 3; 4; 5; 100]%Q = 1%nat.
Proof. split; by vm_compute. Qed.

(** * Further properties of the code *)

(** ** The consistency rules *)
Section ConsistencyFacts.
Context {A : Type} `{!Number A}.
Local Open Scope list_scope.

Lemma negatives_step_issue (df : DataFrame A) (issues : list string) (col : string) :
  negatives_step df issues col
  = issues ++ match negatives_issue df col with Some issue => [issue] | None => [] end.
Proof.
  unfold negatives_step, negatives_issue.
  destruct (checked_name col); [|by rewrite app_nil_r].
  destruct (get_column df col) as [[xs|xs|xs]|]; try by rewrite app_nil_r.
  case_decide; [done|by rewrite app_nil_r].
Qed.

Lemma foldl_negatives_step (df : DataFrame A) (cols : list string) (issues : list string) :
  foldl (negatives_step df) issues cols = issues ++ omap (negatives_issue df) cols.
Proof.
  revert issues. induction cols as [|col cols IH]; intros issues; cbn [foldl].
  - by rewrite app_nil_r.
  - rewrite IH, negatives_step_issue, <- app_assoc. cbn [omap list_omap].
    by destruct (negatives_issue df col).
Qed.

Lemma future_step_issue (df : DataFrame A) (now : nat → Z) (issues : list string)
    (reads : nat) (col : string) :
  future_step df now (issues, reads) col
  = (issues ++ match future_issue df (now reads) col with
               | Some issue => [issue]
               | None => []
               end, S reads).
Proof.
  unfold future_step, future_issue.
  destruct (get_column df col) as [[xs|xs|xs]|]; try by rewrite app_nil_r.
  case_decide; [done|by rewrite app_nil_r].
Qed.

(** The second loop reads the clock once for each column. *)
Lemma foldl_future_step (df : DataFrame A) (now : nat → Z) (cols : list string)
    (issues : list string) (reads : nat) :
  foldl (future_step df now) (issues, reads) cols
  = (issues ++ omap (λ p, future_issue df (now p.1) p.2)
                 (imap (λ i col, ((reads + i)%nat, col)) cols),
     (reads + length cols)%nat).
Proof.
  revert issues reads. induction cols as [|col cols IH]; intros issues reads.
  - cbn. by rewrite app_nil_r, Nat.add_0_r.
  - cbn [foldl imap omap list_omap length]. rewrite future_step_issue, IH. cbn [fst snd].
    rewrite Nat.add_0_r, <- app_assoc.
    replace (S reads + length cols)%nat with (reads + S (length cols))%nat by lia.
    f_equal. f_equal.
    assert (imap (λ i c, ((S reads + i)%nat, c)) cols
            = imap ((λ i c, ((reads + i)%nat, c)) ∘ S) cols) as ->.
    { apply imap_ext. intros i c _. simpl. f_equal. lia. }
    by destruct (future_issue df (now reads) col).
Qed.

Lemma check_data_consistency_issues (df : DataFrame A) (now : nat → Z) :
  check_data_consistency df now
  = omap (negatives_issue df) (numeric_columns df)
    ++ omap (λ p, future_issue df (now p.1) p.2) (imap pair (datetime_columns df)).
Proof.
  unfold check_data_consistency.
  by rewrite foldl_negatives_step, foldl_future_step.
Qed.

Lemma elem_of_imap_pair {T} (l : list T) (k : nat) (x : T) :
  (k, x) ∈ imap pair l ↔ l !! k = Some x.
Proof.
  rewrite list_elem_of_lookup. setoid_rewrite list_lookup_imap. split.
  - intros [i Hi]. destruct (l !! i) as [y|] eqn:E; simpl in Hi; [|done].
    by injection Hi as <- <-.
  - intros Hk. exists k. by rewrite Hk.
Qed.

End ConsistencyFacts.

(** X1.  For a frame with distinct labels, where [df[col]] is one column,
    an issue is in the list [check_data_consistency] returns exactly when
    a rule produced it: a numeric column whose label, in lower case,
    contains "age", "count" or "price" holds that many values below zero
    (at least one), or a datetime column holds that many timestamps after
    the reading of the clock made for it (at least one). *)
Theorem consistency_issue_iff {A : Type} `{!Number A} (df : DataFrame A) (now : nat → Z)
    (issue : string) :
  NoDup (columns df) →
  issue ∈ check_data_consistency df now
  ↔ (∃ col xs, col ∈ numeric_columns df ∧ checked_name col = true
             ∧ get_column df col = Some (Numeric xs)
             ∧ (0 < negatives xs)%nat
             ∧ issue = negative_message col (negatives xs))
    ∨ (∃ k col ts, datetime_columns df !! k = Some col
                 ∧ get_column df col = Some (Datetime ts)
                 ∧ (0 < count_true (is_future (now k)) ts)%nat
                 ∧ issue = future_message col (count_true (is_future (now k)) ts)).
Proof.
  intros _.
  rewrite check_data_consistency_issues, elem_of_app, !list_elem_of_omap.
  apply Morphisms_Prop.or_iff_morphism.
  - unfold negatives_issue. split.
    + intros (col & Hcol & Hissue).
      destruct (checked_name col) eqn:Hname; [|done].
      destruct (get_column df col) as [[xs|xs|xs]|] eqn:Hget; try done.
      case_decide; [|done]. injection Hissue as <-. by exists col, xs.
    + intros (col & xs & Hcol & Hname & Hget & Hpos & ->).
      exists col. split; [done|]. rewrite Hname, Hget. by rewrite decide_True.
  - unfold future_issue. split.
    + intros ([k col] & Hcol & Hissue). apply elem_of_imap_pair in Hcol.
      cbn [fst snd] in Hissue.
      destruct (get_column df col) as [[xs|xs|ts]|] eqn:Hget; try done.
      case_decide; [|done]. injection Hissue as <-. by exists k, col, ts.
    + intros (k & col & ts & Hcol & Hget & Hpos & ->).
      exists (k, col). split; [by apply elem_of_imap_pair|].
      cbn [fst snd]. rewrite Hget. by rewrite decide_True.
Qed.

Lemma consistency_issue_iff_witness :
  "Future dates in answered: 1 rows" ∈ check_data_consistency survey (λ _, 10%Z)
  ↔ (∃ col xs, col ∈ numeric_columns survey ∧ checked_name col = true
             ∧ get_column survey col = Some (Numeric xs)
             ∧ (0 < negatives xs)%nat
             ∧ "Future dates in answered: 1 rows" = negative_message col (negatives xs))
    ∨ (∃ k col ts, datetime_columns survey !! k = Some col
                 ∧ get_column survey col = Some (Datetime ts)
                 ∧ (0 < count_true (is_future ((λ _ : nat, 10%Z) k)) ts)%nat
                 ∧ "Future dates in answered: 1 rows"
                   = future_message col (count_true (is_future ((λ _ : nat, 10%Z) k)) ts)).
Proof.
  apply (consistency_issue_iff survey (λ _, 10%Z) "Future dates in answered: 1 rows").
  apply (bool_decide_unpack _). by vm_compute.
Defined.

Lemma append_cons (a : ascii) (s t : string) : String a s ++ t = String a (s ++ t).
Proof. reflexivity. Qed.

Lemma startswith_app (word rest : string) : startswith (word ++ rest) word = true.
Proof.
  induction word as [|a word IH]; [by destruct rest|].
  rewrite append_cons. cbn [startswith]. by rewrite bool_decide_eq_true_2, IH.
Qed.

Lemma contains_startswith (word s : string) :
  startswith s word = true → contains word s = true.
Proof. intros Hs. destruct s; cbn [contains]; by rewrite Hs. Qed.

Lemma contains_app (word before after : string) :
  contains word (before ++ word ++ after) = true.
Proof.
  induction before as [|a before IH].
  - change (EmptyString ++ word ++ after) with (word ++ after).
    apply contains_startswith, startswith_app.
  - rewrite append_cons. cbn [contains]. rewrite IH. apply orb_true_r.
Qed.

(** X2.  The first rule goes by the label alone: in a frame with distinct
    labels, every numeric column whose label, in lower case, holds "age",
    "count" or "price" anywhere in it is reported with the number of its
    values below zero, once there is one. *)
Theorem negative_values_reported {A : Type} `{!Number A} (df : DataFrame A)
    (now : nat → Z) (col word before after : string) (xs : list A) :
  NoDup (columns df) →
  word ∈ ["age"; "count"; "price"] →
  lower col = before ++ word ++ after →
  get_column df col = Some (Numeric xs) →
  (0 < negatives xs)%nat →
  negative_message col (negatives xs) ∈ check_data_consistency df now.
Proof.
  intros _ Hword Hlabel Hget Hpos.
  rewrite check_data_consistency_issues, elem_of_app. left.
  apply list_elem_of_omap. exists col. split.
  - by eapply get_column_numeric_columns.
  - unfold negatives_issue, checked_name. rewrite Hlabel, Hget.
    assert (contains "age" (before ++ word ++ after)
            || contains "count" (before ++ word ++ after)
            || contains "price" (before ++ word ++ after) = true) as ->.
    { repeat (apply elem_of_cons in Hword as [->|Hword]);
        [| | |by apply elem_of_nil in Hword];
        rewrite contains_app; by rewrite ?orb_true_r. }
    by rewrite decide_True.
Qed.

Lemma negative_values_reported_witness :
  negative_message "Percentage" (negatives [f64 10; f64 (-3)])
  ∈ check_data_consistency survey (λ _, 10%Z).
Proof.
  apply (negative_values_reported survey (λ _, 10%Z) "Percentage" "age" "percent"
           EmptyString
           [f64 10; f64 (-3)]).
  - apply (bool_decide_unpack _). by vm_compute.
  - apply elem_of_cons. by left.
  - reflexivity.
  - reflexivity.
  - vm_compute. lia.
Defined.

(** X3.  The clock is read once for each datetime column, and for nothing
    else: on a frame with distinct labels, two clocks that agree on that
    many readings give the same issues. *)
Theorem clock_read_once_per_datetime_column {A : Type} `{!Number A} (df : DataFrame A)
    (now now' : nat → Z) :
  NoDup (columns df) →
  (∀ k, (k < length (datetime_columns df))%nat → now k = now' k) →
  check_data_consistency df now = check_data_consistency df now'.
Proof.
  intros _ Hagree. rewrite !check_data_consistency_issues. f_equal.
  assert (∀ p, p ∈ imap pair (datetime_columns df) →
               future_issue df (now p.1) p.2 = future_issue df (now' p.1) p.2) as Hsame.
  { intros [k col] Hp. apply elem_of_imap_pair in Hp. cbn [fst snd].
    rewrite Hagree; [done|]. by eapply lookup_lt_Some. }
  induction (imap pair (datetime_columns df)) as [|p l IH]; [done|].
  cbn [omap list_omap]. rewrite Hsame by left.
  rewrite IH; [done|]. intros q Hq. apply Hsame. by right.
Qed.

Lemma clock_read_once_per_datetime_column_witness :
  check_data_consistency survey (λ _, 10%Z)
  = check_data_consistency survey (λ k, if decide (k = 0%nat) then 10%Z else 0%Z).
Proof.
  apply (clock_read_once_per_datetime_column survey (λ _, 10%Z)
           (λ k, if decide (k = 0%nat) then 10%Z else 0%Z)).
  - apply (bool_decide_unpack _). by vm_compute.
  - intros k Hk. destruct k; [reflexivity|]. simpl in Hk. lia.
Defined.

(** The issues of the two example frames: the rule for dates comes second
    whatever the order of the columns, and the balance is not looked at. *)
Example consistency_examples :
  check_data_consistency patients (λ _, 0%Z)
  = ["Negative values in age: 1 rows"; "Negative values in price: 1 rows"]
  ∧ check_data_consistency survey (λ _, 10%Z)
    = ["Negative values in Percentage: 1 rows"; "Future dates in answered: 1 rows"].
Proof. split; by vm_compute. Qed.

(** ** More on [detect_outliers] *)
Section OutlierMethodFacts.
Context {A : Type} `{!Number A} `{!Pandas A}.

(** Under a method name the loop does not know, a turn stores nothing. *)
Lemma foldl_outliers_unknown (df : DataFrame A) (method : string) (cols : list string)
    (m : gmap string nat) :
  method ≠ "iqr" → method ≠ "zscore" →
  foldl (outliers_step df method) m cols = m.
Proof.
  intros Hiqr Hz. induction cols as [|col cols IH]; [done|].
  cbn [foldl]. rewrite outliers_step_entry.
  assert (outliers_entry df method col = None) as ->; [|exact IH].
  unfold outliers_entry. destruct (get_column df col) as [[xs|xs|xs]|]; try done.
  by rewrite !decide_False.
Qed.

(** With distinct labels, [df[col]] of a numeric label is its column. *)
Lemma numeric_columns_get_column (df : DataFrame A) (col : string) :
  NoDup (columns df) → col ∈ numeric_columns df →
  ∃ xs, get_column df col = Some (Numeric xs).
Proof.
  unfold columns, numeric_columns.
  induction df as [|[name c] df IH]; intros Hnd Hin.
  - by apply elem_of_nil in Hin.
  - rewrite fmap_cons in Hnd. apply NoDup_cons in Hnd as [Hname Hnd].
    cbn [get_column]. case_decide as Heq.
    + subst. destruct c as [xs|xs|xs]; [by eexists|..];
        (rewrite filter_cons_False in Hin by (cbn [fst snd is_numeric]; congruence);
         exfalso; apply Hname; cbn [fst];
         apply list_elem_of_fmap in Hin as ([n' c'] & -> & Hin);
         apply list_elem_of_filter in Hin as [_ Hin];
         apply list_elem_of_fmap; by exists (n', c')).
    + apply IH; [done|].
      destruct (is_numeric c) eqn:Hc.
      * rewrite filter_cons_True in Hin by (cbn [fst snd]; congruence).
        rewrite fmap_cons in Hin. apply elem_of_cons in Hin as [Hin|Hin]; [|done].
        cbn [fst] in Hin. congruence.
      * by rewrite filter_cons_False in Hin by (cbn [fst snd]; congruence).
Qed.

Lemma detect_outliers_entry (df : DataFrame A) (method col : string) (n : nat) :
  detect_outliers df method !! col = Some n → outliers_entry df method col = Some n.
Proof.
  unfold detect_outliers. rewrite foldl_outliers_lookup.
  case_decide; [|by rewrite lookup_empty].
  destruct (outliers_entry df method col); [done|by rewrite lookup_empty].
Qed.

End OutlierMethodFacts.

(** X4.  A method name other than "iqr" and "zscore" is not refused:
    [detect_outliers] returns the empty dictionary for it, whatever the
    frame. *)
Theorem detect_outliers_unknown_method {A : Type} `{!Number A} `{!Pandas A}
    (df : DataFrame A) (method : string) :
  method ≠ "iqr" → method ≠ "zscore" → detect_outliers df method = ∅.
Proof. intros Hiqr Hz. by apply foldl_outliers_unknown. Qed.

Lemma detect_outliers_unknown_method_witness :
  @detect_outliers _ _ Naive.pandas one_to_hundred "mad" = ∅.
Proof.
  apply (@detect_outliers_unknown_method _ _ Naive.pandas one_to_hundred "mad");
    discriminate.
Defined.

(** X5.  Of the two methods the page of the sanity checker offers, "IQR"
    reaches the IQR method, and "Z-Score" reaches no method: in lower case
    it is "z-score", not "zscore", and the outliers shown are the empty
    dictionary for every frame. *)
Theorem z_score_option_counts_nothing {A : Type} `{!Number A} `{!Pandas A}
    (df : DataFrame A) :
  Forall (λ outlier_method,
            outlier_check df outlier_method
            = if decide (outlier_method = "IQR") then detect_outliers df "iqr" else ∅)
    outlier_methods.
Proof.
  repeat constructor.
  unfold outlier_check. by apply foldl_outliers_unknown.
Qed.

(** X6.  With distinct labels and one of the two methods, the dictionary
    has an entry for each numeric column and for no other label. *)
Theorem detect_outliers_keys {A : Type} `{!Number A} `{!Pandas A}
    (df : DataFrame A) (method col : string) :
  NoDup (columns df) →
  method = "iqr" ∨ method = "zscore" →
  is_Some (detect_outliers df method !! col) ↔ col ∈ numeric_columns df.
Proof.
  intros Hnd Hmethod. unfold detect_outliers. rewrite foldl_outliers_lookup. split.
  - case_decide; [done|]. rewrite lookup_empty. by intros [? ?].
  - intros Hin. rewrite decide_True by done.
    destruct (numeric_columns_get_column df col Hnd Hin) as [xs Hget].
    unfold outliers_entry. rewrite Hget.
    destruct Hmethod as [-> | ->]; by repeat case_decide.
Qed.

Lemma detect_outliers_keys_witness :
  is_Some (@detect_outliers _ _ Naive.pandas people "iqr" !! "age")
  ↔ "age" ∈ numeric_columns people.
Proof.
  apply (@detect_outliers_keys _ _ Naive.pandas people "iqr" "age").
  - apply (bool_decide_unpack _). by vm_compute.
  - by left.
Defined.

Section MissingValues.
Context (P : Pandas float).
Local Open Scope num_scope.

Lemma count_true_le_filter {T} (p : T → bool) (q : T → Prop) `{!∀ x, Decision (q x)}
    (xs : list T) :
  (∀ x, p x = true → q x) → (count_true p xs ≤ length (filter q xs))%nat.
Proof.
  intros Hpq. unfold count_true. induction xs as [|x xs IH]; [done|].
  destruct (p x) eqn:Hp.
  - rewrite filter_cons_True by done. rewrite (filter_cons_True q) by auto.
    simpl. lia.
  - rewrite filter_cons_False by congruence.
    destruct (decide (q x)).
    + rewrite (filter_cons_True q) by done. simpl. lia.
    + by rewrite (filter_cons_False q) by done.
Qed.

Lemma count_true_compose {T U} (p : U → bool) (f : T → U) (xs : list T) :
  count_true p (f <$> xs) = count_true (p ∘ f) xs.
Proof.
  unfold count_true. induction xs as [|x xs IH]; [done|].
  rewrite fmap_cons. destruct (p (f x)) eqn:Hp.
  - rewrite !filter_cons_True by done. simpl. by rewrite IH.
  - rewrite !filter_cons_False by (simpl; congruence). exact IH.
Qed.

(** NaN is below nothing and above nothing. *)
Lemma ltb_nan_l (y : float) : (S754_nan <? y) = false.
Proof. reflexivity. Qed.

Lemma ltb_nan_r (x : float) : (x <? S754_nan) = false.
Proof. by destruct x. Qed.

Lemma iqr_outliers_le_dropna (xs : list float) :
  (iqr_outliers xs ≤ length (dropna xs))%nat.
Proof.
  unfold iqr_outliers, dropna. apply count_true_le_filter.
  intros x Hx. destruct x; try reflexivity.
  by rewrite ltb_nan_l, ltb_nan_r in Hx.
Qed.

Lemma zscore_outliers_le_dropna (xs : list float) :
  (zscore_outliers xs ≤ length (dropna xs))%nat.
Proof.
  unfold zscore_outliers, dropna. rewrite count_true_compose.
  apply count_true_le_filter.
  intros x Hx. destruct x; try reflexivity.
  cbn [compose] in Hx.
  change (S754_nan - series_mean xs) with (S754_nan : float) in Hx.
  change (S754_nan / series_std xs) with (S754_nan : float) in Hx.
  by rewrite ltb_nan_r in Hx.
Qed.

(** X7.  A missing value is never counted as an outlier, by either method:
    in a frame with distinct labels, a count stored for a column is at most
    the number of its values that are not NaN. *)
Theorem missing_values_never_outliers (df : DataFrame float) (method col : string)
    (n : nat) :
  NoDup (columns df) →
  detect_outliers df method !! col = Some n →
  ∃ xs, get_column df col = Some (Numeric xs) ∧ (n ≤ length (dropna xs) ≤ length xs)%nat.
Proof.
  intros _ Hn. apply detect_outliers_entry in Hn. unfold outliers_entry in Hn.
  destruct (get_column df col) as [[xs|xs|xs]|]; try done.
  exists xs. split; [done|]. split; [|apply length_dropna_le].
  repeat case_decide; try done; injection Hn as <-.
  - apply iqr_outliers_le_dropna.
  - apply zscore_outliers_le_dropna.
Qed.

End MissingValues.

Lemma missing_values_never_outliers_witness :
  ∃ xs, get_column gaps "value" = Some (Numeric xs)
      ∧ (1 ≤ length (@dropna _ Float64.number xs) ≤ length xs)%nat.
Proof.
  apply (missing_values_never_outliers Naive.pandas gaps "iqr" "value" 1).
  - apply (bool_decide_unpack _). by vm_compute.
  - by vm_compute.
Defined.

(** ** The IQR method on a column of equal values *)
Section ConstantColumn.
Context (P : Pandas float).
Local Open Scope num_scope.

Lemma compare_self (v : float) : v ≠ S754_nan → SFcompare v v = Some Eq.
Proof.
  destruct v as [s|s| |s m e]; try done; try by destruct s.
  intros _. simpl. rewrite Z.compare_refl.
  destruct s; [|apply f_equal, Pos.compare_cont_refl].
  rewrite Pos.compare_cont_refl. done.
Qed.

Lemma ltb_self (v : float) : (v <? v) = false.
Proof.
  destruct (decide (v = S754_nan)) as [->|Hv]; [done|].
  cbn [num_ltb Float64.number]. unfold SFltb. by rewrite compare_self.
Qed.

Lemma indistinct_ltb (v q : float) :
  indistinct v q → (v <? q) = false ∧ (q <? v) = false.
Proof.
  intros [->|[->|[Hq Hv]]].
  - by rewrite ltb_nan_l, ltb_nan_r.
  - by rewrite ltb_self.
  - destruct q; try done. by destruct v.
Qed.

Lemma sub_indistinct (v a b : float) :
  indistinct v a → indistinct v b → zero_or_nan (b - a).
Proof.
  intros [->|[->|[Ha Hv]]] [->|[->|[Hb Hv']]]; try (by left);
    try (left; by destruct b); try (left; by destruct v).
  - destruct (sub_self v) as [?|[s ?]]; [by left|right]. by rewrite H.
  - destruct b; try done. destruct v; try done. right. simpl. by destruct s, s0.
  - destruct a; try done. destruct v; try done. right. simpl. by destruct s, s0.
  - destruct a; try done. destruct b; try done. right. simpl. by destruct s, s0.
Qed.

Lemma mul_zero_or_nan (c z : float) : zero_or_nan z → zero_or_nan (z * c) ∧ zero_or_nan (c * z).
Proof.
  intros [->|Hz].
  - split; left; [done|by destruct c].
  - destruct z; try done. destruct c; split; try (by left); try (by right).
Qed.

Lemma add_indistinct (v q z : float) :
  indistinct v q → zero_or_nan z → indistinct v (q + z) ∧ indistinct v (q - z).
Proof.
  intros Hq [->|Hz].
  - split; left; by destruct q.
  - destruct z as [sz| | |]; try done.
    destruct Hq as [->|[->|[Hq Hv]]].
    + split; by left.
    + destruct v as [s|s| |s m e].
      * split; right; right; simpl; by destruct s, sz.
      * split; right; by left.
      * split; by left.
      * split; right; by left.
    + destruct q as [s| | |]; try done.
      split; right; right; simpl; by destruct s, sz.
Qed.

Lemma interpolate_constant (k : nat) (v : float) (s : list float) :
  Forall (λ x, x = v) s → indistinct v (interpolate k s).
Proof.
  intros Hs. unfold interpolate.
  assert (∀ n, indistinct v (default num_nan (s !! n))) as Hat.
  { intros n. destruct (s !! n) as [x|] eqn:Hn; [|by left].
    right; left. simpl. by eapply (Forall_lookup_1 _ _ _ _ Hs). }
  set (i := default num_nan (s !! _)). set (j := default num_nan (s !! _)).
  assert (indistinct v i) as Hi by apply Hat.
  assert (indistinct v j) as Hj by apply Hat.
  clearbody i j.
  pose proof (sub_indistinct v i j Hi Hj) as Hji.
  pose proof (sub_indistinct v j i Hj Hi) as Hij.
  case_decide; (apply add_indistinct; [done|]);
    first [apply (proj1 (mul_zero_or_nan _ _ Hji)) | apply (proj1 (mul_zero_or_nan _ _ Hij))].
Qed.

Lemma Forall_insert_sorted (Q : float → Prop) (x : float) (l : list float) :
  Q x → Forall Q l → Forall Q (insert_sorted x l).
Proof.
  intros Hx. induction 1 as [|y l Hy Hl IH]; simpl.
  - by constructor.
  - destruct (SFltb y x); by repeat constructor.
Qed.

Lemma Forall_sort_values (Q : float → Prop) (xs : list float) :
  Forall Q xs → Forall Q (sort_values xs).
Proof.
  unfold sort_values. induction 1 as [|x xs Hx Hxs IH]; simpl; [done|].
  by apply Forall_insert_sorted.
Qed.

Lemma quantile_constant (k : nat) (v : float) (xs : list float) :
  Forall (λ x, x = v) xs → indistinct v (quantile k xs).
Proof.
  intros Hxs. unfold quantile.
  assert (Forall (λ x, x = v) (sort_values (dropna xs))) as Hs.
  { apply Forall_sort_values. unfold dropna. apply Forall_forall. intros x Hx.
    apply list_elem_of_filter in Hx as [_ Hx]. by eapply (proj1 (Forall_forall _ _) Hxs). }
  destruct (sort_values (dropna xs)) as [|s0 s] eqn:E; [by left|].
  by apply interpolate_constant.
Qed.

Lemma iqr_outliers_constant (v : float) (xs : list float) :
  Forall (λ x, x = v) xs → iqr_outliers xs = 0%nat.
Proof.
  intros Hxs. unfold iqr_outliers.
  pose proof (quantile_constant 1 v xs Hxs) as H1.
  pose proof (quantile_constant 3 v xs Hxs) as H3.
  set (Q1 := quantile 1 xs) in *. set (Q3 := quantile 3 xs) in *. clearbody Q1 Q3.
  pose proof (sub_indistinct v Q1 Q3 H1 H3) as Hiqr.
  apply (mul_zero_or_nan (num_lit 3 (-1))) in Hiqr as [_ Hiqr].
  destruct (add_indistinct v Q1 _ H1 Hiqr) as [_ Hlow].
  destruct (add_indistinct v Q3 _ H3 Hiqr) as [Hup _].
  apply indistinct_ltb in Hlow as [Hlow _]. apply indistinct_ltb in Hup as [_ Hup].
  unfold count_true. induction Hxs as [|x xs -> _ IH]; [done|].
  rewrite filter_cons_False; [exact IH|].
  rewrite Hlow, Hup. done.
Qed.

(** X8.  On a column whose values are all equal (in a frame with distinct
    labels) the IQR method counts no outlier, for every binary64 value: no
    rounding can separate the bounds from the values (the z-score method
    has no such guarantee). *)
Theorem iqr_constant_column (df : DataFrame float) (col : string) (xs : list float)
    (v : float) :
  NoDup (columns df) →
  get_column df col = Some (Numeric xs) →
  Forall (λ x, x = v) xs →
  detect_outliers df "iqr" !! col = Some 0%nat.
Proof.
  intros _ Hcol Hall.
  rewrite (detect_outliers_lookup _ _ _ _ Hcol). unfold outliers_entry.
  rewrite Hcol, decide_True by done.
  f_equal. by eapply iqr_outliers_constant.
Qed.

End ConstantColumn.

Lemma iqr_constant_column_witness :
  @detect_outliers _ _ Naive.pandas tiny_constant "iqr" !! "x" = Some 0%nat.
Proof.
  apply (iqr_constant_column Naive.pandas tiny_constant "x" [tiny; tiny; tiny] tiny).
  - apply (bool_decide_unpack _). by vm_compute.
  - reflexivity.
  - repeat constructor.
Defined.

(** ** More on [detect_duplicates] *)
Section DuplicateCounts.
Context {K : Type} `{EqDecision K}.
Local Open Scope list_scope.

Lemma length_remove_dups_equiv (l1 l2 : list K) :
  (∀ x, x ∈ l1 ↔ x ∈ l2) → length (remove_dups l1) = length (remove_dups l2).
Proof.
  intros Hsame. apply Permutation_length, NoDup_Permutation.
  - apply NoDup_remove_dups.
  - apply NoDup_remove_dups.
  - intros x. by rewrite !elem_of_remove_dups.
Qed.

Lemma remove_dups_NoDup (l : list K) : NoDup l → remove_dups l = l.
Proof.
  induction 1 as [|x l Hx _ IH]; [done|].
  simpl. destruct (decide_rel elem_of x l); [done|]. by rewrite IH.
Qed.

Lemma length_remove_dups_le (l : list K) : (length (remove_dups l) ≤ length l)%nat.
Proof.
  induction l as [|x l IH]; [done|]. simpl.
  destruct (decide_rel elem_of x l); simpl; lia.
Qed.

Lemma length_remove_dups_NoDup (l : list K) :
  length (remove_dups l) = length l ↔ NoDup l.
Proof.
  split; [|intros Hnd; by rewrite remove_dups_NoDup].
  induction l as [|x l IH]; [constructor|].
  simpl. pose proof (length_remove_dups_le l).
  destruct (decide_rel elem_of x l); simpl; [lia|].
  intros Hlen. constructor; [done|]. apply IH. lia.
Qed.

(** Every value read is either marked or new to the table. *)
Lemma count_duplicated_from (seen l : list K) :
  NoDup seen →
  (count_true id (duplicated_from seen l) + length (remove_dups (seen ++ l))
   = length seen + length l)%nat.
Proof.
  revert seen. induction l as [|x l IH]; intros seen Hnd.
  - rewrite app_nil_r, remove_dups_NoDup by done. simpl. unfold count_true. simpl. lia.
  - cbn [duplicated_from]. case_decide as Hx.
    + unfold count_true in *. rewrite filter_cons_True by done.
      specialize (IH seen Hnd).
      rewrite (length_remove_dups_equiv (seen ++ x :: l) (seen ++ l)).
      * cbn [length]. lia.
      * intros y. rewrite !elem_of_app, elem_of_cons. split; [|tauto].
        intros [?|[->|?]]; tauto.
    + unfold count_true in *. rewrite filter_cons_False by done.
      specialize (IH (x :: seen) ltac:(by constructor)).
      rewrite (length_remove_dups_equiv (seen ++ x :: l) ((x :: seen) ++ l)).
      * cbn [length] in *. lia.
      * intros y. rewrite ?elem_of_app, ?elem_of_cons, ?elem_of_app. tauto.
Qed.

Lemma count_duplicated (l : list K) :
  (count_true id (duplicated l) + length (remove_dups l) = length l)%nat.
Proof.
  unfold duplicated. apply (count_duplicated_from [] l). constructor.
Qed.

End DuplicateCounts.

Lemma length_rows {A : Type} `{!Number A} (df : DataFrame A) : length (rows df) = nrows df.
Proof. unfold rows. by rewrite length_fmap, length_seq. Qed.

(** X9.  The two counts of [detect_duplicates] and the numbers of distinct
    rows and of distinct labels add up to the numbers of rows and of
    columns: every row, and every label, is either a first occurrence or
    counted as a duplicate. *)
Theorem duplicate_counts_complement {A : Type} `{!Number A} (df : DataFrame A) :
  (duplicate_rows (detect_duplicates df) + length (remove_dups (rows df)) = nrows df)%nat
  ∧ (duplicate_columns (detect_duplicates df) + length (remove_dups (columns df))
     = length df)%nat.
Proof.
  unfold detect_duplicates. simpl. rewrite !count_duplicated, length_rows.
  split; [done|]. unfold columns. by rewrite length_fmap.
Qed.

(** X10.  [detect_duplicates] reports no duplicate row exactly when the
    rows are pairwise different, and no duplicate column exactly when the
    labels are. *)
Theorem no_duplicates_iff_distinct {A : Type} `{!Number A} (df : DataFrame A) :
  (duplicate_rows (detect_duplicates df) = 0%nat ↔ NoDup (rows df))
  ∧ (duplicate_columns (detect_duplicates df) = 0%nat ↔ NoDup (columns df)).
Proof.
  unfold detect_duplicates. simpl. split.
  - rewrite <- length_remove_dups_NoDup. pose proof (count_duplicated (rows df)). lia.
  - rewrite <- length_remove_dups_NoDup. pose proof (count_duplicated (columns df)). lia.
Qed.

(** ** More on [detect_time_series_anomalies] *)
Section TimeSeriesReplies.
Context {A : Type} `{!Number A} `{!Pandas A}.
Local Open Scope num_scope.

Lemma get_column_is_Some (df : DataFrame A) (col : string) :
  is_Some (get_column df col) ↔ col ∈ columns df.
Proof.
  split.
  - intros [c Hc]. destruct (decide (col ∈ columns df)) as [|Hout]; [done|].
    by rewrite (get_column_None df col Hout) in Hc.
  - unfold columns. induction df as [|[name c] df IH]; intros Hin.
    + by apply elem_of_nil in Hin.
    + simpl. case_decide; [by eexists|]. apply IH.
      rewrite fmap_cons in Hin. apply elem_of_cons in Hin as [Hin|Hin]; [|done].
      simpl in Hin. congruence.
Qed.

(** Past the test of the two labels, the function returns a result without
    an error, or raises. *)
Lemma detect_time_series_anomalies_found (df : DataFrame A) (time_col value_col : string)
    (window : Z) (threshold : A) (times c : column A) :
  get_column df time_col = Some times →
  get_column df value_col = Some c →
  (∃ e, detect_time_series_anomalies df time_col value_col window threshold = Raised e)
  ∨ (∃ index z_score rolling_mean rolling_std,
       detect_time_series_anomalies df time_col value_col window threshold
       = Returned (Some {| ts_anomalies := zip index ((λ z, num_abs z >? threshold) <$> z_score);
                           ts_z_scores := zip index z_score;
                           ts_rolling_mean := zip index rolling_mean;
                           ts_rolling_std := zip index rolling_std |}, None)).
Proof.
  intros Ht Hv. unfold detect_time_series_anomalies. rewrite Ht, Hv.
  destruct (to_datetime times) as [ts|e]; [|left; by eexists]. cbn [obind].
  unfold sort_rows. case_decide; [left; by eexists|].
  repeat match goal with
         | |- context [obind (numeric_values ?d ?c) _] =>
             destruct (numeric_values d c) as [?|?]; cbn [obind]; [|left; by eexists]
         end.
  right. by do 4 eexists.
Qed.

Lemma zip_fmap_snd {T U V} (f : U → V) (index : list T) (l : list U) :
  zip index (f <$> l) = (λ p, (p.1, f p.2)) <$> zip index l.
Proof.
  revert l. induction index as [|i index IH]; intros [|x l]; simpl; try done.
  by rewrite IH.
Qed.

(** A result that is returned holds the z-scores and their flags under one
    index, and comes without an error. *)
Lemma returned_result (df : DataFrame A) (time_col value_col : string) (window : Z)
    (threshold : A) (r : TimeSeriesResult A) (error : option string) :
  detect_time_series_anomalies df time_col value_col window threshold
  = Returned (Some r, error) →
  ∃ index z_score,
    ts_anomalies r = zip index ((λ z, num_abs z >? threshold) <$> z_score)
    ∧ ts_z_scores r = zip index z_score
    ∧ error = None.
Proof.
  intros Hr.
  destruct (get_column df time_col) as [times|] eqn:Ht;
    [destruct (get_column df value_col) as [c|] eqn:Hv|].
  - destruct (detect_time_series_anomalies_found df time_col value_col window threshold
                times c Ht Hv) as [[e He]|(i & z & m & sd & He)];
      rewrite He in Hr; [done|].
    injection Hr as <- <-. by exists i, z.
  - unfold detect_time_series_anomalies in Hr. by rewrite Ht, Hv in Hr.
  - unfold detect_time_series_anomalies in Hr. by rewrite Ht in Hr.
Qed.

End TimeSeriesReplies.

(** X11.  [detect_time_series_anomalies] answers with the error "Time or
    value column not found" exactly when one of the two labels is not a
    column of the frame; with both present it never returns an error
    reply. *)
Theorem column_not_found_iff {A : Type} `{!Number A} `{!Pandas A} (df : DataFrame A)
    (time_col value_col : string) (window : Z) (threshold : A) :
  (time_col ∉ columns df ∨ value_col ∉ columns df
   ↔ detect_time_series_anomalies df time_col value_col window threshold
     = Returned (None, Some ColumnNotFoundError))
  ∧ (∀ error, detect_time_series_anomalies df time_col value_col window threshold
              = Returned (None, error) → error = Some ColumnNotFoundError).
Proof.
  assert (∀ error, detect_time_series_anomalies df time_col value_col window threshold
                   = Returned (None, error) →
                   (time_col ∉ columns df ∨ value_col ∉ columns df)
                   ∧ error = Some ColumnNotFoundError) as Hreply.
  { intros error Hr.
    destruct (get_column df time_col) as [times|] eqn:Ht;
      [destruct (get_column df value_col) as [c|] eqn:Hv|].
    - destruct (detect_time_series_anomalies_found df time_col value_col window threshold
                  times c Ht Hv) as [[e He]|(i & z & m & sd & He)];
        rewrite He in Hr; done.
    - unfold detect_time_series_anomalies in Hr. rewrite Ht, Hv in Hr.
      injection Hr as <-. split; [right|done].
      rewrite <- get_column_is_Some, Hv. by intros [? ?].
    - unfold detect_time_series_anomalies in Hr. rewrite Ht in Hr.
      injection Hr as <-. split; [left|done].
      rewrite <- get_column_is_Some, Ht. by intros [? ?]. }
  split; [split|].
  - intros Hmissing. unfold detect_time_series_anomalies.
    destruct Hmissing as [Hm|Hm]; rewrite (get_column_None _ _ Hm); [done|].
    by destruct (get_column df time_col).
  - intros Hr. by apply Hreply in Hr as [? _].
  - intros error Hr. by apply Hreply in Hr as [_ ?].
Qed.

(** X12.  A value column that is not numeric is not reported by an error
    reply: in a frame with distinct labels, once the time column is
    converted and the window accepted, an exception leaves the function.
    So it does when one label is given for both columns, the column
    holding timestamps by then. *)
Theorem value_column_not_numeric_raises {A : Type} `{!Number A} `{!Pandas A}
    (df : DataFrame A) (time_col value_col : string) (window : Z) (threshold : A)
    (times c : column A) (ts : list (option Z)) :
  NoDup (columns df) →
  get_column df time_col = Some times →
  get_column df value_col = Some c →
  to_datetime times = Returned ts →
  (0 ≤ window)%Z →
  value_col = time_col ∨ is_numeric c = false →
  ∃ e, detect_time_series_anomalies df time_col value_col window threshold = Raised e.
Proof.
  intros _ Ht Hv Hts Hw Hkind. unfold detect_time_series_anomalies.
  rewrite Ht, Hv, Hts. cbn [obind]. unfold sort_rows.
  rewrite decide_False by lia.
  assert (∃ c', get_column ((λ p, (p.1, reindex (argsort ts) p.2))
                             <$> assign df time_col (Datetime ts)) value_col = Some c'
                ∧ is_numeric c' = false) as (c' & Hc' & Hnum).
  { rewrite get_column_fmap, get_column_assign.
    case_decide as Heq; [by eexists|].
    destruct Hkind as [?|Hkind]; [done|].
    rewrite Hv. eexists. split; [done|]. by destruct c. }
  unfold numeric_values at 1. rewrite Hc'. destruct c'; [done|by eexists..].
Qed.

Lemma value_column_not_numeric_raises_witness :
  ∃ e, @detect_time_series_anomalies _ _ Naive.pandas three_days "date" "date" 2 (f64 2)
       = Raised e.
Proof.
  apply (@value_column_not_numeric_raises _ _ Naive.pandas three_days "date" "date" 2 (f64 2)
           (Datetime [Some 0%Z; Some 86400000000000%Z; Some 172800000000000%Z])
           (Datetime [Some 0%Z; Some 86400000000000%Z; Some 172800000000000%Z])
           [Some 0%Z; Some 86400000000000%Z; Some 172800000000000%Z]);
    [apply (bool_decide_unpack _); by vm_compute
    |reflexivity|reflexivity|reflexivity|lia|by left].
Defined.

(** X13.  In every result the function returns, the flags are the z-scores
    compared with the threshold, row by row and under the same index
    labels. *)
Theorem flags_follow_z_scores {A : Type} `{!Number A} `{!Pandas A} (df : DataFrame A)
    (time_col value_col : string) (window : Z) (threshold : A) (r : TimeSeriesResult A)
    (error : option string) :
  detect_time_series_anomalies df time_col value_col window threshold
  = Returned (Some r, error) →
  ts_anomalies r = (λ p, (p.1, (num_abs p.2 >? threshold)%num)) <$> ts_z_scores r
  ∧ error = None.
Proof.
  intros Hr. apply returned_result in Hr as (index & z_score & -> & -> & ->).
  split; [|done]. apply (zip_fmap_snd (λ z, num_abs z >? threshold)%num).
Qed.

Lemma flags_follow_z_scores_witness :
  ∃ r, @detect_time_series_anomalies _ _ Naive.pandas three_days "date" "value" 2 (f64 2)
       = Returned (Some r, None)
     ∧ ts_anomalies r = (λ p, (p.1, (num_abs p.2 >? f64 2)%num)) <$> ts_z_scores r.
Proof.
  eexists. split; [by vm_compute|].
  refine (proj1 (@flags_follow_z_scores _ _ Naive.pandas three_days "date" "value" 2 (f64 2)
                   _ None _)).
  by vm_compute.
Defined.

Section Thresholds.
Context (P : Pandas float).
Local Open Scope num_scope.

(** Every absolute value that is not NaN lies above a negative number. *)
Lemma abs_above_negative (threshold z : float) :
  (threshold <? S754_zero false) = true →
  (num_abs z >? threshold) = negb (is_nan z).
Proof.
  intros Hneg.
  destruct threshold as [s|[|]| |[|] m e]; try done;
    destruct z as [s'|s'| |s' m' e']; done.
Qed.

(** X14.  The threshold is not validated either: with a negative threshold
    the function flags every row whose z-score is defined, whatever its
    value. *)
Theorem negative_threshold_flags_all (df : DataFrame float) (time_col value_col : string)
    (window : Z) (threshold : float) (r : TimeSeriesResult float) :
  detect_time_series_anomalies df time_col value_col window threshold
  = Returned (Some r, None) →
  (threshold <? S754_zero false) = true →
  ts_anomalies r = (λ p, (p.1, negb (is_nan p.2))) <$> ts_z_scores r.
Proof.
  intros Hr Hneg. apply returned_result in Hr as (index & z_score & -> & -> & _).
  rewrite (zip_fmap_snd (λ z : float, num_abs z >? threshold)).
  apply list_fmap_ext. intros k [label x] _. cbn [fst snd].
  by rewrite abs_above_negative.
Qed.

(** Zero over anything, and NaN, never exceed a threshold that is not
    negative. *)
Lemma z_score_of_equal (m sd threshold : float) :
  (threshold <? S754_zero false) = false →
  (num_abs ((m - m) / sd) >? threshold) = false.
Proof.
  intros Hth. destruct (sub_self m) as [->|[s ->]].
  - change (S754_nan / sd) with (S754_nan : float). apply ltb_nan_r.
  - destruct sd as [s'|s'| |s' m' e']; simpl; try apply ltb_nan_r;
      destruct threshold as [?|[|]| |[|] ? ?]; done.
Qed.

(** X15.  The rolling mean is stored in the working frame under the label
    "rolling_mean" before the value column is read again.  With a value
    column of that label (in a frame with distinct labels), the standard
    deviation is taken of the rolling means and every z-score compares the
    rolling mean with itself: no row is flagged under a threshold that is
    not negative. *)
Theorem value_column_labelled_rolling_mean (df : DataFrame float)
    (time_col : string) (window : Z) (threshold : float) (times : column float)
    (ts : list (option Z)) (xs : list float) :
  NoDup (columns df) →
  get_column df time_col = Some times →
  get_column df "rolling_mean" = Some (Numeric xs) →
  time_col ≠ "rolling_mean" →
  to_datetime times = Returned ts →
  (0 ≤ window)%Z →
  (threshold <? S754_zero false) = false →
  ∃ r, detect_time_series_anomalies df time_col "rolling_mean" window threshold
       = Returned (Some r, None)
     ∧ ts_rolling_std r
       = zip (argsort ts)
           (rolling_std (Z.to_nat window)
              (rolling_mean (Z.to_nat window) (take_rows (argsort ts) xs)))
     ∧ ∀ i label b, ts_anomalies r !! i = Some (label, b) → b = false.
Proof.
  intros _ Ht Hv Hne Hts Hw Hth.
  rewrite (detect_time_series_anomalies_eq _ _ _ _ _ _ _ _ Ht Hv Hne Hts).
  rewrite decide_False by lia. eexists. split; [done|]. split.
  - cbn [ts_rolling_std rolling_result]. unfold second_reading.
    by rewrite decide_True.
  - intros i label b Hflag.
    apply rolling_result_flag in Hflag as (v & m & sd & Hv' & Hm & _ & ->).
    unfold third_reading, second_reading in Hv'.
    rewrite decide_False, decide_True in Hv' by done.
    rewrite Hm in Hv'. injection Hv' as <-.
    by apply z_score_of_equal.
Qed.

End Thresholds.

Lemma negative_threshold_flags_all_witness :
  ∃ r, @detect_time_series_anomalies _ _ Naive.pandas three_days "date" "value" 2 (f64 (-1))
       = Returned (Some r, None)
     ∧ ts_anomalies r = (λ p, (p.1, negb (is_nan p.2))) <$> ts_z_scores r
     ∧ (ts_anomalies r).*2 = [false; true; true].
Proof.
  eexists. split; [by vm_compute|]. split; [|reflexivity].
  apply (negative_threshold_flags_all Naive.pandas three_days "date" "value" 2 (f64 (-1)));
    by vm_compute.
Defined.

Lemma value_column_labelled_rolling_mean_witness :
  ∃ r, @detect_time_series_anomalies _ _ Naive.pandas relabelled "date" "rolling_mean" 2 (f64 2)
       = Returned (Some r, None)
     ∧ ts_rolling_std r
       = zip (@argsort _ Naive.pandas
                [Some 0%Z; Some 86400000000000%Z; Some 172800000000000%Z])
           (@rolling_std _ _ Naive.pandas (Z.to_nat 2)
              (@rolling_mean _ _ Naive.pandas (Z.to_nat 2)
                 (take_rows (@argsort _ Naive.pandas
                               [Some 0%Z; Some 86400000000000%Z; Some 172800000000000%Z])
                    [f64 1; f64 2; f64 30])))
     ∧ ∀ i label b, ts_anomalies r !! i = Some (label, b) → b = false.
Proof.
  apply (value_column_labelled_rolling_mean Naive.pandas relabelled "date" 2 (f64 2)
           (Datetime [Some 0%Z; Some 86400000000000%Z; Some 172800000000000%Z])
           [Some 0%Z; Some 86400000000000%Z; Some 172800000000000%Z]
           [f64 1; f64 2; f64 30]);
    [apply (bool_decide_unpack _); by vm_compute
    |reflexivity|reflexivity|discriminate|reflexivity|lia|reflexivity].
Defined.

(** ** More on [explain_anomalies] *)
Section ExplainerFacts.
Context {A : Type} `{!Number A} `{!Pandas A}.
Local Open Scope list_scope.

Lemma mapM_outcome_Forall2 {T U} (f : T → outcome U) (l : list T) (ys : list U) :
  mapM_outcome f l = Returned ys → Forall2 (λ x y, f x = Returned y) l ys.
Proof.
  revert ys. induction l as [|x l IH]; simpl; intros ys.
  - intros [= <-]. constructor.
  - destruct (f x) as [y|] eqn:Hx; simpl; [|done].
    destruct (mapM_outcome f l) as [ys'|]; simpl; [|done].
    intros [= <-]. constructor; [done|]. by apply IH.
Qed.

Lemma mapM_outcome_returns {T U} (f : T → outcome U) (l : list T) :
  Forall (λ x, ∃ y, f x = Returned y) l → ∃ ys, mapM_outcome f l = Returned ys.
Proof.
  induction 1 as [|x l [y Hy] _ [ys IH]]; simpl; [by eexists|].
  rewrite Hy, IH. simpl. by eexists.
Qed.

Lemma mapM_outcome_all_none {T U} (f : T → outcome (option U)) (l : list T) :
  Forall (λ x, f x = Returned None) l →
  obind (mapM_outcome f l) (λ ys, Returned (omap id ys)) = Returned [].
Proof.
  induction 1 as [|x l Hx _ IH]; [done|].
  cbn [mapM_outcome]. rewrite Hx. cbn [obind].
  destruct (mapM_outcome f l) as [ys|]; cbn [obind] in *; [|done].
  injection IH as IH. cbn [omap list_omap id]. by rewrite IH.
Qed.

Lemma explain_column_numeric (df : DataFrame A) (mask : list bool) (col : string)
    (xs : list A) :
  get_column df col = Some (Numeric xs) → ∃ y, explain_column df mask col = Returned y.
Proof.
  intros Hcol. unfold explain_column. rewrite Hcol. simpl.
  destruct (num_ltb _ _); by eexists.
Qed.

Lemma explain_column_text (df : DataFrame A) (mask : list bool) (col e : string) :
  explain_column df mask col = Returned (Some e) →
  ∃ direction diff, (direction = "higher" ∨ direction = "lower")
    ∧ e = (col ++ ": Anomalies have " ++ direction ++ " values (diff: " ++ diff ++ ")")%string.
Proof.
  unfold explain_column.
  destruct (get_column df col) as [[xs|xs|xs]|]; try done. simpl.
  destruct (num_ltb _ _); [|done]. intros [= <-].
  destruct (num_ltb _ _); do 2 eexists; (split; [|reflexivity]); auto.
Qed.

Lemma omap_id_sublist {T U} (R : T → option U → Prop) (l : list T) (ys : list (option U)) :
  Forall2 R l ys →
  ∃ l', l' `sublist_of` l ∧ Forall2 (λ x y, R x (Some y)) l' (omap id ys).
Proof.
  induction 1 as [|x y l ys Hxy _ (l' & Hsub & IH)].
  - exists []. split; constructor.
  - destruct y as [y|]; cbn [omap list_omap id].
    + exists (x :: l'). split; [by constructor|by constructor].
    + exists l'. split; [by constructor|done].
Qed.

Lemma length_boolean_mask {T} (mask : list bool) (xs : list T) :
  (length (boolean_mask mask xs) ≤ count_true id mask)%nat.
Proof.
  unfold boolean_mask, count_true. rewrite length_fmap.
  revert xs. induction mask as [|b mask IH]; intros [|x xs]; cbn [zip zip_with];
    try (cbn [filter list_filter length]; lia).
  destruct b.
  - rewrite !filter_cons_True by done. cbn [length]. specialize (IH xs). lia.
  - rewrite !filter_cons_False by done. apply IH.
Qed.

End ExplainerFacts.

(** X16.  The explanations come one for a column at most, in the order of
    the columns the result names, each with the label of its column, the
    word "higher" or "lower" and the difference of the means. *)
Theorem explanations_per_column {A : Type} `{!Number A} `{!Pandas A}
    (df : DataFrame A) (result : AnomalyResult A) (explanations : list string) :
  explain_anomalies df result = Returned explanations →
  ∃ cols, cols `sublist_of` numeric_cols result
    ∧ Forall2 (λ col e,
                 ∃ direction diff, (direction = "higher" ∨ direction = "lower")
                   ∧ e = col ++ ": Anomalies have " ++ direction
                           ++ " values (diff: " ++ diff ++ ")")
        cols explanations.
Proof.
  unfold explain_anomalies. case_decide; [|done].
  destruct (mapM_outcome _ _) as [ys|] eqn:Hys; simpl; [|done].
  intros [= <-]. apply mapM_outcome_Forall2 in Hys.
  apply omap_id_sublist in Hys as (cols & Hsub & Hcols).
  exists cols. split; [done|].
  eapply Forall2_impl; [exact Hcols|].
  intros col e He. cbv beta in He. by eapply explain_column_text.
Qed.

Lemma explanations_per_column_witness :
  ∃ cols, cols `sublist_of` numeric_cols hundred_flagged
    ∧ Forall2 (λ col e,
                 ∃ direction diff, (direction = "higher" ∨ direction = "lower")
                   ∧ e = col ++ ": Anomalies have " ++ direction
                           ++ " values (diff: " ++ diff ++ ")")
        cols ["value: Anomalies have higher values (diff: 97.00)"].
Proof.
  apply (@explanations_per_column _ _ Naive.pandas one_to_hundred hundred_flagged).
  by vm_compute.
Defined.

Section NormalRows.
Context (P : Pandas float).
Local Open Scope num_scope.

(** With fewer than two normal rows their standard deviation is
    undefined, and no difference exceeds it. *)
Lemma explain_column_few_normal (df : DataFrame float) (mask : list bool) (col : string)
    (xs : list float) :
  (count_true negb mask ≤ 1)%nat →
  get_column df col = Some (Numeric xs) →
  explain_column df mask col = Returned None.
Proof.
  intros Hfew Hcol. unfold explain_column. rewrite Hcol.
  assert (series_std (boolean_mask (negb <$> mask) xs) = S754_nan) as ->.
  { pose proof (length_boolean_mask (negb <$> mask) xs) as Hlen.
    rewrite count_true_compose in Hlen.
    change (count_true (id ∘ negb) mask) with (count_true negb mask) in Hlen.
    pose proof (length_dropna_le (boolean_mask (negb <$> mask) xs)) as Hdrop.
    unfold series_std.
    destruct (dropna _) as [|a [|b l]]; simpl in *; try done. lia. }
  by rewrite ltb_nan_l.
Qed.

(** X17.  Unless at least two rows are labelled normal, [explain_anomalies]
    explains nothing: for a frame with distinct labels and a result of the
    frame with every row, or every row but one, labelled anomalous it
    returns the empty list. *)
Theorem explain_needs_two_normal_rows (df : DataFrame float) (result : AnomalyResult float) :
  NoDup (columns df) →
  length (anomalies result) = nrows df →
  Forall (λ col, ∃ xs, get_column df col = Some (Numeric xs)) (numeric_cols result) →
  (count_true negb (anomalies result) ≤ 1)%nat →
  explain_anomalies df result = Returned [].
Proof.
  intros _ Hlen Hcols Hfew. unfold explain_anomalies.
  rewrite decide_True by done.
  apply mapM_outcome_all_none.
  eapply Forall_impl; [exact Hcols|].
  intros col [xs Hcol]. by eapply explain_column_few_normal.
Qed.

End NormalRows.

Lemma explain_needs_two_normal_rows_witness :
  @explain_anomalies _ _ Naive.pandas one_to_hundred one_normal = Returned [].
Proof.
  apply (explain_needs_two_normal_rows Naive.pandas one_to_hundred one_normal).
  - apply (bool_decide_unpack _). by vm_compute.
  - reflexivity.
  - repeat constructor. by eexists.
  - vm_compute. lia.
Defined.

(** ** More on [detect_anomalies] *)
Section DetectorReplies.
Context {A : Type} `{!Number A}.

(** With a numeric column, a run that returns has taken one of the three
    branches and returns the result it built. *)
Lemma run_detect_anomalies_result {S} (h : handler (sklearn A) S) (s s' : S)
    (df : DataFrame A) (algorithm : string) (contamination : A) (kw : kwargs A)
    (reply : reply (AnomalyResult A)) :
  numeric_columns df ≠ [] →
  run h (detect_anomalies df algorithm contamination kw) s = (Returned reply, s') →
  (algorithm = "Isolation Forest" ∨ algorithm = "One-Class SVM"
   ∨ algorithm = "Local Outlier Factor")
  ∧ ∃ r, reply = (Some r, None)
       ∧ anomalies r = (λ p, bool_decide (p = (-1)%Z)) <$> predictions r
       ∧ numeric_cols r = numeric_columns df.
Proof.
  intros Hcols Hrun. apply numeric_columns_nonempty in Hcols.
  unfold detect_anomalies in Hrun. rewrite decide_False in Hrun by done.
  rewrite run_bind, run_call in Hrun.
  destruct (h _ StandardScaler s) as [[sc|e] s1]; [|done].
  rewrite run_bind, run_call in Hrun.
  destruct (h _ (fit_transform sc _) s1) as [[X|e] s2]; [|done].
  rewrite run_bind in Hrun. unfold fit_model in Hrun.
  repeat case_decide; [| | |done];
    (split; [by auto|]);
    repeat (rewrite run_bind, run_call in Hrun;
            match type of Hrun with
            | context [h ?T ?c ?s] => destruct (h T c s) as [[?|?] ?]; [|done]
            end);
    simpl in Hrun; injection Hrun as <- <-; by eexists.
Qed.

End DetectorReplies.

(** X18.  Whatever the library answers, a reply that [detect_anomalies]
    returns is the error reply for a frame without numeric columns, made
    without calling the library, or a result without an error for one of
    the three algorithms: its flags mark the predictions equal to -1 and it
    names the numeric columns of the frame. *)
Theorem detect_anomalies_reply {A : Type} `{!Number A} {S} (h : handler (sklearn A) S)
    (s s' : S) (df : DataFrame A) (algorithm : string) (contamination : A) (kw : kwargs A)
    (reply : reply (AnomalyResult A)) :
  run h (detect_anomalies df algorithm contamination kw) s = (Returned reply, s') →
  (numeric_columns df = [] ∧ reply = (None, Some NoNumericDataError) ∧ s' = s)
  ∨ (numeric_columns df ≠ []
     ∧ (algorithm = "Isolation Forest" ∨ algorithm = "One-Class SVM"
        ∨ algorithm = "Local Outlier Factor")
     ∧ ∃ r, reply = (Some r, None)
          ∧ anomalies r = (λ p, bool_decide (p = (-1)%Z)) <$> predictions r
          ∧ numeric_cols r = numeric_columns df).
Proof.
  intros Hrun. destruct (decide (numeric_columns df = [])) as [Hnone|Hcols].
  - left. unfold detect_anomalies in Hrun. rewrite Hnone in Hrun.
    by injection Hrun as <- <-.
  - right. split; [done|]. by eapply run_detect_anomalies_result.
Qed.

Lemma detect_anomalies_reply_witness :
  (numeric_columns one_to_hundred = []
   ∧ (Some all_normal, @None string) = (None, Some NoNumericDataError)
   ∧ (2%nat, ["StandardScaler"; "fit_transform"; "IsolationForest"; "predict";
              "decision_function"]) = Double.start)
  ∨ (numeric_columns one_to_hundred ≠ []
     ∧ ("Isolation Forest" = "Isolation Forest" ∨ "Isolation Forest" = "One-Class SVM"
        ∨ "Isolation Forest" = "Local Outlier Factor")
     ∧ ∃ r, (Some all_normal, @None string) = (Some r, None)
          ∧ anomalies r = (λ p, bool_decide (p = (-1)%Z)) <$> predictions r
          ∧ numeric_cols r = numeric_columns one_to_hundred).
Proof.
  apply (detect_anomalies_reply Double.library Double.start
           (2%nat, ["StandardScaler"; "fit_transform"; "IsolationForest"; "predict";
                    "decision_function"])
           one_to_hundred "Isolation Forest" one_half []).
  reflexivity.
Defined.

(** X19.  The explainer accepts what the detector returns.  For a frame
    with distinct labels and a library that predicts one label for each
    row, [explain_anomalies] applied to the frame and to a result of
    [detect_anomalies] for it raises nothing and returns its list. *)
Theorem explain_after_detect {A : Type} `{!Number A} `{!Pandas A} {S}
    (h : handler (sklearn A) S) (s s' : S) (df : DataFrame A) (algorithm : string)
    (contamination : A) (kw : kwargs A) (r : AnomalyResult A) (error : option string) :
  NoDup (columns df) →
  run h (detect_anomalies df algorithm contamination kw) s = (Returned (Some r, error), s') →
  length (predictions r) = nrows df →
  ∃ explanations, explain_anomalies df r = Returned explanations.
Proof.
  intros Hnd Hrun Hlen.
  destruct (decide (numeric_columns df = [])) as [Hnone|Hnum].
  { unfold detect_anomalies in Hrun. by rewrite Hnone in Hrun. }
  apply (run_detect_anomalies_result _ _ _ _ _ _ _ _ Hnum) in Hrun
    as (_ & r' & [= <- _] & Hflags & Hcols).
  unfold explain_anomalies.
  rewrite decide_True by (by rewrite Hflags, length_fmap).
  destruct (mapM_outcome_returns (explain_column df (anomalies r)) (numeric_cols r))
    as [ys ->]; [|by eexists].
  rewrite Hcols. apply Forall_forall. intros col Hcol.
  destruct (numeric_columns_get_column df col Hnd Hcol) as [xs Hget].
  by eapply explain_column_numeric.
Qed.

Lemma explain_after_detect_witness :
  ∃ explanations, @explain_anomalies _ _ Naive.pandas one_to_hundred all_normal
                  = Returned explanations.
Proof.
  apply (@explain_after_detect _ _ Naive.pandas _ Double.library Double.start
           (2%nat, ["StandardScaler"; "fit_transform"; "IsolationForest"; "predict";
                    "decision_function"])
           one_to_hundred "Isolation Forest" one_half [] all_normal None).
  - apply (bool_decide_unpack _). by vm_compute.
  - reflexivity.
  - reflexivity.
Defined.

(** X20.  For "Isolation Forest" and "One-Class SVM" the code creates the
    model and asks it to predict without fitting it.  Under a library that
    refuses to predict with an estimator as its constructor returned it,
    as scikit-learn does, [detect_anomalies] with either algorithm never
    returns on a frame with a numeric column: an exception leaves it. *)
Theorem predict_before_fit {A : Type} `{!Number A} {S} (h : handler (sklearn A) S) (s : S)
    (df : DataFrame A) (algorithm : string) (contamination : A) (kw : kwargs A) :
  refuses_unfitted h →
  numeric_columns df ≠ [] →
  algorithm = "Isolation Forest" ∨ algorithm = "One-Class SVM" →
  ∃ e, (run h (detect_anomalies df algorithm contamination kw) s).1 = Raised e.
Proof.
  intros Hrefuses Hnum Halg. apply numeric_columns_nonempty in Hnum.
  unfold detect_anomalies. rewrite decide_False by done.
  rewrite run_bind, run_call.
  destruct (h _ StandardScaler s) as [[sc|e] s1]; [|by eexists].
  rewrite run_bind, run_call.
  destruct (h _ (fit_transform sc _) s1) as [[X|e] s2]; [|by eexists].
  rewrite run_bind. unfold fit_model.
  destruct Halg as [-> | ->].
  - rewrite decide_True by done. rewrite run_bind, run_call.
    destruct (h _ (IsolationForest contamination 42 kw) s2) as [[m|e] s3] eqn:Hm;
      [|by eexists].
    destruct (Hrefuses s2 m s3 X) as (e & s4 & He); [left; by do 3 eexists|].
    rewrite run_bind, run_call, He. by eexists.
  - rewrite decide_False, decide_True by done. rewrite run_bind, run_call.
    destruct (h _ (OneClassSVM contamination kw) s2) as [[m|e] s3] eqn:Hm;
      [|by eexists].
    destruct (Hrefuses s2 m s3 X) as (e & s4 & He); [right; by do 2 eexists|].
    rewrite run_bind, run_call, He. by eexists.
Qed.

Lemma strict_library_refuses_unfitted {A : Type} `{!Number A} :
  refuses_unfitted (@Strict.library A _).
Proof.
  intros s m s' X [(c & rs & kw & Hm)|(nu & kw & Hm)];
    injection Hm as <- <-; do 2 eexists; simpl;
    by rewrite (list_lookup_middle s [] None (length s) eq_refl).
Qed.

Lemma predict_before_fit_witness :
  ∃ e, (run Strict.library (detect_anomalies one_to_hundred "Isolation Forest" one_half [])
          Strict.start).1 = Raised e.
Proof.
  apply (predict_before_fit Strict.library Strict.start one_to_hundred
           "Isolation Forest" one_half []).
  - apply strict_library_refuses_unfitted.
  - discriminate.
  - by left.
Defined.

(** The runs under that library: the two forests and machines stop at
    [predict]; the third algorithm, fitted by [fit_predict], returns. *)
Example unfitted_runs :
  run Strict.library (detect_anomalies one_to_hundred "Isolation Forest" one_half [])
    Strict.start
  = (Raised Strict.NotFittedError, [Some 6%nat; None])
  ∧ run Strict.library (detect_anomalies one_to_hundred "One-Class SVM" one_half [])
      Strict.start
    = (Raised Strict.NotFittedError, [Some 6%nat; None])
  ∧ ∃ r, run Strict.library
           (detect_anomalies one_to_hundred "Local Outlier Factor" one_half [])
           Strict.start
         = (Returned (Some r, None), [Some 6%nat; Some 6%nat])
       ∧ length (scores r) = 6%nat.
Proof.
  split; [reflexivity|]. split; [reflexivity|].
  eexists. split; [by vm_compute|reflexivity].
Qed.

(** ** The contamination the page passes *)

(** X21.  The contamination that [run_anomaly_detection] passes on, a
    whole percentage from 1 to 20 divided by 100, lies strictly between 0
    and one half. *)
Theorem slider_contamination_in_range (percent : Z) :
  (1 ≤ percent ≤ 20)%Z →
  (num_lit 0 0 <? contamination_of_percent percent)%num = true
  ∧ (contamination_of_percent percent <? one_half)%num = true.
Proof.
  intros Hrange.
  assert (∃ n : nat, (n < 20)%nat ∧ percent = (Z.of_nat n + 1)%Z) as (n & Hn & ->).
  { exists (Z.to_nat (percent - 1)). lia. }
  do 20 (destruct n as [|n]; [by vm_compute|]). lia.
Qed.

Lemma slider_contamination_in_range_witness :
  (num_lit 0 0 <? contamination_of_percent 10)%num = true
  ∧ (@contamination_of_percent float _ 10 <? one_half)%num = true.
Proof. apply (slider_contamination_in_range 10). lia. Defined.

(** ** Missing values and short columns *)
Section MissingObservations.
Context {A : Type} `{!Number A}.

Lemma length_dropna_lt (x : A) (l : list A) :
  x ∈ l → num_isnan x = true → (length (dropna l) < length l)%nat.
Proof.
  intros Hin Hnan. unfold dropna.
  induction l as [|y l IH]; [by apply elem_of_nil in Hin|].
  apply elem_of_cons in Hin as [<-|Hin].
  - rewrite filter_cons_False by congruence.
    pose proof (length_filter (λ x, num_isnan x = false) l). simpl. lia.
  - specialize (IH Hin). destruct (decide (num_isnan y = false)).
    + rewrite filter_cons_True by done. simpl. lia.
    + rewrite filter_cons_False by done. simpl. lia.
Qed.

Lemma elem_of_rolling_window (window i j : nat) (x : A) (xs : list A) :
  xs !! j = Some x → (j ≤ i < j + window)%nat → x ∈ rolling_window window i xs.
Proof.
  intros Hj Hij. unfold rolling_window. apply list_elem_of_lookup.
  exists (j - (S i - window))%nat. rewrite lookup_drop.
  replace (S i - window + (j - (S i - window)))%nat with j by lia.
  rewrite lookup_take_lt by lia. done.
Qed.

(** A window that holds a missing value has no statistic. *)
Lemma rolling_missing (window : nat) (kernel : list A → A) (xs : list A) (i j : nat)
    (x y : A) :
  xs !! j = Some x → num_isnan x = true → (j ≤ i < j + window)%nat →
  rolling window kernel xs !! i = Some y → y = num_nan.
Proof.
  intros Hj Hnan Hij. unfold rolling. rewrite list_lookup_imap.
  destruct (xs !! i) as [x'|]; simpl; [|done]. intros [= <-].
  pose proof (length_rolling_window window i xs) as [_ Hlen].
  pose proof (length_dropna_lt x _ (elem_of_rolling_window window i j x xs Hj Hij) Hnan).
  rewrite decide_True; [done|]. left. lia.
Qed.

End MissingObservations.

Section MissingInWindow.
Context (P : Pandas float).
Local Open Scope num_scope.

(** X22.  In a frame with distinct labels, a row is never flagged when one
    of the [window] rows up to it, in time order, has a missing value: its
    rolling mean is undefined, whatever the other values and the
    threshold. *)
Theorem missing_value_in_window_not_flagged (df : DataFrame float)
    (time_col value_col : string) (window : Z) (threshold : float)
    (times : column float) (ts : list (option Z)) (xs : list float) :
  NoDup (columns df) →
  get_column df time_col = Some times →
  get_column df value_col = Some (Numeric xs) →
  time_col ≠ value_col →
  to_datetime times = Returned ts →
  (0 ≤ window)%Z →
  ∃ r, detect_time_series_anomalies df time_col value_col window threshold
       = Returned (Some r, None)
     ∧ ∀ i j label b,
         take_rows (argsort ts) xs !! j = Some S754_nan →
         (j ≤ i < j + Z.to_nat window)%nat →
         ts_anomalies r !! i = Some (label, b) → b = false.
Proof.
  intros _ Ht Hv Hne Hts Hw.
  rewrite (detect_time_series_anomalies_eq _ _ _ _ _ _ _ _ Ht Hv Hne Hts).
  rewrite decide_False by lia. eexists. split; [done|].
  intros i j label b Hj Hij Hflag.
  apply rolling_result_flag in Hflag as (v & m & sd & _ & Hm & _ & ->).
  apply z_score_undefined. left.
  exact (rolling_missing _ _ _ i j S754_nan m Hj eq_refl Hij Hm).
Qed.

(** X23.  The z-score method counts nothing in a column (of a frame with
    distinct labels) with fewer than two values that are not missing: the
    standard deviation is undefined, and so is every z-score. *)
Theorem zscore_needs_two_values (df : DataFrame float) (col : string) (xs : list float) :
  NoDup (columns df) →
  get_column df col = Some (Numeric xs) →
  (length (dropna xs) ≤ 1)%nat →
  detect_outliers df "zscore" !! col = Some 0%nat.
Proof.
  intros _ Hcol Hfew.
  rewrite (detect_outliers_lookup _ _ _ _ Hcol). unfold outliers_entry.
  rewrite Hcol, decide_False, decide_True by done. f_equal.
  unfold zscore_outliers.
  assert (series_std xs = S754_nan) as ->.
  { unfold series_std. destruct (dropna xs) as [|a [|b l]]; simpl in *; try done. lia. }
  rewrite count_true_compose. generalize (series_mean xs). intros mean.
  clear. unfold count_true. induction xs as [|x xs IH]; [done|].
  rewrite filter_cons_False; [apply IH|].
  cbn [compose]. destruct (x - mean); by rewrite ?ltb_nan_r.
Qed.

End MissingInWindow.

Lemma missing_value_in_window_not_flagged_witness :
  ∃ r, @detect_time_series_anomalies _ _ Naive.pandas four_days "date" "value" 2 (f64 0)
       = Returned (Some r, None)
     ∧ ∀ i j label b,
         take_rows (@argsort _ Naive.pandas
                      [Some 0%Z; Some 86400000000000%Z; Some 172800000000000%Z;
                       Some 259200000000000%Z])
           [f64 1; S754_nan; f64 300; f64 4] !! j = Some S754_nan →
         (j ≤ i < j + Z.to_nat 2)%nat →
         ts_anomalies r !! i = Some (label, b) → b = false.
Proof.
  apply (missing_value_in_window_not_flagged Naive.pandas four_days "date" "value" 2 (f64 0)
           (Datetime [Some 0%Z; Some 86400000000000%Z; Some 172800000000000%Z;
                      Some 259200000000000%Z])
           [Some 0%Z; Some 86400000000000%Z; Some 172800000000000%Z; Some 259200000000000%Z]
           [f64 1; S754_nan; f64 300; f64 4]);
    [apply (bool_decide_unpack _); by vm_compute
    |reflexivity|reflexivity|discriminate|reflexivity|lia].
Defined.

Lemma zscore_needs_two_values_witness :
  @detect_outliers _ _ Naive.pandas lonely "zscore" !! "x" = Some 0%nat.
Proof.
  apply (zscore_needs_two_values Naive.pandas lonely "x" [S754_nan; f64 1000; S754_nan]).
  - apply (bool_decide_unpack _). by vm_compute.
  - reflexivity.
  - vm_compute. lia.
Defined.

(** ** Exact arithmetic: the z-score method on a short column *)
Section SmallSample.
Context (P : Pandas Q).
Local Existing Instance Exact.number.
Local Open Scope Q_scope.

Lemma Qsum_app (l1 l2 : list Q) : Qsum (l1 ++ l2) == Qsum l1 + Qsum l2.
Proof.
  unfold Qsum. induction l1 as [|x l1 IH]; simpl; [ring|]. rewrite IH. ring.
Qed.

Lemma Qsq_nonneg (xs : list Q) : 0 <= Qsq xs.
Proof.
  unfold Qsq, Qsum. induction xs as [|x xs IH]; cbn [fmap list_fmap foldr]; [lra|].
  set (q := foldr Qplus 0 _) in *. clearbody q. nra.
Qed.

Lemma Qsq_shift (a : Q) (xs : list Q) :
  Qsq ((λ x, x - a) <$> xs)
  == Qsq xs + inject_Z (Z.of_nat (length xs)) * (a * a) - 2 * a * Qsum xs.
Proof.
  unfold Qsq, Qsum. induction xs as [|x xs IH].
  - simpl. ring.
  - cbn [fmap list_fmap foldr length]. rewrite IH, Nat2Z.inj_succ, <- Z.add_1_r, inject_Z_plus.
    change (inject_Z 1) with 1. ring.
Qed.

(** The square of a sum is at most the number of terms times the sum of
    the squares. *)
Lemma Qsum_sq_le (xs : list Q) :
  Qsum xs * Qsum xs <= inject_Z (Z.of_nat (length xs)) * Qsq xs.
Proof.
  induction xs as [|a xs IH].
  - unfold Qsum, Qsq. simpl. lra.
  - pose proof (Qsq_nonneg ((λ x, x - a) <$> xs)) as Hshift.
    rewrite Qsq_shift in Hshift.
    unfold Qsq, Qsum in *. cbn [fmap list_fmap foldr length].
    rewrite Nat2Z.inj_succ, <- Z.add_1_r, inject_Z_plus. change (inject_Z 1) with 1.
    set (s := foldr Qplus 0 xs) in *.
    set (q := foldr Qplus 0 ((λ x, x * x) <$> xs)) in *.
    set (m := inject_Z (Z.of_nat (length xs))) in *.
    clearbody s q m. lra.
Qed.

Lemma Qsq_app (l1 l2 : list Q) : Qsq (l1 ++ l2) == Qsq l1 + Qsq l2.
Proof. unfold Qsq. rewrite fmap_app. apply Qsum_app. Qed.

Lemma Qsum_shift (a : Q) (xs : list Q) :
  Qsum ((λ x, x - a) <$> xs) == Qsum xs - inject_Z (Z.of_nat (length xs)) * a.
Proof.
  unfold Qsum. induction xs as [|x xs IH].
  - simpl. ring.
  - cbn [fmap list_fmap foldr length].
    rewrite IH, Nat2Z.inj_succ, <- Z.add_1_r, inject_Z_plus. change (inject_Z 1) with 1.
    ring.
Qed.

(** No deviation is large beside the others when the deviations add up to
    zero. *)
Lemma deviation_bound (d : Q) (ds : list Q) :
  d ∈ ds → Qsum ds == 0 →
  inject_Z (Z.of_nat (length ds)) * (d * d)
  <= (inject_Z (Z.of_nat (length ds)) - 1) * Qsq ds.
Proof.
  intros Hd Hzero. apply list_elem_of_split in Hd as (l1 & l2 & ->).
  pose proof (Qsum_sq_le (l1 ++ l2)) as Hrest.
  rewrite Qsum_app, Qsq_app in Hrest.
  assert (length (l1 ++ d :: l2) = S (length (l1 ++ l2))) as ->
    by (rewrite !length_app; simpl; lia).
  rewrite Nat2Z.inj_succ, <- Z.add_1_r, inject_Z_plus. change (inject_Z 1) with 1.
  change (l1 ++ d :: l2)%list with (l1 ++ [d] ++ l2)%list in *.
  rewrite !Qsum_app in Hzero. rewrite !Qsq_app.
  change (Qsum [d]) with (d + 0) in Hzero. change (Qsq [d]) with (d * d + 0).
  set (K := inject_Z (Z.of_nat (length (l1 ++ l2)))) in *.
  set (s1 := Qsum l1) in *. set (s2 := Qsum l2) in *.
  set (q1 := Qsq l1) in *. set (q2 := Qsq l2) in *.
  clearbody K s1 s2 q1 q2.
  assert (s1 + s2 == - d) as Hs by lra.
  assert ((s1 + s2) * (s1 + s2) == d * d) as Hsq by (rewrite Hs; ring).
  rewrite Hsq in Hrest. lra.
Qed.

Lemma count_true_none {T} (p : T → bool) (xs : list T) :
  Forall (λ x, p x = false) xs → count_true p xs = 0%nat.
Proof.
  unfold count_true. induction 1 as [|x xs Hx _ IH]; [done|].
  rewrite filter_cons_False by congruence. exact IH.
Qed.

(** A deviation of at most three standard deviations gives no z-score
    above 3; nor does a standard deviation of zero, by which the division
    is zero over the rationals. *)
Lemma z_score_within (d s : Q) :
  0 <= s → (0 < s → d * d <= 9 * (s * s)) →
  (num_abs (d / s) >? num_lit 3 0)%num = false.
Proof.
  intros Hs Hd. cbn [num_abs num_div num_ltb num_lit Exact.number].
  apply negb_false_iff, Qle_bool_iff.
  change (inject_Z 3 * Exact.pow2 0) with 3.
  destruct (Qeq_dec s 0) as [Hzero|Hpos].
  - assert (d / s == 0) as -> by (unfold Qdiv; rewrite Hzero; change (/ 0) with 0; ring).
    done.
  - assert (0 < s) as Hlt by (apply Qle_lteq in Hs as [?|Heq]; [done|by rewrite Heq in Hpos]).
    specialize (Hd Hlt).
    unfold Qdiv. rewrite Qabs_Qmult, (Qabs_pos (/ s)) by (apply Qinv_le_0_compat; lra).
    apply Qle_shift_div_r; [done|].
    apply Qabs_case; intros; nra.
Qed.

(** The deviations from the exact mean add up to zero. *)
Lemma Qsum_deviations (xs : list Q) :
  xs ≠ [] → Qsum ((λ x, x - Qmean xs) <$> xs) == 0.
Proof.
  intros Hxs. rewrite Qsum_shift. unfold Qmean.
  rewrite Qmult_div_r; [ring|].
  destruct xs as [|x xs]; [done|]. cbn [length].
  rewrite Nat2Z.inj_succ. intros Heq.
  assert (0 < inject_Z (Z.succ (Z.of_nat (length xs)))) as Hpos.
  { change 0 with (inject_Z 0). rewrite <- Zlt_Qlt. lia. }
  lra.
Qed.

Lemma Qvar_times (xs : list Q) :
  (2 ≤ length xs)%nat →
  (inject_Z (Z.of_nat (length xs)) - 1) * Qvar xs == Qsq ((λ x, x - Qmean xs) <$> xs).
Proof.
  intros Hlen. unfold Qvar.
  assert (inject_Z (Z.of_nat (length xs)) - 1 == inject_Z (Z.of_nat (length xs) - 1)) as ->.
  { unfold Z.sub. rewrite inject_Z_plus, inject_Z_opp. reflexivity. }
  apply Qmult_div_r. intros Heq.
  assert (0 < inject_Z (Z.of_nat (length xs) - 1)) as Hpos.
  { change 0 with (inject_Z 0). rewrite <- Zlt_Qlt. lia. }
  lra.
Qed.

(** The reference kernel of the standard deviation is within the bounds
    asked of one below, whatever the column. *)
Lemma Zsqrt_nine_tenths (N : Z) :
  (N = 0 ∨ 400 ≤ N)%Z → (9 * N ≤ 10 * (Z.sqrt N * Z.sqrt N))%Z.
Proof.
  intros [->|HN]; [done|].
  pose proof (Z.sqrt_spec N ltac:(lia)) as [Hlo Hhi].
  assert (20 ≤ Z.sqrt N)%Z by (change 20%Z with (Z.sqrt 400); by apply Z.sqrt_le_mono).
  nia.
Qed.

Lemma Qroot_nonneg (q : Q) : 0 <= Qroot q.
Proof.
  unfold Qroot. apply Qle_shift_div_l.
  - change 0 with (inject_Z 0). rewrite <- Zlt_Qlt. lia.
  - rewrite Qmult_0_l. change 0 with (inject_Z 0). rewrite <- Zle_Qle. apply Z.sqrt_nonneg.
Qed.

Lemma Qroot_square (q : Q) : 0 <= q → (9 # 10) * q <= Qroot q * Qroot q.
Proof.
  intros Hq. rewrite <- (Qred_correct q) at 1. rewrite <- (Qred_correct q) in Hq.
  unfold Qroot. destruct (Qred q) as [a b]. cbn [Qnum Qden].
  assert (0 ≤ a)%Z as Ha by (unfold Qle in Hq; simpl in Hq; lia).
  pose proof (Zsqrt_nine_tenths (a * Z.pos b * 10 ^ 12)) as Hroot.
  unfold Qle, Qmult, Qdiv, Qinv, inject_Z. cbn [Qnum Qden].
  set (t := Z.sqrt _) in *.
  assert (0 ≤ t)%Z by apply Z.sqrt_nonneg.
  destruct (Z.pos b * 10 ^ 6)%Z as [|D|D] eqn:HD; [lia| |lia].
  cbn [Qnum Qden Qmult Pos.mul]. rewrite !Pos2Z.inj_mul, !Z.mul_1_r, <- !HD.
  assert (a = 0 ∨ 1 ≤ a)%Z as [->|Hpos] by lia.
  - rewrite Z.mul_0_r, Z.mul_0_l. apply Z.mul_nonneg_nonneg; [nia|lia].
  - assert (9 * (a * Z.pos b * 10 ^ 12) ≤ 10 * (t * t))%Z as Hle by (apply Hroot; right; nia).
    clearbody t. clear Hroot HD Hq.
    set (B := Z.pos b) in *. assert (0 < B)%Z by lia. clearbody B.
    change (10 ^ 6)%Z with 1000000%Z. change (10 ^ 12)%Z with 1000000000000%Z in Hle.
    change (Z.pos 10) with 10%Z.
    nia.
Qed.

Lemma Qvar_nonneg (xs : list Q) : 0 <= Qvar xs.
Proof.
  unfold Qvar, Qdiv. pose proof (Qsq_nonneg ((λ x, x - Qmean xs) <$> xs)) as Hsq.
  destruct xs as [|x0 [|x1 xs]]; [done| |].
  - change (/ inject_Z (Z.of_nat (length [x0]) - 1)) with 0. lra.
  - apply Qmult_le_0_compat; [done|]. apply Qinv_le_0_compat.
    change 0 with (inject_Z 0). rewrite <- Zle_Qle. cbn [length]. lia.
Qed.

Lemma exact_pandas_std (xs : list Q) :
  0 <= std_kernel (Pandas := exact_pandas) xs
  ∧ (9 # 10) * Qvar xs
    <= std_kernel (Pandas := exact_pandas) xs * std_kernel (Pandas := exact_pandas) xs.
Proof. split; [apply Qroot_nonneg|apply Qroot_square, Qvar_nonneg]. Qed.

(** X24.  Over the rationals, where the mean is the exact mean and the
    standard deviation is any nonnegative number whose square is at least
    nine tenths of the exact sample variance (the exact root, where there is
    one, or an approximation of it), the z-score method counts no outlier in
    a column of ten values or fewer (of a frame with distinct labels): no
    value lies more than [(n - 1) / sqrt n] exact standard deviations from
    the mean of [n] values, and [(n - 1)² / n] is at most 8.1 up to
    [n = 10]. *)
Theorem zscore_small_sample (df : DataFrame Q) (col : string) (xs : list Q) :
  NoDup (columns df) →
  get_column df col = Some (Numeric xs) →
  (length xs ≤ 10)%nat →
  mean_kernel xs == Qmean xs →
  0 <= std_kernel xs →
  (9 # 10) * Qvar xs <= std_kernel xs * std_kernel xs →
  detect_outliers df "zscore" !! col = Some 0%nat.
Proof.
  intros _ Hcol Hlen Hmean Hstd Hvar.
  rewrite (detect_outliers_lookup _ _ _ _ Hcol). unfold outliers_entry.
  rewrite Hcol, decide_False, decide_True by done. f_equal.
  unfold zscore_outliers. apply count_true_none, Forall_fmap, Forall_forall.
  intros x Hx. unfold series_mean, series_std. rewrite dropna_exact.
  destruct xs as [|x0 [|x1 l]].
  - by apply elem_of_nil in Hx.
  - apply z_score_within; cbn [num_nan Exact.number]; lra.
  - set (xs := x0 :: x1 :: l) in *.
    assert (2 ≤ length xs)%nat as Htwo by (cbn; lia).
    assert (xs ≠ []) as Hne by done.
    clearbody xs. cbn [compose].
    apply z_score_within; [done|]. intros _.
    cbn [num_sub Exact.number]. rewrite Hmean.
    pose proof (Qvar_times xs Htwo) as Htimes.
    pose proof (deviation_bound (x - Qmean xs) ((λ y, y - Qmean xs) <$> xs)
                  (list_elem_of_fmap_2 _ _ _ Hx) (Qsum_deviations xs Hne)) as Hbound.
    rewrite length_fmap in Hbound.
    pose proof (Qsq_nonneg ((λ y, y - Qmean xs) <$> xs)) as Hpos.
    set (V := Qvar xs) in *. set (T := Qsq _) in *.
    set (d2 := (x - Qmean xs) * (x - Qmean xs)) in *.
    set (s2 := std_kernel xs * std_kernel xs) in *.
    clearbody V T d2 s2.
    remember (length xs) as n eqn:Hn. clear Hn.
    do 2 (destruct n as [|n]; [lia|]).
    do 9 (destruct n as [|n];
          [repeat match goal with
                  | H : context [inject_Z ?z] |- _ =>
                      let v := eval vm_compute in (inject_Z z) in
                      change (inject_Z z) with v in H
                  end; lra|]).
    lia.
Qed.

End SmallSample.

Lemma zscore_small_sample_witness :
  @detect_outliers _ Exact.number exact_pandas one_to_fifty "zscore" !! "value" = Some 0%nat.
Proof.
  apply (zscore_small_sample exact_pandas one_to_fifty "value" [1; 2; 3; 4; 5; 50]%Q).
  - apply (bool_decide_unpack _). by vm_compute.
  - reflexivity.
  - simpl. lia.
  - reflexivity.
  - by vm_compute.
  - by vm_compute.
Defined.

(** The column of the repository's test of the z-score method, in binary64:
    of six values none can be counted. *)
Example zscore_six_values :
  @zscore_outliers _ _ Naive.pandas [f64 1; f64 2; f64 3; f64 4; f64 5; f64 50] = 0%nat.
Proof. by vm_compute. Qed.

(** ** The matrix handed to the scaler *)
Section Values.
Context {A : Type} `{!Number A}.

Lemma get_column_elem_of (df : DataFrame A) (col : string) (c : column A) :
  get_column df col = Some c → (col, c) ∈ df.
Proof.
  induction df as [|[name c'] df IH]; [done|]. cbn [get_column].
  case_decide as Heq.
  - intros [= ->]. subst. left.
  - intros Hget. right. by apply IH.
Qed.

Lemma length_omap_lookup {T} (data : list (list T)) (i : nat) :
  Forall (λ xs, (i < length xs)%nat) data →
  length (omap (λ xs : list T, xs !! i) data) = length data.
Proof.
  induction 1 as [|xs data Hxs _ IH]; [done|].
  cbn [omap list_omap]. destruct (lookup_lt_is_Some_2 xs i Hxs) as [x ->].
  cbn [length]. by rewrite IH.
Qed.

(** X25.  For a frame with distinct labels, whose columns all have the
    length of the frame, [df[numeric_cols].values] is a matrix with one row
    for each row of the frame and one entry in each row for each numeric
    column. *)
Theorem values_shape (df : DataFrame A) :
  NoDup (columns df) →
  Forall (λ p, column_length p.2 = nrows df) df →
  length (values df (numeric_columns df)) = nrows df
  ∧ Forall (λ row, length row = length (numeric_columns df))
      (values df (numeric_columns df)).
Proof.
  intros Hnd Hrect. unfold values. split; [by rewrite length_fmap, length_seq|].
  apply Forall_fmap, Forall_forall. intros i Hi. apply elem_of_seq in Hi. cbn [compose].
  assert (∀ cols, Forall (λ col, col ∈ numeric_columns df) cols →
            length (omap (λ col, match get_column df col with
                                 | Some (Numeric xs) => Some xs
                                 | _ => None
                                 end) cols) = length cols
            ∧ Forall (λ xs : list A, (i < length xs)%nat)
                (omap (λ col, match get_column df col with
                              | Some (Numeric xs) => Some xs
                              | _ => None
                              end) cols)) as Hdata.
  { induction 1 as [|col cols Hcol _ [IHlen IHall]]; [by split|].
    destruct (numeric_columns_get_column df col Hnd Hcol) as [xs Hget].
    cbn [omap list_omap]. rewrite Hget. cbn [length]. split; [by rewrite IHlen|].
    constructor; [|done].
    apply get_column_elem_of in Hget.
    apply (proj1 (Forall_forall _ _) Hrect) in Hget. cbn in Hget. lia. }
  destruct (Hdata (numeric_columns df)) as [Hlen Hall];
    [by apply Forall_forall|].
  by rewrite length_omap_lookup, Hlen.
Qed.

End Values.

Lemma values_shape_witness :
  length (values people (numeric_columns people)) = nrows people
  ∧ Forall (λ row, length row = length (numeric_columns people))
      (values people (numeric_columns people)).
Proof.
  apply (values_shape people).
  - apply (bool_decide_unpack _). by vm_compute.
  - repeat constructor.
Defined.
